(** * Countries, cities, vehicles, trips and path finding

    A shallow embedding of [locations.py], [vehicles.py], [trip.py] and
    [path_finding.py], with the properties of these modules stated and proved
    over the embedding.

    Conventions.
    - A Python call either returns a value or raises: [outcome A].
    - A Python [dict] keeps insertion order; where the program iterates over a
      dict ([City.cities], the adjacency of the networkx graph) it is an
      association list [pydict]; [Country.countries] is only ever indexed by
      key and is a [gmap].
    - [Country] instances are mutable and compared by identity
      ([departure.country == arrival.country], no [__eq__] is defined), so a
      city holds the address of its country in the store of the [World].
    - A finite Python [float] is a rational number; [math.inf] is the
      constructor [Inf] of [hours]. *)

From Stdlib Require Import ZArith QArith Qround String Ascii List Lia.
From Stdlib Require Reals Qreals ROrderedType Lra.
From stdpp Require Import gmap strings list.

Open Scope string_scope.
Open Scope Z_scope.

(** ** Python values and control *)

(** The exceptions that the modelled code can raise.  [LoopBudget] is not a
    Python exception: it marks the exhaustion of the iteration budget that the
    embedding gives to the [while] loop of networkx's Dijkstra search, and
    [dijkstra_budget_enough] shows that the search never yields it. *)
Inductive exn : Type :=
  | ZeroDivisionError
  | ValueError
  | KeyError
  | NodeNotFound
  | NetworkXNoPath
  | LoopBudget.

Inductive outcome (A : Type) : Type :=
  | Returned (a : A)
  | Raised (e : exn).
Arguments Returned {A} a.
Arguments Raised {A} e.

#[global] Instance outcome_ret : MRet outcome := fun A a => Returned a.
#[global] Instance outcome_bind : MBind outcome := fun A B f m =>
  match m with
  | Returned a => f a
  | Raised e => Raised e
  end.
#[global] Instance outcome_fmap : FMap outcome := fun A B f m =>
  match m with
  | Returned a => Returned (f a)
  | Raised e => Raised e
  end.

(** [d[k]] on an optional lookup result. *)
Definition subscript {A} (o : option A) : outcome A :=
  match o with
  | Some a => Returned a
  | None => Raised KeyError
  end.

(** A travel duration: an [int] number of hours, or [math.inf]. *)
Inductive hours : Type :=
  | Finite (h : Z)
  | Inf.

(** [a == b] on durations. *)
Definition hours_eqb (a b : hours) : bool :=
  match a, b with
  | Finite x, Finite y => x =? y
  | Inf, Inf => true
  | _, _ => false
  end.

(** [a < b] on durations. *)
Definition hours_ltb (a b : hours) : bool :=
  match a, b with
  | Finite x, Finite y => x <? y
  | Finite _, Inf => true
  | Inf, _ => false
  end.

(** [min(l)]: the first smallest element, [ValueError] on an empty list. *)
Fixpoint min_from (best : hours) (l : list hours) : hours :=
  match l with
  | [] => best
  | x :: l' => min_from (if hours_ltb x best then x else best) l'
  end.

Definition py_min (l : list hours) : outcome hours :=
  match l with
  | [] => Raised ValueError
  | x :: l' => Returned (min_from x l')
  end.

(** [round(d)] of a finite float: nearest integer, ties to the even one. *)
Definition py_round (d : Q) : Z :=
  let f := Qfloor d in
  match Qcompare (d - inject_Z f) (1 # 2) with
  | Lt => f
  | Gt => f + 1
  | Eq => if Z.even f then f else f + 1
  end.

(** [ceil(d / speed)] for two [int]s.  [/] is true division and raises on a
    zero divisor.  The quotient is a float, whose ceiling is the ceiling of
    the exact quotient as long as [0 <= d < 2^52] and [0 < |speed| < 2^52];
    distances on Earth are below 20038 km. *)
Definition ceil_div (d speed : Z) : Z := - ((- d) / speed).

Definition py_ceil_truediv (d speed : Z) : outcome Z :=
  if speed =? 0 then Raised ZeroDivisionError else Returned (ceil_div d speed).

(** [s.upper()], on ASCII text: the letters [a] to [z] change, every other
    byte is kept ([str.upper] also changes letters outside ASCII). *)
Definition ascii_upper (c : ascii) : ascii :=
  let n := nat_of_ascii c in
  if (97 <=? n)%nat && (n <=? 122)%nat then ascii_of_nat (n - 32) else c.

Fixpoint upper (s : string) : string :=
  match s with
  | EmptyString => EmptyString
  | String c s' => String (ascii_upper c) (upper s')
  end.

(** ** Insertion-ordered dictionaries with string keys *)

Definition pydict (V : Type) : Type := list (string * V).

Fixpoint dict_get {V} (k : string) (d : pydict V) : option V :=
  match d with
  | [] => None
  | (k', v) :: d' => if decide (k = k') then Some v else dict_get k d'
  end.

(** [k in d] *)
Definition dict_mem {V} (k : string) (d : pydict V) : bool :=
  match dict_get k d with
  | Some _ => true
  | None => false
  end.

(** [d[k] = v]: a present key keeps its position, a new key goes last. *)
Fixpoint dict_set {V} (k : string) (v : V) (d : pydict V) : pydict V :=
  match d with
  | [] => [(k, v)]
  | (k', v') :: d' =>
      if decide (k = k') then (k', v) :: d' else (k', v') :: dict_set k v d'
  end.

(** [d.values()] *)
Definition dict_values {V} (d : pydict V) : list V := map snd d.

(** ** locations.py *)

Inductive CapitalType : Type :=
  | primary
  | admin
  | minor
  | unspecified.

#[global] Instance CapitalType_eq_dec : EqDecision CapitalType.
Proof. solve_decision. Defined.

(** [CapitalType[capital_type]] when the string names a member of the enum,
    [CapitalType.unspecified] otherwise. *)
Definition CapitalType_of_name (capital_type : string) : CapitalType :=
  if decide (capital_type = "primary") then primary
  else if decide (capital_type = "admin") then admin
  else if decide (capital_type = "minor") then minor
  else unspecified.

(** The address of a [Country] instance. *)
Definition country_ref : Type := nat.

Definition coordinates : Type := (Q * Q)%type.

Record City : Type := {
  city_name : string;
  coordinate : coordinates;
  capital_type : CapitalType;
  country : country_ref;
  city_id : string
}.

Record Country : Type := {
  country_name : string;
  iso3 : string;
  cities : list City
}.

(** The class attributes [Country.countries] and [City.cities], and the
    [Country] instances created so far, by address. *)
Record World : Type := {
  instances : list Country;
  Country_countries : gmap string country_ref;
  City_cities : pydict City
}.

Definition empty_world : World :=
  {| instances := []; Country_countries := ∅; City_cities := [] |}.

(** [Country(name, iso3)]: returns the new instance's address. *)
Definition Country__init__ (name iso3_code : string) (w : World)
  : country_ref * World :=
  let self := length (instances w) in
  (self,
   {| instances :=
        instances w
          ++ [{| country_name := name; iso3 := upper iso3_code; cities := [] |}];
      Country_countries := <[name := self]> (Country_countries w);
      City_cities := City_cities w |}).

(** [Country.countries[name]] *)
Definition countries_subscript (name : string) (w : World) : outcome country_ref :=
  subscript (Country_countries w !! name).

Definition _add_city (city : City) (self : Country) : Country :=
  {| country_name := country_name self;
     iso3 := iso3 self;
     cities := cities self ++ [city] |}.

(** [not capital_types], for the optional list argument. *)
Definition not_capital_types (capital_types : option (list CapitalType)) : bool :=
  match capital_types with
  | None => true
  | Some [] => true
  | Some (_ :: _) => false
  end.

Definition get_cities (self : Country) (capital_types : option (list CapitalType))
  : list City :=
  if not_capital_types capital_types then cities self
  else filter (fun city => capital_type city ∈ default [] capital_types)
         (cities self).

Definition get_city (self : Country) (name : string) : option City :=
  head (filter (fun city => city_name city = name) (cities self)).

(** The two library functions of the program that work on floats: the
    builtin [float] on a string ([None] when it raises [ValueError]) and
    geopy's [great_circle(a, b).kilometers]. *)
Class FloatLib : Type := {
  py_float : string -> option Q;
  great_circle_km : coordinates -> coordinates -> Q
}.

Section WithFloatLib.
Context {lib : FloatLib}.

Definition float_of (s : string) : outcome Q :=
  match py_float s with
  | Some q => Returned q
  | None => Raised ValueError
  end.

(** [City(name, latitude, longitude, country, capital_type, city_id)] *)
Definition City__init__ (name latitude longitude country_arg capital city_id_arg : string)
    (w : World) : outcome (City * World) :=
  lat ← float_of latitude;
  lng ← float_of longitude;
  c ← countries_subscript country_arg w;
  let self :=
    {| city_name := name;
       coordinate := (lat, lng);
       capital_type := CapitalType_of_name capital;
       country := c;
       city_id := city_id_arg |} in
  mret (self,
        {| instances := alter (_add_city self) c (instances w);
           Country_countries := Country_countries w;
           City_cities := dict_set city_id_arg self (City_cities w) |}).

(** [self.distance(other_city)].  The embedding gives the call a value for
    all coordinates; with geopy it raises [ValueError] for a latitude outside
    [-90, 90], so what is proved of a call of [distance] is proved of the
    calls that return. *)
Definition distance (self other_city : City) : Z :=
  py_round (great_circle_km (coordinate self) (coordinate other_city)).

End WithFloatLib.

(** ** vehicles.py *)

(** The three concrete subclasses of the abstract class [Vehicle], each with its
    attributes. *)
Inductive Vehicle : Type :=
  | CrappyCrepeCar (speed : Z)
  | DiplomacyDonutDinghy (in_country_speed between_primary_speed : Z)
  | TeleportingTarteTrolley (travel_time max_distance : Z).

(** The three [__init__] methods only store their arguments. *)
Definition CrappyCrepeCar__init__ (speed : Z) : outcome Vehicle :=
  Returned (CrappyCrepeCar speed).

Definition DiplomacyDonutDinghy__init__ (in_country_speed between_primary_speed : Z)
  : outcome Vehicle :=
  Returned (DiplomacyDonutDinghy in_country_speed between_primary_speed).

Definition TeleportingTarteTrolley__init__ (travel_time max_distance : Z)
  : outcome Vehicle :=
  Returned (TeleportingTarteTrolley travel_time max_distance).

Section Vehicles.
Context {lib : FloatLib}.

Definition compute_travel_time (self : Vehicle) (departure arrival : City)
  : outcome hours :=
  match self with
  | CrappyCrepeCar speed =>
      let d := distance departure arrival in
      Finite <$> py_ceil_truediv d speed
  | DiplomacyDonutDinghy in_country_speed between_primary_speed =>
      let in_country := bool_decide (country departure = country arrival) in
      if negb in_country
         && (bool_decide (capital_type departure <> primary)
             || bool_decide (capital_type arrival <> primary))
      then Returned Inf
      else
        let d := distance departure arrival in
        Finite <$> py_ceil_truediv d
          (if in_country then in_country_speed else between_primary_speed)
  | TeleportingTarteTrolley travel_time max_distance =>
      let d := distance departure arrival in
      if max_distance <=? d then Returned Inf
      else Returned (Finite travel_time)
  end.

End Vehicles.

(** ** trip.py *)

Record Trip : Type := { sequence : list City }.

Definition Trip__init__ (departure : City) : Trip :=
  {| sequence := [departure] |}.

Definition add_next_city (city : City) (self : Trip) : Trip :=
  {| sequence := sequence self ++ [city] |}.

(** The [for i in range(len(vehicles))] loop of [find_fastest_vehicle]; [None]
    stands for the implicit [return None] after the loop. *)
Fixpoint first_at_minimum (vehicles : list Vehicle) (travel_times : list hours)
    (minimum : hours) : option (Vehicle * hours) :=
  match vehicles, travel_times with
  | v :: vehicles', t :: travel_times' =>
      if hours_eqb t minimum then Some (v, minimum)
      else first_at_minimum vehicles' travel_times' minimum
  | _, _ => None
  end.

Section Trips.
Context {lib : FloatLib}.

(** The loop of [total_travel_time] from position [i] on, [seq] being
    [self.sequence[i:]] and [total_time] the running sum. *)
Fixpoint total_travel_time_from (vehicle : Vehicle) (seq : list City)
    (total_time : Z) : outcome hours :=
  match seq with
  | source :: ((destination :: _) as seq') =>
      time ← compute_travel_time vehicle source destination;
      match time with
      | Inf => Returned Inf
      | Finite t => total_travel_time_from vehicle seq' (total_time + t)
      end
  | _ => Returned (Finite total_time)
  end.

Definition total_travel_time (self : Trip) (vehicle : Vehicle) : outcome hours :=
  total_travel_time_from vehicle (sequence self) 0.

Definition find_fastest_vehicle (self : Trip) (vehicles : list Vehicle)
  : outcome (option (Vehicle * hours)) :=
  travel_times ← mapM (total_travel_time self) vehicles;
  minimum ← py_min travel_times;
  mret (first_at_minimum vehicles travel_times minimum).

End Trips.

(** ** networkx: [Graph] and [dijkstra_path]

    The part of networkx 3 that [path_finding.py] calls.  The only edge
    attribute is [weight], and [plot_graph_for_vehicle] stores the value of a
    comparison there, so an edge carries a [bool]. *)

(** [Graph._adj]: for each node, its neighbours with the edge's weight, both in
    insertion order. *)
Definition Graph : Type := pydict (pydict bool).

Definition add_node (n : string) (G : Graph) : Graph :=
  if dict_mem n G then G else dict_set n [] G.

(** [self._adj[u][v] = datadict] *)
Definition adj_set (u v : string) (weight : bool) (G : Graph) : Graph :=
  match dict_get u G with
  | Some nbrs => dict_set u (dict_set v weight nbrs) G
  | None => G
  end.

Definition add_edge (u v : string) (weight : bool) (G : Graph) : Graph :=
  let G := add_node u G in
  let G := add_node v G in
  let G := adj_set u v weight G in
  adj_set v u weight G.

(** An entry [(distance, c, node)] of the fringe; [c] counts the pushes, so two
    entries never compare equal and the nodes are never compared. *)
Definition entry : Type := (Z * nat * string)%type.

Definition entry_ltb (a b : entry) : bool :=
  let '(da, ca, _) := a in
  let '(db, cb, _) := b in
  (da <? db) || ((da =? db) && (ca <? cb)%nat).

(** The heap of [heapq] as the sorted sequence of its entries: [heappop]
    takes the head. *)
Fixpoint heappush (e : entry) (fringe : list entry) : list entry :=
  match fringe with
  | [] => [e]
  | x :: fringe' =>
      if entry_ltb e x then e :: fringe else x :: heappush e fringe'
  end.

(** The local variables of [_dijkstra_multisource]. *)
Record search : Type := {
  dist : pydict Z;
  seen : pydict Z;
  paths : pydict (list string);
  fringe : list entry;
  c : nat
}.

(** [for u, e in G_succ[v].items(): ...], with [d = dist[v]], no cutoff and no
    [pred]; [e.get("weight", 1)] is the stored [bool], 0 or 1 in the sum. *)
Fixpoint relax (v : string) (d : Z) (items : pydict bool) (s : search)
  : outcome search :=
  match items with
  | [] => Returned s
  | (u, e) :: items' =>
      let cost := Z.b2z e in
      let vu_dist := d + cost in
      match dict_get u (dist s) with
      | Some u_dist =>
          if vu_dist <? u_dist then Raised ValueError else relax v d items' s
      | None =>
          if match dict_get u (seen s) with
             | None => true
             | Some seen_u => vu_dist <? seen_u
             end
          then
            paths_v ← subscript (dict_get v (paths s));
            relax v d items'
              {| dist := dist s;
                 seen := dict_set u vu_dist (seen s);
                 paths := dict_set u (paths_v ++ [u])%list (paths s);
                 fringe := heappush (vu_dist, c s, u) (fringe s);
                 c := S (c s) |}
          else relax v d items' s
      end
  end.

(** [while fringe: ...] *)
Fixpoint dijkstra_loop (budget : nat) (G : Graph) (target : string) (s : search)
  : outcome search :=
  match fringe s with
  | [] => Returned s
  | (d, _, v) :: fringe' =>
      match budget with
      | O => Raised LoopBudget
      | S budget' =>
          let s := {| dist := dist s; seen := seen s; paths := paths s;
                      fringe := fringe'; c := c s |} in
          if dict_mem v (dist s) then dijkstra_loop budget' G target s
          else
            let s := {| dist := dict_set v d (dist s); seen := seen s;
                        paths := paths s; fringe := fringe s; c := c s |} in
            if decide (v = target) then Returned s
            else
              items ← subscript (dict_get v G);
              s ← relax v d items s;
              dijkstra_loop budget' G target s
      end
  end.

(** Every iteration pops one entry, and only the first pop of a node pushes,
    at most one entry per neighbour. *)
Definition dijkstra_budget (G : Graph) : nat :=
  S (S (list_sum (map (fun item => S (length (snd item))) G))).

(** [dijkstra_path(G, source, target)], through [single_source_dijkstra] and
    [multi_source_dijkstra]. *)
Definition dijkstra_path (G : Graph) (source target : string)
  : outcome (list string) :=
  if negb (dict_mem source G) then Raised NodeNotFound
  else if decide (target = source) then Returned [target]
  else
    s ← dijkstra_loop (dijkstra_budget G) G target
          {| dist := []; seen := [(source, 0)]; paths := [(source, [source])];
             fringe := [(0, O, source)]; c := 1%nat |};
    match dict_get target (dist s), dict_get target (paths s) with
    | Some _, Some path => Returned path
    | _, _ => Raised NetworkXNoPath
    end.

(** ** path_finding.py *)

Section PathFinding.
Context {lib : FloatLib}.

(** [for j in range(i + 1, n): ...] for one [source = cities[i]]; [later] is
    [cities[i+1:]].  The walrus binds [weight] to the value of the comparison
    [vehicle.compute_travel_time(source, destination) == inf]. *)
Fixpoint plot_edges_from (vehicle : Vehicle) (source : City) (later : list City)
    (graph : Graph) : outcome Graph :=
  match later with
  | [] => Returned graph
  | destination :: later' =>
      time ← compute_travel_time vehicle source destination;
      let weight := hours_eqb time Inf in
      if weight then plot_edges_from vehicle source later' graph
      else
        plot_edges_from vehicle source later'
          (add_edge (city_id source) (city_id destination) weight graph)
  end.

(** [for i in range(n - 1): ...] *)
Fixpoint plot_edges (vehicle : Vehicle) (cities_from_i : list City) (graph : Graph)
  : outcome Graph :=
  match cities_from_i with
  | [] => Returned graph
  | source :: later =>
      graph ← plot_edges_from vehicle source later graph;
      plot_edges vehicle later graph
  end.

Definition plot_graph_for_vehicle (vehicle : Vehicle) (w : World) : outcome Graph :=
  let all_cities := dict_values (City_cities w) in
  let graph := foldl (fun graph city => add_node (city_id city) graph) [] all_cities in
  plot_edges vehicle all_cities graph.

(** [for city_id in path[1:]: trip.add_next_city(City.cities[city_id])] *)
Fixpoint add_path (path : list string) (w : World) (trip : Trip) : outcome Trip :=
  match path with
  | [] => Returned trip
  | id :: path' =>
      city ← subscript (dict_get id (City_cities w));
      add_path path' w (add_next_city city trip)
  end.

(** [None] is the "no path" result. *)
Definition find_shortest_path (vehicle : Vehicle) (from_city to_city : City)
    (w : World) : outcome (option Trip) :=
  graph ← plot_graph_for_vehicle vehicle w;
  match dijkstra_path graph (city_id from_city) (city_id to_city) with
  | Returned path => Some <$> add_path (tail path) w (Trip__init__ from_city)
  | Raised NetworkXNoPath => Returned None
  | Raised e => Raised e
  end.

End PathFinding.

(** ** Example data

    [create_example_countries_and_cities] of [locations.py], the example trips
    of [trip.py], and a second registry with a country that has two primary
    capitals.  The floats of the examples are plain decimal literals. *)

Fixpoint digits_value (acc : Z) (s : string) : option Z :=
  match s with
  | EmptyString => Some acc
  | String ch s' =>
      let n := Z.of_nat (nat_of_ascii ch) in
      if (48 <=? n) && (n <=? 57) then digits_value (10 * acc + (n - 48)) s'
      else None
  end.

Fixpoint split_at_dot (s : string) : string * string :=
  match s with
  | EmptyString => (EmptyString, EmptyString)
  | String ch s' =>
      if decide (ch = "."%char) then (EmptyString, s')
      else let '(a, b) := split_at_dot s' in (String ch a, b)
  end.

(** The value of a literal [digits.digits] with an optional minus sign. *)
Definition decimal_value (s : string) : option Q :=
  let '(negative, body) :=
    match s with
    | String "-"%char s' => (true, s')
    | _ => (false, s)
    end in
  let '(int_part, frac_part) := split_at_dot body in
  match int_part with
  | EmptyString => None
  | _ =>
      n ← digits_value 0 (int_part ++ frac_part);
      let q := Qmake n (Z.to_pos (10 ^ Z.of_nat (String.length frac_part))) in
      Some (if negative then Qopp q else q)
  end.

(** Kilometres between the example coordinates, as geopy's spherical formula
    with the mean earth radius 6371.009 km gives them, to three decimals. *)
Definition example_kilometres : list (coordinates * coordinates * Q) :=
  [ ((-37.8136, 144.9631), (-35.2931, 149.1269), 465.614);
    ((-37.8136, 144.9631), (-33.865, 151.2094), 713.706);
    ((-37.8136, 144.9631), (35.6839, 139.7744), 8190.026);
    ((-35.2931, 149.1269), (-33.865, 151.2094), 248.114);
    ((-35.2931, 149.1269), (35.6839, 139.7744), 7951.588);
    ((-33.865, 151.2094), (35.6839, 139.7744), 7824.288);
    ((-25.7464, 28.1881), (-33.925, 18.425), 1307.803);
    ((-25.7464, 28.1881), (-24.6569, 25.9086), 259.366);
    ((-33.925, 18.425), (-24.6569, 25.9086), 1259.509) ]%Q.

Definition same_coordinates (a b : coordinates) : bool :=
  Qeq_bool (fst a) (fst b) && Qeq_bool (snd a) (snd b).

Fixpoint table_kilometres (table : list (coordinates * coordinates * Q))
    (a b : coordinates) : Q :=
  match table with
  | [] => 0%Q
  | (x, y, km) :: table' =>
      if (same_coordinates a x && same_coordinates b y)
         || (same_coordinates a y && same_coordinates b x)
      then km
      else table_kilometres table' a b
  end.

Definition example_lib : FloatLib :=
  {| py_float := decimal_value;
     great_circle_km := table_kilometres example_kilometres |}.

Section Examples.
Context {lib : FloatLib}.

(** [create_example_countries_and_cities()] *)
Definition create_example_countries_and_cities (w : World) : outcome World :=
  let '(_, w) := Country__init__ "Australia" "AUS" w in
  '(_, w) ← City__init__ "Melbourne" "-37.8136" "144.9631" "Australia" "admin" "1036533631" w;
  '(_, w) ← City__init__ "Canberra" "-35.2931" "149.1269" "Australia" "primary" "1036142029" w;
  '(_, w) ← City__init__ "Sydney" "-33.865" "151.2094" "Australia" "admin" "1036074917" w;
  let '(_, w) := Country__init__ "Japan" "JPN" w in
  '(_, w) ← City__init__ "Tokyo" "35.6839" "139.7744" "Japan" "primary" "1392685764" w;
  mret w.

(** [Country.countries[country_name].get_city(city_name)]; a missing city is
    [None] in Python and an error here. *)
Definition city_of (country_arg name : string) (w : World) : outcome City :=
  c ← countries_subscript country_arg w;
  self ← subscript (instances w !! c);
  subscript (get_city self name).

(** A registry in which South Africa has two primary capitals. *)
Definition create_southern_africa (w : World) : outcome World :=
  let '(_, w) := Country__init__ "South Africa" "ZAF" w in
  '(_, w) ← City__init__ "Pretoria" "-25.7464" "28.1881" "South Africa" "primary" "1" w;
  '(_, w) ← City__init__ "Cape Town" "-33.925" "18.425" "South Africa" "primary" "2" w;
  let '(_, w) := Country__init__ "Botswana" "BWA" w in
  '(_, w) ← City__init__ "Gaborone" "-24.6569" "25.9086" "Botswana" "primary" "3" w;
  mret w.

End Examples.

(** The cities that the two functions above create. *)
Definition melbourne : City :=
  {| city_name := "Melbourne"; coordinate := (-37.8136, 144.9631)%Q;
     capital_type := admin; country := 0%nat; city_id := "1036533631" |}.
Definition canberra : City :=
  {| city_name := "Canberra"; coordinate := (-35.2931, 149.1269)%Q;
     capital_type := primary; country := 0%nat; city_id := "1036142029" |}.
Definition sydney : City :=
  {| city_name := "Sydney"; coordinate := (-33.865, 151.2094)%Q;
     capital_type := admin; country := 0%nat; city_id := "1036074917" |}.
Definition tokyo : City :=
  {| city_name := "Tokyo"; coordinate := (35.6839, 139.7744)%Q;
     capital_type := primary; country := 1%nat; city_id := "1392685764" |}.

Definition example_world : World :=
  {| instances :=
       [ {| country_name := "Australia"; iso3 := "AUS";
            cities := [melbourne; canberra; sydney] |};
         {| country_name := "Japan"; iso3 := "JPN"; cities := [tokyo] |} ];
     Country_countries := <["Japan" := 1%nat]> (<["Australia" := 0%nat]> ∅);
     City_cities :=
       [ ("1036533631", melbourne); ("1036142029", canberra);
         ("1036074917", sydney); ("1392685764", tokyo) ] |}.

Definition pretoria : City :=
  {| city_name := "Pretoria"; coordinate := (-25.7464, 28.1881)%Q;
     capital_type := primary; country := 0%nat; city_id := "1" |}.
Definition cape_town : City :=
  {| city_name := "Cape Town"; coordinate := (-33.925, 18.425)%Q;
     capital_type := primary; country := 0%nat; city_id := "2" |}.
Definition gaborone : City :=
  {| city_name := "Gaborone"; coordinate := (-24.6569, 25.9086)%Q;
     capital_type := primary; country := 1%nat; city_id := "3" |}.

Definition southern_africa : World :=
  {| instances :=
       [ {| country_name := "South Africa"; iso3 := "ZAF";
            cities := [pretoria; cape_town] |};
         {| country_name := "Botswana"; iso3 := "BWA"; cities := [gaborone] |} ];
     Country_countries := <["Botswana" := 1%nat]> (<["South Africa" := 0%nat]> ∅);
     City_cities := [ ("1", pretoria); ("2", cape_town); ("3", gaborone) ] |}.

(** The fourth trip of [create_example_trips]. *)
Definition canberra_melbourne_tokyo : Trip :=
  add_next_city tokyo (add_next_city melbourne (Trip__init__ canberra)).

(** ** Notions used in the statements *)

(** A call that raises. *)
Definition raises {A} (o : outcome A) : Prop := exists e, o = Raised e.

(** The legs of a trip: its consecutive pairs of cities. *)
Definition legs (seq : list City) : list (City * City) := zip seq (tail seq).

(** The speeds of the vehicle, by which [compute_travel_time] divides, are not
    zero. *)
Definition speeds_nonzero (vehicle : Vehicle) : Prop :=
  match vehicle with
  | CrappyCrepeCar speed => speed <> 0
  | DiplomacyDonutDinghy in_country_speed between_primary_speed =>
      in_country_speed <> 0 /\ between_primary_speed <> 0
  | TeleportingTarteTrolley _ _ => True
  end.

(** The entries that the search may still push: one per neighbour of each node
    that has no final distance yet, and one more for each such node. *)
Definition pending (G : Graph) (dist_now : pydict Z) : nat :=
  list_sum (map (fun item : string * pydict bool =>
                   if dict_mem item.1 dist_now then O else S (length item.2)) G).

(** Every edge of the graph carries the weight [False]. *)
Definition all_weights_false (G : Graph) : Prop :=
  Forall (fun node : string * pydict bool =>
            Forall (fun edge : string * bool => edge.2 = false) node.2) G.

(** [CapitalType.__str__]: the value of the member. *)
Definition CapitalType__str__ (self : CapitalType) : string :=
  match self with
  | primary => "primary"
  | admin => "admin"
  | minor => "minor"
  | unspecified => ""
  end.

(** The registries are consistent: a registered name leads to an instance of
    that name; [City.cities] has one entry per identifier, each city being
    filed under its own identifier and listed by the instance it refers to;
    and the cities that an instance lists refer to that instance. *)
Definition registry_ok (w : World) : Prop :=
  (forall name r,
     Country_countries w !! name = Some r ->
     exists C, instances w !! r = Some C /\ country_name C = name)
  /\ NoDup (map fst (City_cities w))
  /\ (forall id c,
        (id, c) ∈ City_cities w ->
        city_id c = id
        /\ exists C, instances w !! country c = Some C /\ c ∈ cities C)
  /\ (forall r C c,
        instances w !! r = Some C -> c ∈ cities C -> country c = r).

(** [y] is a neighbour of [x] in the graph. *)
Definition edge (G : Graph) (x y : string) : Prop :=
  exists nbrs, dict_get x G = Some nbrs /\ y ∈ map fst nbrs.

(** The list of nodes [p] leads from [a] to the node [b] along edges. *)
Inductive walk (G : Graph) (a : string) : string -> list string -> Prop :=
  | walk_start : walk G a a [a]
  | walk_step (b c : string) (p : list string) :
      walk G a b p -> edge G b c -> walk G a c (p ++ [c])%list.

Section Routes.
Context {lib : FloatLib}.

(** The vehicle can travel directly from [a] to [b]. *)
Definition possible (vehicle : Vehicle) (a b : City) : Prop :=
  exists t, compute_travel_time vehicle a b = Returned (Finite t).

(** A leg that is possible in one direction is possible in the other. *)
Definition possible_both_ways (vehicle : Vehicle) : Prop :=
  forall a b, possible vehicle a b -> possible vehicle b a.

(** A possible leg between two registered cities. *)
Definition linked (vehicle : Vehicle) (w : World) (a b : City) : Prop :=
  a ∈ dict_values (City_cities w)
  /\ b ∈ dict_values (City_cities w)
  /\ possible vehicle a b.

End Routes.

(** The graph carries only [False] weights and the neighbours of its nodes
    are nodes. *)
Definition graph_ok (G : Graph) : Prop :=
  all_weights_false G /\ forall x y, edge G x y -> y ∈ map fst G.

(** What the search keeps true of its variables at every iteration, on such a
    graph: all the distances are 0; the nodes of the fringe and those with a
    final distance have been seen; a node that has been seen has a final
    distance or is in the fringe, is a node of the graph and has a path; the
    recorded paths lead from the source to their node along edges. *)
Definition search_inv (G : Graph) (source : string) (s : search) : Prop :=
  Forall (fun item : string * Z => item.2 = 0) (dist s)
  /\ Forall (fun item : string * Z => item.2 = 0) (seen s)
  /\ Forall (fun e : entry => e.1.1 = 0) (fringe s)
  /\ (forall x, x ∈ map snd (fringe s) -> x ∈ map fst (seen s))
  /\ (forall x, x ∈ map fst (dist s) -> x ∈ map fst (seen s))
  /\ (forall x, x ∈ map fst (seen s) ->
        x ∈ map fst (dist s) \/ x ∈ map snd (fringe s))
  /\ (forall x, x ∈ map fst (seen s) ->
        x ∈ map fst G /\ x ∈ map fst (paths s))
  /\ (forall x p, dict_get x (paths s) = Some p -> walk G source x p)
  /\ source ∈ map fst (seen s).

(** The neighbours of the nodes with a final distance have been seen. *)
Definition closed (G : Graph) (s : search) : Prop :=
  forall x y, x ∈ map fst (dist s) -> edge G x y -> y ∈ map fst (seen s).

(** ** city_country_csv_reader.py

    Text is the sequence of the bytes of its UTF-8 encoding; the quote and an
    ASCII delimiter are single bytes that occur in no other character. *)

(** The character of the double quote. *)
Definition quote : ascii := ascii_of_nat 34.

Definition is_quote (char : ascii) : bool := Ascii.eqb char quote.

(** [char == deliminater], a character against the delimiter string. *)
Definition is_deliminater (deliminater : string) (char : ascii) : bool :=
  String.eqb (String char EmptyString) deliminater.

(** [not s] for a string. *)
Definition is_empty (s : string) : bool :=
  match s with
  | EmptyString => true
  | String _ _ => false
  end.

(** [cell_item += char] *)
Definition add_char (cell_item : string) (char : ascii) : string :=
  (cell_item ++ String char EmptyString)%string.

(** The [while] loop of [parse_row] at position [i], [rest] being
    [raw_row[i:]]: the three branches that look one, two and three characters
    ahead continue with [raw_row[i+1:]], [raw_row[i+2:]] or [raw_row[i+3:]]. *)
Fixpoint parse_row_from (deliminater rest : string) (in_quote : bool)
    (cell_item : string) (cells : list string) {struct rest} : list string :=
  match rest with
  | EmptyString =>
      if is_empty cell_item then cells else (cells ++ [cell_item])%list
  | String char rest1 =>
      let one_ahead :=
        if is_quote char && is_empty cell_item then
          parse_row_from deliminater rest1 true cell_item cells
        else if in_quote && is_quote char && is_empty rest1 then
          parse_row_from deliminater rest1 false EmptyString
            (cells ++ [cell_item])%list
        else if negb in_quote && is_deliminater deliminater char then
          parse_row_from deliminater rest1 in_quote EmptyString
            (cells ++ [cell_item])%list
        else
          parse_row_from deliminater rest1 in_quote (add_char cell_item char)
            cells in
      let two_ahead :=
        match rest1 with
        | EmptyString => one_ahead
        | String next_char rest2 =>
            if is_quote char && is_quote next_char then
              parse_row_from deliminater rest2 in_quote
                (add_char cell_item quote) cells
            else if in_quote && is_quote char
                    && is_deliminater deliminater next_char then
              parse_row_from deliminater rest2 false EmptyString
                (cells ++ [cell_item])%list
            else one_ahead
        end in
      match rest1 with
      | String char2 (String char3 rest3) =>
          if is_empty cell_item
             && (is_quote char && is_quote char2 && is_quote char3) then
            parse_row_from deliminater rest3 true (add_char cell_item quote)
              cells
          else two_ahead
      | _ => two_ahead
      end
  end.

Definition parse_row (raw_row deliminater : string) : list string :=
  parse_row_from deliminater raw_row false EmptyString [].

(** [deliminater.join(cells)] *)
Fixpoint join (deliminater : string) (cells : list string) : string :=
  match cells with
  | [] => EmptyString
  | [cell] => cell
  | cell :: cells' => (cell ++ deliminater ++ join deliminater cells')%string
  end.

(** The character does not occur in the string. *)
Fixpoint free_of (char : ascii) (s : string) : Prop :=
  match s with
  | EmptyString => True
  | String c s' => c <> char /\ free_of char s'
  end.

(** [s.splitlines()]: the lines of a text, without their ends.  A line ends at
    a line feed, a carriage return with or without a line feed after it, a
    vertical tab, a form feed, a file, group or record separator, or at the
    characters U+0085, U+2028 and U+2029, which are the bytes C2 85, E2 80 A8
    and E2 80 A9; [line] is the line read so far. *)
Fixpoint splitlines_from (s line : string) {struct s} : list string :=
  match s with
  | EmptyString => if is_empty line then [] else [line]
  | String char s1 =>
      let n := nat_of_ascii char in
      let within := splitlines_from s1 (add_char line char) in
      if (n =? 13)%nat then
        match s1 with
        | String char2 s2 =>
            if (nat_of_ascii char2 =? 10)%nat then line :: splitlines_from s2 EmptyString
            else line :: splitlines_from s1 EmptyString
        | EmptyString => line :: splitlines_from s1 EmptyString
        end
      else if (n =? 10)%nat || (n =? 11)%nat || (n =? 12)%nat
              || (n =? 28)%nat || (n =? 29)%nat || (n =? 30)%nat then
        line :: splitlines_from s1 EmptyString
      else if (n =? 194)%nat then
        match s1 with
        | String char2 s2 =>
            if (nat_of_ascii char2 =? 133)%nat then
              line :: splitlines_from s2 EmptyString
            else within
        | EmptyString => within
        end
      else if (n =? 226)%nat then
        match s1 with
        | String char2 (String char3 s3) =>
            if (nat_of_ascii char2 =? 128)%nat
               && ((nat_of_ascii char3 =? 168)%nat
                   || (nat_of_ascii char3 =? 169)%nat) then
              line :: splitlines_from s3 EmptyString
            else within
        | _ => within
        end
      else within
  end.

Definition splitlines (s : string) : list string :=
  splitlines_from s EmptyString.

(** What a function of the reader does: it returns, it raises one of the
    exceptions of [exn], or it raises [IndexError]. *)
Inductive reader_result (A : Type) : Type :=
  | Done (a : A)
  | Failed (e : exn)
  | FailedIndexError.
Arguments Done {A} a.
Arguments Failed {A} e.
Arguments FailedIndexError {A}.

(** The dict that [parse_raw_csv] returns: [{}], or the column names and the
    records. *)
Inductive csv_data : Type :=
  | EmptyDict
  | Table (column_names : list string) (records : list (pydict string)).

(** [for i in range(len(row)): record[column_names[i]] = row[i]], [None]
    being the [IndexError] of [column_names[i]]. *)
Fixpoint make_record (column_names row : list string) (record : pydict string)
  : option (pydict string) :=
  match row with
  | [] => Some record
  | cell :: row' =>
      match column_names with
      | [] => None
      | column :: column_names' =>
          make_record column_names' row' (dict_set column cell record)
      end
  end.

(** [for row in data_cells: ...] *)
Fixpoint make_records (column_names : list string) (data_cells : list (list string))
  : option (list (pydict string)) :=
  match data_cells with
  | [] => Some []
  | row :: data_cells' =>
      match make_record column_names row [] with
      | None => None
      | Some record =>
          match make_records column_names data_cells' with
          | None => None
          | Some records => Some (record :: records)
          end
      end
  end.

Definition parse_raw_csv (raw_csv : string) : reader_result csv_data :=
  match splitlines raw_csv with
  | [] => Done EmptyDict
  | first_row :: data_rows =>
      let column_names := parse_row first_row "," in
      let data_cells := map (fun data_row => parse_row data_row ",") data_rows in
      match make_records column_names data_cells with
      | None => FailedIndexError
      | Some records => Done (Table column_names records)
      end
  end.

Section Reader.
Context {lib : FloatLib}.

(** The body of the loop of [create_cities_countries_from_CSV], for one
    record. *)
Definition register_record (record : pydict string) (w : World) : outcome World :=
  country_arg ← subscript (dict_get "country" record);
  w ← (if bool_decide (is_Some (Country_countries w !! country_arg))
        then Returned w
        else
          iso3_code ← subscript (dict_get "iso3" record);
          Returned (Country__init__ country_arg iso3_code w).2);
  city_ascii ← subscript (dict_get "city_ascii" record);
  lat ← subscript (dict_get "lat" record);
  lng ← subscript (dict_get "lng" record);
  country_arg ← subscript (dict_get "country" record);
  capital ← subscript (dict_get "capital" record);
  id ← subscript (dict_get "id" record);
  '(_, w) ← City__init__ city_ascii lat lng country_arg capital id w;
  mret w.

Fixpoint register_records (records : list (pydict string)) (w : World)
  : outcome World :=
  match records with
  | [] => Returned w
  | record :: records' =>
      w ← register_record record w;
      register_records records' w
  end.

(** [create_cities_countries_from_CSV(path_to_csv)], [raw] being the text of
    the file. *)
Definition create_cities_countries_from_CSV (raw : string) (w : World)
  : reader_result World :=
  match parse_raw_csv raw with
  | FailedIndexError => FailedIndexError
  | Failed e => Failed e
  | Done EmptyDict => Failed KeyError
  | Done (Table _ records) =>
      match register_records records w with
      | Returned w' => Done w'
      | Raised e => Failed e
      end
  end.

End Reader.

(** Every instance is the one that [Country.countries] holds for its name. *)
Definition one_instance_per_name (w : World) : Prop :=
  forall r C,
    instances w !! r = Some C ->
    Country_countries w !! country_name C = Some r.

(** A file with two cities of one country, the second without a capital
    type, and a file whose second line has a cell too many. *)
Definition line_feed : string := String (ascii_of_nat 10) EmptyString.

Definition example_csv : string :=
  ("city_ascii,lat,lng,country,iso3,capital,id" ++ line_feed
   ++ "Tokyo,35.6897,139.6922,Japan,JPN,primary,1392685764" ++ line_feed
   ++ "Kyoto,35.0117,135.7683,Japan,JPN,,1392622735")%string.

Definition example_csv_long_row : string :=
  ("city_ascii,id" ++ line_feed ++ "Tokyo,1392685764,Japan")%string.

(** The registries after reading [example_csv] into empty ones. *)
Definition example_csv_world : World :=
  Eval vm_compute in
    match @create_cities_countries_from_CSV example_lib example_csv empty_world with
    | Done w => w
    | _ => empty_world
    end.

(** ** user_interface_base.py and onboard_navigation.py: entering a vehicle

    The interfaces read the keyboard with [input]: the user types a line, or
    presses Ctrl-C, which raises [KeyboardInterrupt] there.  What they print,
    and the attribute [input_err] that only holds a message to print, are left
    out. *)
Inductive keyboard : Type :=
  | Typed (raw : string)
  | CtrlC.

(** What a call that reads the keyboard does: it returns a value and leaves
    the keys that it has not read, or [input] raises [EOFError] at the end of
    the input, or the call raises an exception of [exn] or [IndexError].
    [OutOfSteps] is not a Python outcome: it marks the exhaustion of the
    number of iterations that the embedding gives to a [while True] loop. *)
Inductive ui_result (A : Type) : Type :=
  | Answer (a : A) (rest : list keyboard)
  | EOFError
  | Crashed (e : exn)
  | CrashedIndexError
  | OutOfSteps.
Arguments Answer {A} a rest.
Arguments EOFError {A}.
Arguments Crashed {A} e.
Arguments CrashedIndexError {A}.
Arguments OutOfSteps {A}.

(** The builtin [int] on a string, [None] when it raises [ValueError]. *)
Class IntLib : Type := { py_int : string -> option Z }.

(** [l[i]] on a list, [None] being [IndexError]. *)
Definition list_subscript {A} (l : list A) (i : Z) : option A :=
  if 0 <=? i then l !! Z.to_nat i
  else if - Z.of_nat (length l) <=? i then l !! Z.to_nat (Z.of_nat (length l) + i)
  else None.

Section VehicleInput.
Context {ints : IntLib}.

(** [AddVehicleAttributeMenu.validate_positive_integer(raw)] *)
Definition validate_positive_integer (raw : string) : bool * string :=
  match py_int raw with
  | Some n =>
      if 0 <? n then (true, "")
      else (false, "Please enter a non-zero positive integer.")
  | None => (false, "Please enter an integer")
  end.

(** [ValueInputBox.wait_for_interact()], which [ValueInputBox.execute]
    returns: [None] is the [None] of a cancelled input. *)
Fixpoint ValueInputBox_wait_for_interact
    (validator : option (string -> bool * string)) (allow_undo : bool)
    (keys : list keyboard) : ui_result (option string) :=
  match keys with
  | [] => EOFError
  | Typed raw :: keys' =>
      match validator with
      | Some validate =>
          let '(valid, err_msg) := validate raw in
          if valid then Answer (Some raw) keys'
          else ValueInputBox_wait_for_interact validator allow_undo keys'
      | None => Answer (Some raw) keys'
      end
  | CtrlC :: keys' =>
      if allow_undo then Answer None keys'
      else ValueInputBox_wait_for_interact validator allow_undo keys'
  end.

(** [ProgressedMenuUserInterface.wait_for_interact()], [options] being the
    keys of [self.options]. *)
Fixpoint ProgressedMenu_wait_for_interact (options : list Z) (allow_undo : bool)
    (keys : list keyboard) : ui_result (option Z) :=
  match keys with
  | [] => EOFError
  | Typed raw :: keys' =>
      match py_int raw with
      | Some val =>
          if bool_decide (val ∈ options) then Answer (Some val) keys'
          else ProgressedMenu_wait_for_interact options allow_undo keys'
      | None => ProgressedMenu_wait_for_interact options allow_undo keys'
      end
  | CtrlC :: keys' =>
      if allow_undo then Answer None keys'
      else ProgressedMenu_wait_for_interact options allow_undo keys'
  end.

(** [MessageBox.wait_for_interact()] of a box with a single option. *)
Definition MessageBox_wait_for_interact (keys : list keyboard)
  : ui_result (option Z) :=
  match keys with
  | [] => EOFError
  | Typed _ :: keys' => Answer (Some 1) keys'
  | CtrlC :: keys' => Answer None keys'
  end.

(** The class attributes [vehicle_parameters] and [options] of
    [AddVehicleAttributeMenu], the second with its keys only. *)
Definition vehicle_parameters : pydict (list string) :=
  [ ("CrappyCrepeCar", ["speed"]);
    ("DiplomacyDonutDinghy", ["speed_internal"; "speed_external"]);
    ("TeleportingTarteTrolley", ["timeout"; "distance_limit"]) ].

Definition AddVehicleAttributeMenu_options : pydict (list Z) :=
  [ ("CrappyCrepeCar", [1]);
    ("DiplomacyDonutDinghy", [1; 2]);
    ("TeleportingTarteTrolley", [1; 2]) ].

Record AddVehicleAttributeMenu : Type := {
  vehicle_type : string;
  menu_options : list Z
}.

(** [AddVehicleAttributeMenu(vehicle_type)] *)
Definition AddVehicleAttributeMenu__init__ (vehicle_type : string)
  : outcome AddVehicleAttributeMenu :=
  options ← subscript (dict_get vehicle_type AddVehicleAttributeMenu_options);
  let options := (options ++ [Z.of_nat (length options) + 1])%list in
  let options := (options ++ [Z.of_nat (length options) + 1])%list in
  Returned {| vehicle_type := vehicle_type; menu_options := options |}.

(** The creation of the vehicle in [execute]. *)
Definition create_vehicle (vehicle_type : string) (parameters : pydict Z)
  : outcome Vehicle :=
  if decide (vehicle_type = "CrappyCrepeCar") then
    speed ← subscript (dict_get "speed" parameters);
    CrappyCrepeCar__init__ speed
  else if decide (vehicle_type = "DiplomacyDonutDinghy") then
    speed_internal ← subscript (dict_get "speed_internal" parameters);
    speed_external ← subscript (dict_get "speed_external" parameters);
    DiplomacyDonutDinghy__init__ speed_internal speed_external
  else
    timeout ← subscript (dict_get "timeout" parameters);
    distance_limit ← subscript (dict_get "distance_limit" parameters);
    TeleportingTarteTrolley__init__ timeout distance_limit.

(** The [while True] loop of [AddVehicleAttributeMenu.execute], with the
    vehicles of the navigation system; [steps] bounds its iterations.  Of the
    update of [self.options[option]], which changes a text and no key, the
    lookup of the text in the class attribute is kept. *)
Fixpoint execute_loop (steps : nat) (self : AddVehicleAttributeMenu)
    (names : list string) (parameters : pydict Z) (vehicles : list Vehicle)
    (keys : list keyboard) : ui_result (bool * list Vehicle) :=
  match steps with
  | O => OutOfSteps
  | S steps' =>
      match ProgressedMenu_wait_for_interact (menu_options self) true keys with
      | Answer None keys => Answer (false, vehicles) keys
      | Answer (Some option) keys =>
          let len_options := Z.of_nat (length (menu_options self)) in
          if (option =? 0) || (option =? len_options) then
            Answer (false, vehicles) keys
          else if option =? len_options - 1 then
            if negb (length parameters =? length names)%nat then
              execute_loop steps' self names parameters vehicles keys
            else
              match create_vehicle (vehicle_type self) parameters with
              | Returned vehicle =>
                  match MessageBox_wait_for_interact keys with
                  | Answer _ keys => Answer (true, (vehicles ++ [vehicle])%list) keys
                  | EOFError => EOFError
                  | Crashed e => Crashed e
                  | CrashedIndexError => CrashedIndexError
                  | OutOfSteps => OutOfSteps
                  end
              | Raised e => Crashed e
              end
          else
            match ValueInputBox_wait_for_interact
                    (Some validate_positive_integer) true keys with
            | Answer None keys =>
                execute_loop steps' self names parameters vehicles keys
            | Answer (Some result) keys =>
                if is_empty result then
                  execute_loop steps' self names parameters vehicles keys
                else
                  match py_int result with
                  | Some value =>
                      match list_subscript names (option - 1) with
                      | Some name =>
                          let parameters := dict_set name value parameters in
                          match dict_get (vehicle_type self)
                                  AddVehicleAttributeMenu_options with
                          | Some options =>
                              if bool_decide (option ∈ options) then
                                execute_loop steps' self names parameters
                                  vehicles keys
                              else Crashed KeyError
                          | None => Crashed KeyError
                          end
                      | None => CrashedIndexError
                      end
                  | None => Crashed ValueError
                  end
            | EOFError => EOFError
            | Crashed e => Crashed e
            | CrashedIndexError => CrashedIndexError
            | OutOfSteps => OutOfSteps
            end
      | EOFError => EOFError
      | Crashed e => Crashed e
      | CrashedIndexError => CrashedIndexError
      | OutOfSteps => OutOfSteps
      end
  end.

(** [self.execute()]: every iteration reads a key, so that one iteration per
    key and one more are enough. *)
Definition AddVehicleAttributeMenu_execute (self : AddVehicleAttributeMenu)
    (vehicles : list Vehicle) (keys : list keyboard)
  : ui_result (bool * list Vehicle) :=
  match dict_get (vehicle_type self) vehicle_parameters with
  | Some names => execute_loop (S (length keys)) self names [] vehicles keys
  | None => Crashed KeyError
  end.

End VehicleInput.

(** [int] on plain decimal digits. *)
Definition example_ints : IntLib :=
  {| py_int := fun s => if is_empty s then None else digits_value 0 s |}.

(** The parameters of a vehicle are positive. *)
Definition positive_parameters (vehicle : Vehicle) : Prop :=
  match vehicle with
  | CrappyCrepeCar speed => 0 < speed
  | DiplomacyDonutDinghy in_country_speed between_primary_speed =>
      0 < in_country_speed /\ 0 < between_primary_speed
  | TeleportingTarteTrolley travel_time max_distance =>
      0 < travel_time /\ 0 < max_distance
  end.

(** The kind of vehicle that a name of [vehicle_parameters] stands for. *)
Definition vehicle_of_type (vehicle_type : string) (vehicle : Vehicle) : Prop :=
  match vehicle with
  | CrappyCrepeCar _ => vehicle_type = "CrappyCrepeCar"
  | DiplomacyDonutDinghy _ _ => vehicle_type = "DiplomacyDonutDinghy"
  | TeleportingTarteTrolley _ _ => vehicle_type = "TeleportingTarteTrolley"
  end.

(** The parameters entered so far: one entry per name, each a parameter of
    the vehicle type and positive. *)
Definition parameters_ok (names : list string) (parameters : pydict Z) : Prop :=
  NoDup (map fst parameters)
  /\ Forall (fun item => item.1 ∈ names /\ 0 < item.2) parameters.

(** A key that an input box with the validator [validate] does not return
    at: a line that is not valid, or Ctrl-C where that does not cancel. *)
Definition passed_over (validate : string -> bool * string) (allow_undo : bool)
    (key : keyboard) : Prop :=
  match key with
  | Typed raw => (validate raw).1 = false
  | CtrlC => allow_undo = false
  end.

(** Keys typed at the menu of a [CrappyCrepeCar]: the speed is chosen,
    [0] and [abc] are typed and then [80], the vehicle is confirmed and the
    message acknowledged. *)
Definition example_keys : list keyboard :=
  [Typed "1"; Typed "0"; Typed "abc"; Typed "80"; Typed "2"; Typed ""].

Definition example_menu : AddVehicleAttributeMenu :=
  {| vehicle_type := "CrappyCrepeCar"; menu_options := [1; 2; 3] |}.

(** ** The great-circle distance of the spec

    [City.distance] rounds what geopy's [great_circle] gives; the library is
    not among the sources, and the embedding above takes its value as the
    parameter [great_circle_km].  Section 4.1 of the spec says what it is:
    the great-circle distance in kilometres between the two coordinates, in
    the spherical model with the mean radius of the Earth, rounded to the
    nearest integer.  It is a real number, defined here on the reals. *)
Section SphericalModel.
Import Reals Qreals ROrderedType.
Local Open Scope R_scope.







End SphericalModel.

(** * Properties *)

(** ** The example data *)

Lemma example_world_created :
  @create_example_countries_and_cities example_lib empty_world
  = Returned example_world.
Proof. vm_compute. reflexivity. Qed.

Lemma southern_africa_created :
  @create_southern_africa example_lib empty_world = Returned southern_africa.
Proof. vm_compute. reflexivity. Qed.

(** ** Dictionaries *)

Lemma dict_get_set_eq {V} (k : string) (v : V) (d : pydict V) :
  dict_get k (dict_set k v d) = Some v.
Proof.
  induction d as [|[k' v'] d IH]; simpl.
  - rewrite decide_True; done.
  - destruct (decide (k = k')) as [->|Hne]; simpl.
    + rewrite decide_True; done.
    + rewrite decide_False; done.
Qed.

Lemma dict_get_set_ne {V} (k k0 : string) (v : V) (d : pydict V) :
  k0 <> k -> dict_get k0 (dict_set k v d) = dict_get k0 d.
Proof.
  intros Hne. induction d as [|[k' v'] d IH]; simpl.
  - rewrite decide_False; done.
  - destruct (decide (k = k')) as [->|Hk]; simpl.
    + rewrite !decide_False; done.
    + destruct (decide (k0 = k')); done.
Qed.

(** ** locations.py *)

(** C8. Registering a country name that is already in [Country.countries]
    raises nothing and replaces the entry: the name then maps to the instance
    just constructed, which is a new object carrying the new ISO3 code, while
    the instance registered before stays as it was in the store. *)
Theorem Country_reregistration_overwrites
    (name iso3_code : string) (w : World) (old : country_ref) (c : Country) :
  Country_countries w !! name = Some old ->
  instances w !! old = Some c ->
  let '(self, w') := Country__init__ name iso3_code w in
  countries_subscript name w' = Returned self
  /\ self <> old
  /\ instances w' !! self
     = Some {| country_name := name; iso3 := upper iso3_code; cities := [] |}
  /\ instances w' !! old = Some c.
Proof.
  intros Hreg Hold. unfold Country__init__, countries_subscript. simpl.
  assert (Hlt : (old < length (instances w))%nat) by (eapply lookup_lt_Some; eauto).
  repeat split.
  - rewrite lookup_insert_eq. reflexivity.
  - lia.
  - rewrite lookup_app_r by lia. rewrite Nat.sub_diag. reflexivity.
  - rewrite lookup_app_l by lia. exact Hold.
Qed.

(** C8 at "Australia", registered with the code AUS and then again with the
    code aut. *)
Lemma Country_reregistration_overwrites_witness :
  let w := snd (Country__init__ "Australia" "AUS" empty_world) in
  let '(self, w') := Country__init__ "Australia" "aut" w in
  countries_subscript "Australia" w' = Returned self
  /\ self <> 0%nat
  /\ instances w' !! self
     = Some {| country_name := "Australia"; iso3 := "AUT"; cities := [] |}
  /\ instances w' !! 0%nat
     = Some {| country_name := "Australia"; iso3 := "AUS"; cities := [] |}.
Proof.
  apply (Country_reregistration_overwrites "Australia" "aut"
           (snd (Country__init__ "Australia" "AUS" empty_world)) 0%nat
           {| country_name := "Australia"; iso3 := "AUS"; cities := [] |});
    reflexivity.
Defined.

(** C10. [get_cities] with an explicitly empty list of capital types returns
    all the cities of the country, as it does without the argument, whereas
    keeping the cities whose capital type is in the empty list keeps none. *)
Theorem get_cities_empty_list (self : Country) :
  get_cities self (Some []) = cities self
  /\ get_cities self (Some []) = get_cities self None
  /\ filter (fun city => capital_type city ∈ @nil CapitalType) (cities self) = [].
Proof.
  repeat split.
  induction (cities self) as [|city l IH]; [reflexivity|].
  rewrite filter_cons_False; [exact IH|]. apply not_elem_of_nil.
Qed.

(** ** vehicles.py *)

(** C3, as stated, fails: with the non-positive parameter 0 every constructor
    returns a vehicle instead of raising. *)
Lemma vehicle_construction_accepts_zero :
  CrappyCrepeCar__init__ 0 = Returned (CrappyCrepeCar 0)
  /\ ~ raises (CrappyCrepeCar__init__ 0)
  /\ ~ raises (DiplomacyDonutDinghy__init__ 0 0)
  /\ ~ raises (TeleportingTarteTrolley__init__ 0 0).
Proof.
  repeat split; intros [e He]; discriminate He.
Qed.

Section VehicleProperties.
Context {lib : FloatLib}.

Lemma py_ceil_truediv_nonzero (d speed : Z) :
  speed <> 0 -> py_ceil_truediv d speed = Returned (ceil_div d speed).
Proof.
  intros Hs. unfold py_ceil_truediv.
  destruct (Z.eqb_spec speed 0); [contradiction | reflexivity].
Qed.

(** C3, amended. The constructors accept every integer, positive or not, and
    return the vehicle that holds exactly the given parameters; nothing is
    checked at construction.  A zero speed shows only when
    [compute_travel_time] divides by it. *)
Theorem vehicle_construction_unchecked (p q : Z) :
  CrappyCrepeCar__init__ p = Returned (CrappyCrepeCar p)
  /\ DiplomacyDonutDinghy__init__ p q = Returned (DiplomacyDonutDinghy p q)
  /\ TeleportingTarteTrolley__init__ p q = Returned (TeleportingTarteTrolley p q)
  /\ (forall departure arrival,
        (v ← CrappyCrepeCar__init__ 0; compute_travel_time v departure arrival)
        = Raised ZeroDivisionError).
Proof. repeat split. Qed.

(** The rule of the CrappyCrepeCar: [ceil(distance / speed)] for every pair. *)
Lemma CrappyCrepeCar_travel_time (speed : Z) (departure arrival : City) :
  speed <> 0 ->
  compute_travel_time (CrappyCrepeCar speed) departure arrival
  = Returned (Finite (ceil_div (distance departure arrival) speed)).
Proof.
  intros Hs. simpl. rewrite py_ceil_truediv_nonzero by assumption. reflexivity.
Qed.


(** C6. A TeleportingTarteTrolley cannot travel exactly when the distance is
    at least [max_distance], the distance [max_distance] itself included, and
    below that distance it takes [travel_time] hours whatever the distance. *)
Theorem TeleportingTarteTrolley_travel_time
    (travel_time max_distance : Z) (departure arrival : City) :
  let time :=
    compute_travel_time (TeleportingTarteTrolley travel_time max_distance)
      departure arrival in
  (time = Returned Inf <-> distance departure arrival >= max_distance)
  /\ (distance departure arrival = max_distance -> time = Returned Inf)
  /\ (distance departure arrival < max_distance ->
      time = Returned (Finite travel_time)).
Proof.
  cbv zeta. unfold compute_travel_time.
  destruct (Z.leb_spec max_distance (distance departure arrival)) as [Hle|Hlt].
  - split; [split; [lia | reflexivity] |].
    split; [reflexivity | lia].
  - split; [split; [intros H; discriminate H | lia] |].
    split; [lia | reflexivity].
Qed.

End VehicleProperties.

(** C6 at Melbourne and Canberra, 466 km apart, and at Melbourne and Sydney,
    714 km apart, for the trolley of the example vehicles. *)
Lemma TeleportingTarteTrolley_travel_time_witness :
  @compute_travel_time example_lib (TeleportingTarteTrolley 1 500) melbourne canberra
  = Returned (Finite 1)
  /\ @compute_travel_time example_lib (TeleportingTarteTrolley 1 500) melbourne sydney
     = Returned Inf.
Proof.
  split.
  - apply (proj2 (proj2 (@TeleportingTarteTrolley_travel_time example_lib
             1 500 melbourne canberra))).
    reflexivity.
  - apply (proj1 (@TeleportingTarteTrolley_travel_time example_lib
             1 500 melbourne sydney)).
    vm_compute. intros H. discriminate H.
Defined.


(** ** trip.py *)

Section TripProperties.
Context {lib : FloatLib}.

Lemma legs_cons (source destination : City) (seq : list City) :
  legs (source :: destination :: seq)
  = (source, destination) :: legs (destination :: seq).
Proof. reflexivity. Qed.

(** One iteration of the loop. *)
Lemma total_travel_time_from_cons (vehicle : Vehicle) (source destination : City)
    (seq : list City) (total_time : Z) :
  total_travel_time_from vehicle (source :: destination :: seq) total_time
  = (time ← compute_travel_time vehicle source destination;
     match time with
     | Inf => Returned Inf
     | Finite t =>
         total_travel_time_from vehicle (destination :: seq) (total_time + t)
     end).
Proof. reflexivity. Qed.

(** The loop adds the finite legs to the running total. *)
Lemma total_travel_time_from_finite (vehicle : Vehicle) (seq : list City) :
  forall (times : list Z) (total_time : Z),
    Forall2 (fun leg t =>
               compute_travel_time vehicle leg.1 leg.2 = Returned (Finite t))
            (legs seq) times ->
    total_travel_time_from vehicle seq total_time
    = Returned (Finite (total_time + foldr Z.add 0 times)).
Proof.
  induction seq as [|source seq IH]; intros times total_time Hlegs.
  - inversion Hlegs; subst. simpl. f_equal. f_equal. lia.
  - destruct seq as [|destination seq].
    + inversion Hlegs; subst. simpl. f_equal. f_equal. lia.
    + rewrite legs_cons in Hlegs.
      inversion Hlegs as [|leg t legs' times' Hleg Hrest]; subst.
      simpl in Hleg. rewrite total_travel_time_from_cons, Hleg.
      cbn [mbind outcome_bind].
      rewrite (IH times' (total_time + t) Hrest).
      f_equal. f_equal. simpl. lia.
Qed.

(** The loop returns [inf] at the first leg that is impossible, whatever
    follows. *)
Lemma total_travel_time_from_inf (vehicle : Vehicle) (seq : list City) :
  forall (i : nat) (a b : City) (total_time : Z),
    legs seq !! i = Some (a, b) ->
    compute_travel_time vehicle a b = Returned Inf ->
    (forall j a' b', (j < i)%nat -> legs seq !! j = Some (a', b') ->
       exists h, compute_travel_time vehicle a' b' = Returned h) ->
    total_travel_time_from vehicle seq total_time = Returned Inf.
Proof.
  induction seq as [|source seq IH]; intros i a b total_time Hi Hinf Hbefore.
  - discriminate Hi.
  - destruct seq as [|destination seq]; [discriminate Hi|].
    rewrite legs_cons in Hi, Hbefore. rewrite total_travel_time_from_cons.
    destruct i as [|i].
    + injection Hi as -> ->. rewrite Hinf. reflexivity.
    + destruct (Hbefore 0%nat source destination) as [h Hh];
        [lia | reflexivity |].
      rewrite Hh. cbn [mbind outcome_bind]. destruct h as [t|]; [|reflexivity].
      apply (IH i a b); [exact Hi | exact Hinf |].
      intros j a' b' Hj Hleg. apply (Hbefore (S j) a' b'); [lia | exact Hleg].
Qed.

(** C4. [total_travel_time] is 0 for a trip of a single city; it is the sum
    of the travel times of the legs when they are all finite; and it is
    [inf] as soon as a leg is impossible, the legs before it having been
    computed, whatever the legs after it. *)
Theorem total_travel_time_sum_or_inf (self : Trip) (vehicle : Vehicle) :
  (forall city, total_travel_time (Trip__init__ city) vehicle = Returned (Finite 0))
  /\ (forall times,
        Forall2 (fun leg t =>
                   compute_travel_time vehicle leg.1 leg.2 = Returned (Finite t))
                (legs (sequence self)) times ->
        total_travel_time self vehicle = Returned (Finite (foldr Z.add 0 times)))
  /\ (forall i a b,
        legs (sequence self) !! i = Some (a, b) ->
        compute_travel_time vehicle a b = Returned Inf ->
        (forall j a' b', (j < i)%nat -> legs (sequence self) !! j = Some (a', b') ->
           exists h, compute_travel_time vehicle a' b' = Returned h) ->
        total_travel_time self vehicle = Returned Inf).
Proof.
  split; [reflexivity|]. split.
  - intros times Hlegs. unfold total_travel_time.
    rewrite (total_travel_time_from_finite vehicle _ times 0 Hlegs).
    reflexivity.
  - intros i a b Hi Hinf Hbefore.
    exact (total_travel_time_from_inf vehicle _ i a b 0 Hi Hinf Hbefore).
Qed.

(** With speeds that are not zero every leg is computed, so that an impossible
    leg anywhere makes the trip impossible. *)
Lemma compute_travel_time_returns (vehicle : Vehicle) (a b : City) :
  speeds_nonzero vehicle -> exists h, compute_travel_time vehicle a b = Returned h.
Proof.
  destruct vehicle as [speed|ics bps|t m]; simpl.
  - intros Hs. rewrite py_ceil_truediv_nonzero by assumption. eexists; reflexivity.
  - intros [Hi Hb].
    destruct (negb _ && _); [eexists; reflexivity|].
    rewrite py_ceil_truediv_nonzero by (destruct (bool_decide _); assumption).
    eexists; reflexivity.
  - intros _. destruct (m <=? _); eexists; reflexivity.
Qed.

Lemma total_travel_time_any_leg_inf (self : Trip) (vehicle : Vehicle) (a b : City) :
  speeds_nonzero vehicle ->
  (a, b) ∈ legs (sequence self) ->
  compute_travel_time vehicle a b = Returned Inf ->
  total_travel_time self vehicle = Returned Inf.
Proof.
  intros Hv Hin Hinf. apply list_elem_of_lookup in Hin as [i Hi].
  apply (total_travel_time_from_inf vehicle _ i a b 0 Hi Hinf).
  intros j a' b' _ _. apply compute_travel_time_returns, Hv.
Qed.

End TripProperties.

(** C4 at the trip Canberra, Melbourne, Tokyo with the dinghy of the example
    vehicles: the second leg is impossible, the first takes 5 hours. *)
Lemma total_travel_time_sum_or_inf_witness :
  @total_travel_time example_lib canberra_melbourne_tokyo
    (DiplomacyDonutDinghy 100 500) = Returned Inf
  /\ @total_travel_time example_lib (add_next_city melbourne (Trip__init__ canberra))
       (DiplomacyDonutDinghy 100 500) = Returned (Finite 5).
Proof.
  split.
  - apply (proj2 (proj2 (@total_travel_time_sum_or_inf example_lib
             canberra_melbourne_tokyo (DiplomacyDonutDinghy 100 500)))
             1%nat melbourne tokyo).
    + reflexivity.
    + reflexivity.
    + intros j a' b' Hj Hleg.
      destruct j as [|j]; [|lia].
      injection Hleg as <- <-. exists (Finite 5). reflexivity.
  - apply (proj1 (proj2 (@total_travel_time_sum_or_inf example_lib
             (add_next_city melbourne (Trip__init__ canberra))
             (DiplomacyDonutDinghy 100 500))) [5]).
    repeat constructor.
Defined.

Section FastestVehicleProperties.
Context {lib : FloatLib}.

Lemma hours_eqb_eq (a b : hours) : hours_eqb a b = true <-> a = b.
Proof.
  destruct a as [x|], b as [y|]; simpl; split; intros H;
    try discriminate H; try reflexivity.
  - apply Z.eqb_eq in H. now subst.
  - injection H as ->. apply Z.eqb_refl.
Qed.

Lemma hours_ltb_irrefl (a : hours) : hours_ltb a a = false.
Proof. destruct a; simpl; [apply Z.ltb_irrefl | reflexivity]. Qed.

Lemma hours_ltb_trans_false (a b c : hours) :
  hours_ltb a b = false -> hours_ltb b c = false -> hours_ltb a c = false.
Proof.
  destruct a, b, c; simpl; try reflexivity; try discriminate;
    rewrite ?Z.ltb_ge; lia.
Qed.

(** The list comprehension of [find_fastest_vehicle]. *)
Lemma mapM_returned {A B} (f : A -> outcome B) (l : list A) (k : list B) :
  Forall2 (fun x y => f x = Returned y) l k -> mapM f l = Returned k.
Proof.
  induction 1 as [|x y l k Hxy _ IH]; [reflexivity|].
  cbn [mapM]. rewrite Hxy. cbn [mbind outcome_bind].
  rewrite IH. reflexivity.
Qed.

(** [min]: an element of the list that none of the others is below. *)
Lemma min_from_spec (l : list hours) :
  forall best,
    min_from best l ∈ best :: l
    /\ (forall t, t ∈ best :: l -> hours_ltb t (min_from best l) = false).
Proof.
  induction l as [|x l IH]; intros best; simpl.
  - split; [left|]. intros t Ht. apply list_elem_of_singleton in Ht as ->.
    apply hours_ltb_irrefl.
  - destruct (IH (if hours_ltb x best then x else best)) as [Hin Hmin].
    split.
    + apply elem_of_cons in Hin as [->|Hin].
      * destruct (hours_ltb x best); [right; left | left].
      * right; right; exact Hin.
    + intros t Ht.
      assert (Hbest : hours_ltb best (min_from (if hours_ltb x best then x else best) l) = false).
      { destruct (hours_ltb x best) eqn:Hx.
        - apply (hours_ltb_trans_false _ x); [|apply Hmin; left].
          destruct best, x; simpl in *; try reflexivity; try discriminate;
            rewrite ?Z.ltb_ge; rewrite ?Z.ltb_lt in Hx; lia.
        - apply Hmin; left. }
      assert (Hxm : hours_ltb x (min_from (if hours_ltb x best then x else best) l) = false).
      { destruct (hours_ltb x best) eqn:Hx.
        - apply Hmin; left.
        - apply (hours_ltb_trans_false _ best); [exact Hx | apply Hmin; left]. }
      apply elem_of_cons in Ht as [->|Ht]; [exact Hbest|].
      apply elem_of_cons in Ht as [->|Ht]; [exact Hxm|].
      apply Hmin. right; exact Ht.
Qed.

(** The search loop stops at the first position that holds the minimum. *)
Lemma first_at_minimum_spec (minimum : hours) (vehicles : list Vehicle) :
  forall travel_times,
    length vehicles = length travel_times ->
    minimum ∈ travel_times ->
    exists i v,
      first_at_minimum vehicles travel_times minimum = Some (v, minimum)
      /\ vehicles !! i = Some v
      /\ travel_times !! i = Some minimum
      /\ (forall j t, (j < i)%nat -> travel_times !! j = Some t -> t <> minimum).
Proof.
  induction vehicles as [|v vehicles IH]; intros [|t travel_times] Hlen Hin;
    try discriminate Hlen.
  - apply elem_of_nil in Hin as [].
  - simpl. destruct (hours_eqb t minimum) eqn:Ht.
    + apply hours_eqb_eq in Ht as ->. exists 0%nat, v.
      repeat split. intros j t' Hj. lia.
    + assert (Hne : t <> minimum).
      { intros ->. rewrite (proj2 (hours_eqb_eq minimum minimum) eq_refl) in Ht.
        discriminate Ht. }
      apply elem_of_cons in Hin as [->|Hin]; [contradiction|].
      destruct (IH travel_times) as (i & v' & Hfirst & Hv & Hi & Hbefore);
        [simpl in Hlen; lia | exact Hin |].
      exists (S i), v'. repeat split; try assumption.
      intros [|j] t' Hj Hj'; simpl in Hj'.
      * injection Hj' as <-. exact Hne.
      * apply (Hbefore j t'); [lia | exact Hj'].
Qed.

(** What [find_fastest_vehicle] returns on a non-empty list: the first vehicle
    whose travel time is the minimum, with that minimum. *)
Lemma find_fastest_vehicle_first_minimum (self : Trip) (vehicles : list Vehicle)
    (travel_times : list hours) :
  vehicles <> [] ->
  Forall2 (fun v t => total_travel_time self v = Returned t) vehicles travel_times ->
  exists i v minimum,
    find_fastest_vehicle self vehicles = Returned (Some (v, minimum))
    /\ vehicles !! i = Some v
    /\ travel_times !! i = Some minimum
    /\ (forall t, t ∈ travel_times -> hours_ltb t minimum = false)
    /\ (forall j t, (j < i)%nat -> travel_times !! j = Some t -> t <> minimum).
Proof.
  intros Hne Htimes. unfold find_fastest_vehicle.
  rewrite (mapM_returned _ _ _ Htimes). cbn [mbind outcome_bind].
  pose proof (Forall2_length _ _ _ Htimes) as Hlen.
  destruct travel_times as [|t0 travel_times].
  { destruct vehicles; [contradiction | discriminate Hlen]. }
  cbn [py_min mbind outcome_bind mret outcome_ret].
  destruct (min_from_spec travel_times t0) as [Hin Hmin].
  destruct (first_at_minimum_spec (min_from t0 travel_times) vehicles
              (t0 :: travel_times) Hlen Hin)
    as (i & v & Hfirst & Hv & Hi & Hbefore).
  exists i, v, (min_from t0 travel_times). rewrite Hfirst.
  repeat split; assumption.
Qed.

(** C2. When the trip is impossible for every vehicle of a non-empty list,
    [find_fastest_vehicle] returns the first vehicle of the list with [inf],
    not a pair whose vehicle is [None]. *)
Theorem find_fastest_vehicle_all_infinite (self : Trip) (v : Vehicle)
    (vehicles : list Vehicle) :
  Forall (fun v' => total_travel_time self v' = Returned Inf) (v :: vehicles) ->
  find_fastest_vehicle self (v :: vehicles) = Returned (Some (v, Inf)).
Proof.
  intros Hall. unfold find_fastest_vehicle.
  rewrite (mapM_returned _ _ (replicate (length (v :: vehicles)) Inf)).
  - cbn [length replicate py_min mbind outcome_bind mret outcome_ret].
    assert (Hmin : min_from Inf (replicate (length vehicles) Inf) = Inf).
    { induction (length vehicles) as [|n IH]; [reflexivity | exact IH]. }
    rewrite Hmin. reflexivity.
  - induction Hall as [|v' l Hv' _ IH]; constructor; assumption.
Qed.

(** C9. With an empty list of vehicles [find_fastest_vehicle] raises the
    [ValueError] of [min] on an empty sequence and returns nothing, so that
    whenever it returns, the list of vehicles was not empty. *)
Theorem find_fastest_vehicle_no_vehicle (self : Trip) :
  find_fastest_vehicle self [] = Raised ValueError
  /\ (forall vehicles result,
        find_fastest_vehicle self vehicles = Returned result -> vehicles <> []).
Proof.
  split; [reflexivity|].
  intros vehicles result Hresult ->. discriminate Hresult.
Qed.

End FastestVehicleProperties.

(** C9 at a call that returns: the car of the example vehicles makes the trip
    Canberra, Melbourne, Tokyo in 44 hours. *)
Lemma find_fastest_vehicle_no_vehicle_witness :
  @find_fastest_vehicle example_lib canberra_melbourne_tokyo [CrappyCrepeCar 200]
  = Returned (Some (CrappyCrepeCar 200, Finite 44))
  /\ [CrappyCrepeCar 200] <> [].
Proof.
  split; [reflexivity|].
  apply (proj2 (@find_fastest_vehicle_no_vehicle example_lib
                  canberra_melbourne_tokyo)
           [CrappyCrepeCar 200] (Some (CrappyCrepeCar 200, Finite 44))).
  reflexivity.
Defined.

(** C2 at the trip Canberra, Melbourne, Tokyo, which the dinghy of the example
    vehicles cannot make. *)
Lemma find_fastest_vehicle_all_infinite_witness :
  @find_fastest_vehicle example_lib canberra_melbourne_tokyo
    [DiplomacyDonutDinghy 100 500]
  = Returned (Some (DiplomacyDonutDinghy 100 500, Inf)).
Proof.
  apply (@find_fastest_vehicle_all_infinite example_lib).
  repeat constructor.
Defined.

(** ** networkx *)

Lemma heappush_length (e : entry) (l : list entry) :
  length (heappush e l) = S (length l).
Proof.
  induction l as [|x l IH]; simpl; [reflexivity|].
  destruct (entry_ltb e x); simpl; [reflexivity | now rewrite IH].
Qed.

Lemma dict_mem_set {V} (k k0 : string) (v : V) (d : pydict V) :
  dict_mem k0 (dict_set k v d) = if decide (k0 = k) then true else dict_mem k0 d.
Proof.
  unfold dict_mem. destruct (decide (k0 = k)) as [->|Hne].
  - now rewrite dict_get_set_eq.
  - now rewrite dict_get_set_ne.
Qed.

Lemma pending_set_le (G : Graph) (v : string) (d : Z) (dist_now : pydict Z) :
  (pending G (dict_set v d dist_now) <= pending G dist_now)%nat.
Proof.
  unfold pending. induction G as [|[k nbrs] G IH]; simpl; [lia|].
  rewrite dict_mem_set. destruct (decide (k = v)); [|lia].
  destruct (dict_mem k dist_now); lia.
Qed.

Lemma pending_initially (G : Graph) :
  pending G [] = list_sum (map (fun item => S (length (snd item))) G).
Proof.
  induction G as [|[k nbrs] G IH]; [reflexivity|].
  change (pending ((k, nbrs) :: G) []) with (S (length nbrs) + pending G [])%nat.
  rewrite IH. reflexivity.
Qed.

(** Giving a node its final distance retires its neighbours. *)
Lemma pending_set_lt (G : Graph) (v : string) (d : Z) (dist_now : pydict Z)
    (items : pydict bool) :
  dict_get v G = Some items ->
  dict_mem v dist_now = false ->
  (pending G (dict_set v d dist_now) + S (length items) <= pending G dist_now)%nat.
Proof.
  intros Hget Hnew. unfold pending.
  induction G as [|[k nbrs] G IH]; simpl in *; [discriminate Hget|].
  rewrite dict_mem_set.
  destruct (decide (v = k)) as [->|Hne].
  - injection Hget as ->. rewrite decide_True by reflexivity. rewrite Hnew.
    pose proof (pending_set_le G k d dist_now) as Hle. unfold pending in Hle.
    lia.
  - rewrite decide_False by congruence. specialize (IH Hget).
    destruct (dict_mem k dist_now); lia.
Qed.

(** Relaxing the edges of a node leaves the final distances alone and pushes
    at most one entry per edge. *)
Lemma relax_returned (v : string) (d : Z) (items : pydict bool) :
  forall s s',
    relax v d items s = Returned s' ->
    dist s' = dist s
    /\ (length (fringe s') <= length (fringe s) + length items)%nat.
Proof.
  induction items as [|[u e] items IH]; intros s s' Hrelax; simpl in Hrelax.
  - injection Hrelax as <-. split; [reflexivity | lia].
  - destruct (dict_get u (dist s)) as [u_dist|].
    + destruct (d + Z.b2z e <? u_dist); [discriminate Hrelax|].
      destruct (IH _ _ Hrelax) as [Hd Hf]. split; [exact Hd | simpl; lia].
    + destruct (match dict_get u (seen s) with
                | Some seen_u => d + Z.b2z e <? seen_u
                | None => true
                end).
      * destruct (dict_get v (paths s)) as [paths_v|];
          [|discriminate Hrelax].
        cbn [subscript mbind outcome_bind] in Hrelax.
        destruct (IH _ _ Hrelax) as [Hd Hf]. simpl in Hd, Hf.
        rewrite heappush_length in Hf. split; [exact Hd | simpl; lia].
      * destruct (IH _ _ Hrelax) as [Hd Hf]. split; [exact Hd | simpl; lia].
Qed.

Lemma relax_within_budget (v : string) (d : Z) (items : pydict bool) :
  forall s, relax v d items s <> Raised LoopBudget.
Proof.
  induction items as [|[u e] items IH]; intros s; simpl; [discriminate|].
  destruct (dict_get u (dist s)) as [u_dist|].
  - destruct (d + Z.b2z e <? u_dist); [discriminate | apply IH].
  - destruct (match dict_get u (seen s) with
              | Some seen_u => d + Z.b2z e <? seen_u
              | None => true
              end); [|apply IH].
    destruct (dict_get v (paths s)) as [paths_v|]; [apply IH | discriminate].
Qed.

(** The loop stays within a budget above the length of the fringe plus the
    pending entries. *)
Lemma dijkstra_loop_within_budget (G : Graph) (target : string) (budget : nat) :
  forall s,
    (length (fringe s) + pending G (dist s) < budget)%nat ->
    dijkstra_loop budget G target s <> Raised LoopBudget.
Proof.
  induction budget as [|budget IH]; intros s Hbudget; [lia|].
  destruct s as [dist_s seen_s paths_s fringe_s c_s]. simpl in Hbudget.
  destruct fringe_s as [|[[d c0] v] fringe']; [discriminate|].
  cbn [dijkstra_loop fringe dist seen paths c].
  simpl in Hbudget.
  destruct (dict_mem v dist_s) eqn:Hv.
  - apply IH. simpl. lia.
  - destruct (decide (v = target)); [discriminate|].
    destruct (dict_get v G) as [items|] eqn:Hitems; [|discriminate].
    cbn [subscript mbind outcome_bind].
    destruct (relax v d items _) as [s'|e] eqn:Hrelax.
    + cbn [mbind outcome_bind]. apply IH.
      destruct (relax_returned _ _ _ _ _ Hrelax) as [Hd Hf].
      simpl in Hd, Hf. rewrite Hd.
      pose proof (pending_set_lt G v d dist_s items Hitems Hv). lia.
    + cbn [mbind outcome_bind]. intros [= ->].
      exact (relax_within_budget _ _ _ _ Hrelax).
Qed.

(** The budget that [dijkstra_path] gives to the loop is never exhausted: the
    search terminates. *)
Lemma dijkstra_budget_enough (G : Graph) (source target : string) :
  dijkstra_path G source target <> Raised LoopBudget.
Proof.
  unfold dijkstra_path.
  destruct (negb (dict_mem source G)); [discriminate|].
  destruct (decide (target = source)); [discriminate|].
  destruct (dijkstra_loop _ _ _ _) as [s|e] eqn:Hloop.
  - cbn [mbind outcome_bind].
    destruct (dict_get target (dist s)); [|discriminate].
    destruct (dict_get target (paths s)); discriminate.
  - cbn [mbind outcome_bind]. intros [= ->].
    revert Hloop. apply dijkstra_loop_within_budget.
    rewrite pending_initially. unfold dijkstra_budget. simpl. lia.
Qed.

(** ** path_finding.py *)

Lemma Forall_dict_set {V} (P : V -> Prop) (k : string) (v : V) (d : pydict V) :
  P v ->
  Forall (fun item => P item.2) d ->
  Forall (fun item => P item.2) (dict_set k v d).
Proof.
  intros Hv Hd. induction Hd as [|[k' v'] d Hv' Hd IH]; simpl.
  - repeat constructor. exact Hv.
  - destruct (decide (k = k')); constructor; assumption.
Qed.

Lemma Forall_dict_get {V} (P : V -> Prop) (k : string) (v : V) (d : pydict V) :
  Forall (fun item => P item.2) d -> dict_get k d = Some v -> P v.
Proof.
  intros Hd. induction Hd as [|[k' v'] d Hv' _ IH]; simpl; [discriminate|].
  destruct (decide (k = k')); [|exact IH].
  intros [= <-]. exact Hv'.
Qed.

Lemma add_node_weights_false (n : string) (G : Graph) :
  all_weights_false G -> all_weights_false (add_node n G).
Proof.
  intros HG. unfold add_node. destruct (dict_mem n G); [exact HG|].
  apply (Forall_dict_set (Forall (fun edge : string * bool => edge.2 = false)));
    [constructor | exact HG].
Qed.

Lemma adj_set_weights_false (u v : string) (G : Graph) :
  all_weights_false G -> all_weights_false (adj_set u v false G).
Proof.
  intros HG. unfold adj_set.
  destruct (dict_get u G) as [nbrs|] eqn:Hu; [|exact HG].
  apply (Forall_dict_set (Forall (fun edge : string * bool => edge.2 = false)));
    [|exact HG].
  apply (Forall_dict_set (fun weight : bool => weight = false)); [reflexivity|].
  exact (Forall_dict_get _ _ _ _ HG Hu).
Qed.

Lemma add_edge_weights_false (u v : string) (G : Graph) :
  all_weights_false G -> all_weights_false (add_edge u v false G).
Proof.
  intros HG. unfold add_edge.
  auto using add_node_weights_false, adj_set_weights_false.
Qed.

Section PathFindingProperties.
Context {lib : FloatLib}.

Lemma plot_edges_from_weights_false (vehicle : Vehicle) (source : City)
    (later : list City) :
  forall graph graph',
    all_weights_false graph ->
    plot_edges_from vehicle source later graph = Returned graph' ->
    all_weights_false graph'.
Proof.
  induction later as [|destination later IH]; intros graph graph' HG Hplot;
    simpl in Hplot.
  - injection Hplot as <-. exact HG.
  - destruct (compute_travel_time vehicle source destination) as [time|e];
      [|discriminate Hplot].
    cbn [mbind outcome_bind] in Hplot.
    destruct (hours_eqb time Inf).
    + exact (IH _ _ HG Hplot).
    + exact (IH _ _ (add_edge_weights_false _ _ _ HG) Hplot).
Qed.

Lemma plot_edges_weights_false (vehicle : Vehicle) (cities_from_i : list City) :
  forall graph graph',
    all_weights_false graph ->
    plot_edges vehicle cities_from_i graph = Returned graph' ->
    all_weights_false graph'.
Proof.
  induction cities_from_i as [|source later IH]; intros graph graph' HG Hplot;
    simpl in Hplot.
  - injection Hplot as <-. exact HG.
  - destruct (plot_edges_from vehicle source later graph) as [graph1|e] eqn:Hfrom;
      [|discriminate Hplot].
    cbn [mbind outcome_bind] in Hplot.
    exact (IH _ _ (plot_edges_from_weights_false _ _ _ _ _ HG Hfrom) Hplot).
Qed.

(** The graph that [plot_graph_for_vehicle] builds never holds a travel time:
    the weight of every edge is the [False] of the comparison with [inf], so
    that all the paths between two cities have length 0 in the search. *)
Lemma plot_graph_weights_false (vehicle : Vehicle) (w : World) (graph : Graph) :
  plot_graph_for_vehicle vehicle w = Returned graph -> all_weights_false graph.
Proof.
  unfold plot_graph_for_vehicle. apply plot_edges_weights_false.
  generalize (dict_values (City_cities w)). intros l.
  assert (Hgen : forall G, all_weights_false G ->
            all_weights_false
              (foldl (fun graph city => add_node (city_id city) graph) G l)).
  { induction l as [|city l IH]; intros G HG; simpl; [exact HG|].
    apply IH, add_node_weights_false, HG. }
  apply Hgen. constructor.
Qed.

(** The graph depends on the vehicle only through which legs are impossible:
    two vehicles that agree on that get the same graph, whatever their travel
    times. *)
Lemma plot_edges_from_same (v1 v2 : Vehicle) (source : City) (later : list City) :
  (forall a b,
     (fun time => hours_eqb time Inf) <$> compute_travel_time v1 a b
     = (fun time => hours_eqb time Inf) <$> compute_travel_time v2 a b) ->
  forall graph,
    plot_edges_from v1 source later graph = plot_edges_from v2 source later graph.
Proof.
  intros Hsame. induction later as [|destination later IH]; intros graph; simpl;
    [reflexivity|].
  specialize (Hsame source destination).
  destruct (compute_travel_time v1 source destination) as [t1|e1],
           (compute_travel_time v2 source destination) as [t2|e2];
    cbn [fmap outcome_fmap] in Hsame; try discriminate Hsame.
  - injection Hsame as Hsame. cbn [mbind outcome_bind]. rewrite Hsame.
    destruct (hours_eqb t2 Inf); apply IH.
  - injection Hsame as ->. reflexivity.
Qed.

Lemma plot_graph_same (v1 v2 : Vehicle) (w : World) :
  (forall a b,
     (fun time => hours_eqb time Inf) <$> compute_travel_time v1 a b
     = (fun time => hours_eqb time Inf) <$> compute_travel_time v2 a b) ->
  plot_graph_for_vehicle v1 w = plot_graph_for_vehicle v2 w.
Proof.
  intros Hsame. unfold plot_graph_for_vehicle.
  generalize (foldl (fun graph city => add_node (city_id city) graph) []
                (dict_values (City_cities w))).
  induction (dict_values (City_cities w)) as [|source later IH]; intros graph;
    simpl; [reflexivity|].
  rewrite (plot_edges_from_same v1 v2 source later Hsame).
  destruct (plot_edges_from v2 source later graph) as [graph1|e];
    cbn [mbind outcome_bind]; [apply IH | reflexivity].
Qed.

(** So the trip that [find_shortest_path] returns does not depend on the
    travel times either. *)
Lemma find_shortest_path_same (v1 v2 : Vehicle) (from_city to_city : City)
    (w : World) :
  (forall a b,
     (fun time => hours_eqb time Inf) <$> compute_travel_time v1 a b
     = (fun time => hours_eqb time Inf) <$> compute_travel_time v2 a b) ->
  find_shortest_path v1 from_city to_city w
  = find_shortest_path v2 from_city to_city w.
Proof.
  intros Hsame. unfold find_shortest_path.
  rewrite (plot_graph_same v1 v2 w Hsame). reflexivity.
Qed.

(** The only error of [compute_travel_time] is the division by a zero speed. *)
Lemma compute_travel_time_raised (vehicle : Vehicle) (a b : City) (e : exn) :
  compute_travel_time vehicle a b = Raised e -> e = ZeroDivisionError.
Proof.
  destruct vehicle as [speed|ics bps|t m]; simpl.
  - unfold py_ceil_truediv. destruct (speed =? 0); simpl; congruence.
  - destruct (negb _ && _); [discriminate|].
    unfold py_ceil_truediv. destruct (_ =? 0); simpl; congruence.
  - destruct (m <=? _); discriminate.
Qed.

Lemma plot_edges_from_raised (vehicle : Vehicle) (source : City)
    (later : list City) (e : exn) :
  forall graph,
    plot_edges_from vehicle source later graph = Raised e -> e = ZeroDivisionError.
Proof.
  induction later as [|destination later IH]; intros graph; simpl;
    [discriminate|].
  destruct (compute_travel_time vehicle source destination) as [time|e'] eqn:Ht.
  - cbn [mbind outcome_bind]. destruct (hours_eqb time Inf); apply IH.
  - cbn [mbind outcome_bind]. intros [= <-].
    exact (compute_travel_time_raised _ _ _ _ Ht).
Qed.

Lemma plot_edges_raised (vehicle : Vehicle) (cities_from_i : list City) (e : exn) :
  forall graph,
    plot_edges vehicle cities_from_i graph = Raised e -> e = ZeroDivisionError.
Proof.
  induction cities_from_i as [|source later IH]; intros graph; simpl;
    [discriminate|].
  destruct (plot_edges_from vehicle source later graph) as [graph1|e'] eqn:Hfrom.
  - cbn [mbind outcome_bind]. apply IH.
  - cbn [mbind outcome_bind]. intros [= <-].
    exact (plot_edges_from_raised _ _ _ _ _ Hfrom).
Qed.

Lemma add_path_raised (path : list string) (w : World) (e : exn) :
  forall trip, add_path path w trip = Raised e -> e = KeyError.
Proof.
  induction path as [|id path IH]; intros trip; simpl; [discriminate|].
  destruct (dict_get id (City_cities w)) as [city|]; simpl.
  - apply IH.
  - congruence.
Qed.

(** [find_shortest_path] returns or raises a Python exception: the search of
    networkx inside it terminates. *)
Lemma find_shortest_path_within_budget (vehicle : Vehicle)
    (from_city to_city : City) (w : World) :
  find_shortest_path vehicle from_city to_city w <> Raised LoopBudget.
Proof.
  unfold find_shortest_path, plot_graph_for_vehicle.
  destruct (plot_edges vehicle _ _) as [graph|e] eqn:Hplot.
  - cbn [mbind outcome_bind].
    pose proof (dijkstra_budget_enough graph (city_id from_city) (city_id to_city))
      as Hbudget.
    destruct (dijkstra_path graph (city_id from_city) (city_id to_city))
      as [path|e].
    + destruct (add_path (tail path) w (Trip__init__ from_city)) as [trip|e] eqn:Hadd;
        [discriminate|].
      simpl. intros [= ->]. apply add_path_raised in Hadd. discriminate Hadd.
    + destruct e; try discriminate. contradiction.
  - cbn [mbind outcome_bind]. intros [= ->].
    apply plot_edges_raised in Hplot. discriminate Hplot.
Qed.

End PathFindingProperties.

(** C1. In the registry of Pretoria, Cape Town and Gaborone, with the dinghy
    of the example vehicles, [find_shortest_path] from Pretoria to Cape Town
    returns the direct trip, which takes 14 hours, although the trip through
    Gaborone, made of two possible legs of 1 and 3 hours, takes 4 hours. *)
Theorem find_shortest_path_not_shortest :
  let dinghy := DiplomacyDonutDinghy 100 500 in
  let direct := add_next_city cape_town (Trip__init__ pretoria) in
  let through_gaborone :=
    add_next_city cape_town (add_next_city gaborone (Trip__init__ pretoria)) in
  @find_shortest_path example_lib dinghy pretoria cape_town southern_africa
  = Returned (Some direct)
  /\ @total_travel_time example_lib direct dinghy = Returned (Finite 14)
  /\ @compute_travel_time example_lib dinghy pretoria gaborone = Returned (Finite 1)
  /\ @compute_travel_time example_lib dinghy gaborone cape_town = Returned (Finite 3)
  /\ @total_travel_time example_lib through_gaborone dinghy = Returned (Finite 4).
Proof. vm_compute. repeat split. Qed.

(** * Further properties *)

Open Scope list_scope.

(** ** vehicles.py *)

Section MoreVehicleProperties.
Context {lib : FloatLib}.

Lemma ceil_div_bounds (d speed : Z) :
  0 < speed ->
  (ceil_div d speed - 1) * speed < d <= ceil_div d speed * speed.
Proof.
  intros Hs. unfold ceil_div.
  pose proof (Z.div_mod (- d) speed ltac:(lia)) as Hdm.
  pose proof (Z.mod_pos_bound (- d) speed Hs) as Hm.
  nia.
Qed.

(** X1. When the travel time of a CrappyCrepeCar is computed, it is the
    distance divided by the speed, rounded up: the least whole number of
    hours in which the car covers the distance.  This is for a positive speed
    and a distance below 2^52, where the ceiling of the float quotient is the
    ceiling of the exact one. *)
Theorem CrappyCrepeCar_rounds_up (speed : Z) (departure arrival : City)
    (time : hours) :
  0 < speed < 2 ^ 52 ->
  0 <= distance departure arrival < 2 ^ 52 ->
  compute_travel_time (CrappyCrepeCar speed) departure arrival = Returned time ->
  exists t,
    time = Finite t
    /\ (t - 1) * speed < distance departure arrival <= t * speed.
Proof.
  intros Hs _ Htime. exists (ceil_div (distance departure arrival) speed).
  split.
  - simpl in Htime. rewrite py_ceil_truediv_nonzero in Htime by lia.
    simpl in Htime. congruence.
  - apply ceil_div_bounds. lia.
Qed.

Lemma compute_travel_time_zero_speed (vehicle : Vehicle)
    (departure arrival : City) :
  compute_travel_time vehicle departure arrival = Raised ZeroDivisionError ->
  match vehicle with
  | CrappyCrepeCar speed => speed = 0
  | DiplomacyDonutDinghy in_country_speed between_primary_speed =>
      if bool_decide (country departure = country arrival)
      then in_country_speed = 0
      else between_primary_speed = 0
  | TeleportingTarteTrolley _ _ => False
  end.
Proof.
  assert (Hdiv : forall d speed,
            Finite <$> py_ceil_truediv d speed = Raised ZeroDivisionError ->
            speed = 0).
  { intros d speed. unfold py_ceil_truediv.
    destruct (Z.eqb_spec speed 0) as [->|Hs]; simpl; [reflexivity|discriminate]. }
  destruct vehicle as [speed|ics bps|t m]; simpl.
  - apply Hdiv.
  - destruct (negb _ && _); [discriminate|].
    destruct (bool_decide (country departure = country arrival)); apply Hdiv.
  - destruct (m <=? _); discriminate.
Qed.

Lemma speeds_nonzero_no_zero_division (vehicle : Vehicle)
    (departure arrival : City) :
  speeds_nonzero vehicle ->
  compute_travel_time vehicle departure arrival <> Raised ZeroDivisionError.
Proof.
  intros Hv Hraised.
  pose proof (compute_travel_time_zero_speed _ _ _ Hraised) as Hzero.
  destruct vehicle as [speed|ics bps|t m]; simpl in Hv.
  - contradiction.
  - destruct Hv as [Hi Hb].
    destruct (bool_decide (country departure = country arrival)); contradiction.
  - exact Hzero.
Qed.

(** X2. [compute_travel_time] raises [ZeroDivisionError] only at a speed that
    is zero: the speed of the car, or the speed of the dinghy for the kind of
    leg, within a country or between two countries; the trolley does not
    divide.  So a vehicle whose speeds are not zero never raises it. *)
Theorem compute_travel_time_errors (vehicle : Vehicle) (departure arrival : City) :
  (compute_travel_time vehicle departure arrival = Raised ZeroDivisionError ->
   match vehicle with
   | CrappyCrepeCar speed => speed = 0
   | DiplomacyDonutDinghy in_country_speed between_primary_speed =>
       if bool_decide (country departure = country arrival)
       then in_country_speed = 0
       else between_primary_speed = 0
   | TeleportingTarteTrolley _ _ => False
   end)
  /\ (speeds_nonzero vehicle ->
      compute_travel_time vehicle departure arrival <> Raised ZeroDivisionError).
Proof.
  split.
  - apply compute_travel_time_zero_speed.
  - apply speeds_nonzero_no_zero_division.
Qed.

End MoreVehicleProperties.

(** X1 at Melbourne and Sydney, 714 km apart, for the car of the example
    vehicles. *)
Lemma CrappyCrepeCar_rounds_up_witness :
  exists t,
    Finite 4 = Finite t
    /\ (t - 1) * 200 < @distance example_lib melbourne sydney <= t * 200.
Proof.
  apply (@CrappyCrepeCar_rounds_up example_lib 200 melbourne sydney (Finite 4)).
  - lia.
  - vm_compute. split; [discriminate | reflexivity].
  - reflexivity.
Defined.

(** X2 at a car without speed, and at the car of the example vehicles. *)
Lemma compute_travel_time_errors_witness :
  0 = 0
  /\ @compute_travel_time example_lib (CrappyCrepeCar 200) melbourne sydney
     <> Raised ZeroDivisionError.
Proof.
  split.
  - apply (proj1 (@compute_travel_time_errors example_lib (CrappyCrepeCar 0)
                    melbourne sydney)).
    reflexivity.
  - apply (proj2 (@compute_travel_time_errors example_lib (CrappyCrepeCar 200)
                    melbourne sydney)).
    simpl. lia.
Defined.

(** ** trip.py *)

Section MoreTripProperties.
Context {lib : FloatLib}.

Lemma total_travel_time_from_snoc (vehicle : Vehicle) (last city : City)
    (seq : list City) :
  forall total_time,
    total_travel_time_from vehicle (seq ++ [last; city]) total_time
    = (t ← total_travel_time_from vehicle (seq ++ [last]) total_time;
       match t with
       | Inf => Returned Inf
       | Finite x =>
           h ← compute_travel_time vehicle last city;
           match h with
           | Inf => Returned Inf
           | Finite y => Returned (Finite (x + y))
           end
       end).
Proof.
  induction seq as [|a seq IH]; intros total_time.
  - simpl. destruct (compute_travel_time vehicle last city) as [[y|]|e];
      reflexivity.
  - destruct seq as [|b seq].
    + simpl. destruct (compute_travel_time vehicle a last) as [[x|]|e];
        reflexivity.
    + change ((a :: b :: seq) ++ [last; city])%list
        with (a :: b :: (seq ++ [last; city]))%list.
      change ((a :: b :: seq) ++ [last])%list with (a :: b :: (seq ++ [last]))%list.
      rewrite !total_travel_time_from_cons.
      destruct (compute_travel_time vehicle a b) as [[x|]|e]; try reflexivity.
      cbn [mbind outcome_bind].
      exact (IH (total_time + x)).
Qed.

(** X3. Adding a city to a trip adds the travel time of the new last leg to
    the travel time of the trip: the longer trip is impossible when the trip
    or the new leg is, and an error of either is the error of the longer
    trip. *)
Theorem total_travel_time_add_next_city (self : Trip) (vehicle : Vehicle)
    (seq : list City) (last city : City) :
  sequence self = (seq ++ [last])%list ->
  total_travel_time (add_next_city city self) vehicle
  = (t ← total_travel_time self vehicle;
     match t with
     | Inf => Returned Inf
     | Finite x =>
         h ← compute_travel_time vehicle last city;
         match h with
         | Inf => Returned Inf
         | Finite y => Returned (Finite (x + y))
         end
     end).
Proof.
  intros Hseq. unfold total_travel_time, add_next_city. simpl.
  rewrite Hseq, <- app_assoc. simpl.
  apply total_travel_time_from_snoc.
Qed.

Lemma total_travel_time_from_returned (vehicle : Vehicle) (seq : list City) :
  forall (total_time : Z) (time : hours),
    total_travel_time_from vehicle seq total_time = Returned time ->
    match time with
    | Finite total =>
        exists times,
          Forall2 (fun leg t =>
                     compute_travel_time vehicle leg.1 leg.2
                     = Returned (Finite t))
                  (legs seq) times
          /\ total = total_time + foldr Z.add 0 times
    | Inf =>
        exists i a b,
          legs seq !! i = Some (a, b)
          /\ compute_travel_time vehicle a b = Returned Inf
          /\ forall j a' b',
               (j < i)%nat -> legs seq !! j = Some (a', b') ->
               exists t, compute_travel_time vehicle a' b' = Returned (Finite t)
    end.
Proof.
  induction seq as [|source seq IH]; intros total_time time.
  - intros [= <-]. exists []. split; [constructor | simpl; lia].
  - destruct seq as [|destination seq].
    + intros [= <-]. exists []. split; [constructor | simpl; lia].
    + rewrite total_travel_time_from_cons, legs_cons.
      destruct (compute_travel_time vehicle source destination)
        as [[t|]|e] eqn:Hleg; cbn [mbind outcome_bind]; [| |discriminate].
      * intros Hrest. specialize (IH _ _ Hrest). destruct time as [total|].
        -- destruct IH as (times & Hlegs & ->).
           exists (t :: times). split; [|simpl; lia].
           constructor; [exact Hleg | exact Hlegs].
        -- destruct IH as (i & a & b & Hi & Hinf & Hbefore).
           exists (S i), a, b. split; [exact Hi|]. split; [exact Hinf|].
           intros [|j] a' b' Hj Hlookup; simpl in Hlookup.
           ++ injection Hlookup as <- <-. exists t. exact Hleg.
           ++ apply (Hbefore j a' b'); [lia | exact Hlookup].
      * intros [= <-]. exists 0%nat, source, destination.
        split; [reflexivity|]. split; [exact Hleg|].
        intros j a' b' Hj. lia.
Qed.

(** X4. What [total_travel_time] returns tells what the legs are: it is [inf]
    only when a leg of the trip is impossible, the legs before that one
    taking a finite time; and it is a number of hours only when every leg
    takes a finite time, and then it is their sum. *)
Theorem total_travel_time_impossible_leg (self : Trip) (vehicle : Vehicle)
    (time : hours) :
  total_travel_time self vehicle = Returned time ->
  match time with
  | Finite total =>
      exists times,
        Forall2 (fun leg t =>
                   compute_travel_time vehicle leg.1 leg.2 = Returned (Finite t))
                (legs (sequence self)) times
        /\ total = foldr Z.add 0 times
  | Inf =>
      exists i a b,
        legs (sequence self) !! i = Some (a, b)
        /\ compute_travel_time vehicle a b = Returned Inf
        /\ forall j a' b',
             (j < i)%nat -> legs (sequence self) !! j = Some (a', b') ->
             exists t, compute_travel_time vehicle a' b' = Returned (Finite t)
  end.
Proof.
  intros Htime.
  pose proof (total_travel_time_from_returned vehicle (sequence self) 0 time Htime)
    as Hlegs.
  destruct time as [total|]; [|exact Hlegs].
  destruct Hlegs as (times & Hlegs & ->). exists times. split; [exact Hlegs | lia].
Qed.

(** X5. On a non-empty list of vehicles that can all be evaluated,
    [find_fastest_vehicle] returns the first vehicle of the list whose travel
    time is the minimum, together with that minimum. *)
Theorem find_fastest_vehicle_minimum (self : Trip) (vehicles : list Vehicle)
    (travel_times : list hours) :
  vehicles <> [] ->
  Forall2 (fun v t => total_travel_time self v = Returned t) vehicles travel_times ->
  exists i v minimum,
    find_fastest_vehicle self vehicles = Returned (Some (v, minimum))
    /\ vehicles !! i = Some v
    /\ travel_times !! i = Some minimum
    /\ (forall t, t ∈ travel_times -> hours_ltb t minimum = false)
    /\ (forall j t, (j < i)%nat -> travel_times !! j = Some t -> t <> minimum).
Proof. apply find_fastest_vehicle_first_minimum. Qed.

End MoreTripProperties.

(** X3 at the trip Canberra, Melbourne extended by Tokyo, for the car of the
    example vehicles. *)
Lemma total_travel_time_add_next_city_witness :
  @total_travel_time example_lib canberra_melbourne_tokyo (CrappyCrepeCar 200)
  = Returned (Finite 44).
Proof.
  unfold canberra_melbourne_tokyo.
  rewrite (@total_travel_time_add_next_city example_lib
             (add_next_city melbourne (Trip__init__ canberra)) (CrappyCrepeCar 200)
             [canberra] melbourne tokyo eq_refl).
  reflexivity.
Defined.

(** X4 at the trip Canberra, Melbourne, Tokyo, whose second leg the dinghy of
    the example vehicles cannot make. *)
Lemma total_travel_time_impossible_leg_witness :
  exists i a b,
    legs (sequence canberra_melbourne_tokyo) !! i = Some (a, b)
    /\ @compute_travel_time example_lib (DiplomacyDonutDinghy 100 500) a b
       = Returned Inf
    /\ forall j a' b',
         (j < i)%nat ->
         legs (sequence canberra_melbourne_tokyo) !! j = Some (a', b') ->
         exists t,
           @compute_travel_time example_lib (DiplomacyDonutDinghy 100 500) a' b'
           = Returned (Finite t).
Proof.
  exact (@total_travel_time_impossible_leg example_lib canberra_melbourne_tokyo
           (DiplomacyDonutDinghy 100 500) Inf eq_refl).
Defined.

(** X5 at the trip Canberra, Melbourne, Tokyo and the three example vehicles:
    only the car can make the trip. *)
Lemma find_fastest_vehicle_minimum_witness :
  exists i v minimum,
    @find_fastest_vehicle example_lib canberra_melbourne_tokyo
      [CrappyCrepeCar 200; DiplomacyDonutDinghy 100 500;
       TeleportingTarteTrolley 1 500]
    = Returned (Some (v, minimum))
    /\ [CrappyCrepeCar 200; DiplomacyDonutDinghy 100 500;
        TeleportingTarteTrolley 1 500] !! i = Some v
    /\ [Finite 44; Inf; Inf] !! i = Some minimum
    /\ (forall t, t ∈ [Finite 44; Inf; Inf] -> hours_ltb t minimum = false)
    /\ (forall j t, (j < i)%nat -> [Finite 44; Inf; Inf] !! j = Some t ->
          t <> minimum).
Proof.
  apply (@find_fastest_vehicle_minimum example_lib).
  - discriminate.
  - repeat constructor.
Defined.

(** ** locations.py *)

(** X6. The value of a capital type names it: [CapitalType_of_name], which
    [City.__init__] applies to its argument, gives back the capital type from
    its string; and every string other than the names of the three kinds of
    capital gives [unspecified]. *)
Theorem CapitalType_of_name_str (self : CapitalType) (capital : string) :
  CapitalType_of_name (CapitalType__str__ self) = self
  /\ (CapitalType_of_name capital <> unspecified
      <-> capital = "primary" \/ capital = "admin" \/ capital = "minor").
Proof.
  split; [destruct self; reflexivity|].
  unfold CapitalType_of_name.
  destruct (decide (capital = "primary")) as [->|H1]; [split; [auto | discriminate]|].
  destruct (decide (capital = "admin")) as [->|H2]; [split; [auto | discriminate]|].
  destruct (decide (capital = "minor")) as [->|H3]; [split; [auto | discriminate]|].
  split; [contradiction | tauto].
Qed.

Lemma get_city_spec (l : list City) (name : string) :
  match head (filter (fun city => city_name city = name) l) with
  | Some c =>
      exists i, l !! i = Some c /\ city_name c = name
                /\ (forall j c', (j < i)%nat -> l !! j = Some c' ->
                      city_name c' <> name)
  | None => forall c, c ∈ l -> city_name c <> name
  end.
Proof.
  induction l as [|c0 l IH].
  - simpl. intros c Hc. apply elem_of_nil in Hc as [].
  - destruct (decide (city_name c0 = name)) as [Hn|Hn].
    + rewrite filter_cons_True by exact Hn. simpl.
      exists 0%nat. repeat split; [exact Hn|]. intros j c' Hj. lia.
    + rewrite filter_cons_False by exact Hn.
      destruct (head (filter (fun city => city_name city = name) l)) as [c|].
      * destruct IH as (i & Hi & Hname & Hfirst).
        exists (S i). repeat split; [exact Hi | exact Hname |].
        intros [|j] c' Hj Hc'.
        -- injection Hc' as <-. exact Hn.
        -- apply (Hfirst j c'); [lia | exact Hc'].
      * intros c Hc. apply elem_of_cons in Hc as [->|Hc]; [exact Hn | auto].
Qed.

(** X7. [get_city] returns the first city of the country, in the order of
    registration, that has the given name, and [None] exactly when the
    country has no city of that name. *)
Theorem get_city_first_match (self : Country) (name : string) :
  (forall c,
     get_city self name = Some c ->
     exists i, cities self !! i = Some c /\ city_name c = name
               /\ (forall j c', (j < i)%nat -> cities self !! j = Some c' ->
                     city_name c' <> name))
  /\ (get_city self name = None
      <-> forall c, c ∈ cities self -> city_name c <> name).
Proof.
  unfold get_city. pose proof (get_city_spec (cities self) name) as Hspec.
  destruct (head (filter (fun city => city_name city = name) (cities self)))
    as [c0|].
  - split.
    + intros c [= <-]. exact Hspec.
    + split; [discriminate|]. intros Hnone.
      destruct Hspec as (i & Hi & Hname & _).
      exfalso. apply (Hnone c0); [|exact Hname].
      apply list_elem_of_lookup. exists i. exact Hi.
  - split; [discriminate|]. split; [intros _; exact Hspec | reflexivity].
Qed.

Lemma dict_get_elem_of {V} (k : string) (v : V) (d : pydict V) :
  dict_get k d = Some v -> (k, v) ∈ d.
Proof.
  induction d as [|[k' v'] d IH]; simpl; [discriminate|].
  destruct (decide (k = k')) as [->|Hne].
  - intros [= ->]. left.
  - intros Hget. right. exact (IH Hget).
Qed.

Lemma elem_of_dict_get {V} (k : string) (v : V) (d : pydict V) :
  NoDup (map fst d) -> (k, v) ∈ d -> dict_get k d = Some v.
Proof.
  induction d as [|[k' v'] d IH]; simpl; intros Hnodup Hin.
  - apply elem_of_nil in Hin as [].
  - apply NoDup_cons in Hnodup as [Hk' Hnodup].
    apply elem_of_cons in Hin as [[= -> ->]|Hin].
    + rewrite decide_True by reflexivity. reflexivity.
    + destruct (decide (k = k')) as [->|Hne]; [|exact (IH Hnodup Hin)].
      exfalso. apply Hk'. apply list_elem_of_fmap. exists (k', v). split;
        [reflexivity | exact Hin].
Qed.

Lemma dict_set_keys_subset {V} (k k0 : string) (v : V) (d : pydict V) :
  k0 ∈ map fst (dict_set k v d) -> k0 = k \/ k0 ∈ map fst d.
Proof.
  induction d as [|[k' v'] d IH]; simpl.
  - intros Hin. apply list_elem_of_singleton in Hin. left. exact Hin.
  - destruct (decide (k = k')) as [<-|Hne]; simpl.
    + intros Hin. right. exact Hin.
    + intros Hin. apply elem_of_cons in Hin as [->|Hin]; [right; left|].
      destruct (IH Hin) as [->|Hin']; [left; reflexivity | right; right; exact Hin'].
Qed.

Lemma dict_set_NoDup {V} (k : string) (v : V) (d : pydict V) :
  NoDup (map fst d) -> NoDup (map fst (dict_set k v d)).
Proof.
  induction d as [|[k' v'] d IH]; simpl; intros Hnodup.
  - apply NoDup_singleton.
  - apply NoDup_cons in Hnodup as [Hk' Hnodup].
    destruct (decide (k = k')) as [<-|Hne]; simpl.
    + apply NoDup_cons. split; assumption.
    + apply NoDup_cons. split; [|exact (IH Hnodup)].
      intros Hin. apply dict_set_keys_subset in Hin as [->|Hin]; contradiction.
Qed.

Lemma elem_of_dict_set {V} (k k0 : string) (v v0 : V) (d : pydict V) :
  NoDup (map fst d) ->
  (k0, v0) ∈ dict_set k v d ->
  (k0 = k /\ v0 = v) \/ (k0 <> k /\ (k0, v0) ∈ d).
Proof.
  intros Hnodup Hin.
  apply (elem_of_dict_get _ _ _ (dict_set_NoDup k v d Hnodup)) in Hin.
  destruct (decide (k0 = k)) as [->|Hne].
  - rewrite dict_get_set_eq in Hin. injection Hin as <-. left. auto.
  - rewrite dict_get_set_ne in Hin by exact Hne.
    right. split; [exact Hne | exact (dict_get_elem_of _ _ _ Hin)].
Qed.

Section RegistryProperties.
Context {lib : FloatLib}.

Lemma empty_world_registry_ok : registry_ok empty_world.
Proof.
  split; [|split; [|split]]; simpl.
  - intros name r Hr. rewrite lookup_empty in Hr. discriminate Hr.
  - apply NoDup_nil_2.
  - intros id c Hc. apply elem_of_nil in Hc as [].
  - intros r C c HC. rewrite lookup_nil in HC. discriminate HC.
Qed.

Lemma Country__init___registry_ok (name iso3_code : string) (w : World) :
  registry_ok w -> registry_ok (Country__init__ name iso3_code w).2.
Proof.
  intros (Hnames & Hnodup & Hcities & Hback). unfold Country__init__. simpl.
  split; [|split; [|split]]; simpl.
  - intros name' r Hr. rewrite lookup_insert in Hr.
    destruct (decide (name = name')) as [<-|Hne].
    + injection Hr as <-.
      exists {| country_name := name; iso3 := upper iso3_code; cities := [] |}.
      split; [|reflexivity].
      rewrite lookup_app_r by lia. rewrite Nat.sub_diag. reflexivity.
    + destruct (Hnames _ _ Hr) as (C & HC & Hname).
      exists C. split; [|exact Hname].
      rewrite lookup_app_l; [exact HC | eapply lookup_lt_Some; eauto].
  - exact Hnodup.
  - intros id c Hc. destruct (Hcities _ _ Hc) as (Hid & C & HC & Hin).
    split; [exact Hid|]. exists C. split; [|exact Hin].
    rewrite lookup_app_l; [exact HC | eapply lookup_lt_Some; eauto].
  - intros r C c HC Hin.
    destruct (decide (r < length (instances w))%nat) as [Hlt|Hge].
    + rewrite lookup_app_l in HC by exact Hlt. eapply Hback; eauto.
    + rewrite lookup_app_r in HC by lia.
      destruct (r - length (instances w))%nat; simpl in HC; [|discriminate HC].
      injection HC as <-. apply elem_of_nil in Hin as [].
Qed.

(** What [City.__init__] does when it returns. *)
Lemma City__init___returned
    (name latitude longitude country_arg capital id : string) (w w' : World)
    (self : City) :
  City__init__ name latitude longitude country_arg capital id w
  = Returned (self, w') ->
  exists lat lng,
    py_float latitude = Some lat /\ py_float longitude = Some lng
    /\ Country_countries w !! country_arg = Some (country self)
    /\ self = {| city_name := name; coordinate := (lat, lng);
                 capital_type := CapitalType_of_name capital;
                 country := country self; city_id := id |}
    /\ w' = {| instances := alter (_add_city self) (country self) (instances w);
               Country_countries := Country_countries w;
               City_cities := dict_set id self (City_cities w) |}.
Proof.
  unfold City__init__, float_of, countries_subscript.
  destruct (py_float latitude) as [lat|]; [|discriminate].
  destruct (py_float longitude) as [lng|]; [|discriminate].
  destruct (Country_countries w !! country_arg) as [r|]; [|discriminate].
  cbn. intros [= <- <-]. exists lat, lng. repeat split.
Qed.

Lemma City__init___registry_ok
    (name latitude longitude country_arg capital id : string) (w w' : World)
    (self : City) :
  registry_ok w ->
  City__init__ name latitude longitude country_arg capital id w
  = Returned (self, w') ->
  registry_ok w'.
Proof.
  intros (Hnames & Hnodup & Hcities & Hback) Hinit.
  destruct (City__init___returned _ _ _ _ _ _ _ _ _ Hinit)
    as (lat & lng & _ & _ & Hreg & Hself & ->).
  assert (Hid : city_id self = id) by (rewrite Hself; reflexivity).
  destruct (Hnames _ _ Hreg) as (C0 & HC0 & HC0name).
  unfold country_ref in *.
  split; [|split; [|split]]; simpl.
  - intros name' r Hr. destruct (Hnames _ _ Hr) as (C & HC & Hname).
    destruct (decide (r = country self)) as [->|Hne].
    + exists (_add_city self C). split; [|exact Hname].
      rewrite list_lookup_alter_eq, HC. reflexivity.
    + exists C. split; [|exact Hname].
      rewrite list_lookup_alter_ne by congruence. exact HC.
  - apply dict_set_NoDup, Hnodup.
  - intros id' c Hc.
    apply (elem_of_dict_set _ _ _ _ _ Hnodup) in Hc as [[-> ->]|[Hne Hc]].
    + split; [exact Hid|]. exists (_add_city self C0). split.
      * rewrite list_lookup_alter_eq, HC0. reflexivity.
      * simpl. apply elem_of_app. right. left.
    + destruct (Hcities _ _ Hc) as (Hcid & C & HC & Hin).
      split; [exact Hcid|].
      destruct (decide (country c = country self)) as [Heq|Hneq].
      * exists (_add_city self C). split.
        -- rewrite <- Heq, list_lookup_alter_eq, HC. reflexivity.
        -- simpl. apply elem_of_app. left. exact Hin.
      * exists C. split; [|exact Hin].
        rewrite list_lookup_alter_ne by congruence. exact HC.
  - intros r C c HC Hin.
    destruct (decide (r = country self)) as [->|Hne].
    + rewrite list_lookup_alter_eq, HC0 in HC. injection HC as <-.
      simpl in Hin. apply elem_of_app in Hin as [Hin|Hin].
      * eapply Hback; eauto.
      * apply list_elem_of_singleton in Hin as ->. reflexivity.
    + rewrite list_lookup_alter_ne in HC by congruence. eapply Hback; eauto.
Qed.

(** X8. The two constructors keep the registries consistent, starting from
    the empty ones: every registered name leads to an instance of that name,
    [City.cities] has one entry per identifier, every registered city is filed
    under its own identifier and listed by its country, and the cities that a
    country lists refer to it. *)
Theorem registry_ok_kept :
  registry_ok empty_world
  /\ (forall name iso3_code w,
        registry_ok w -> registry_ok (Country__init__ name iso3_code w).2)
  /\ (forall name latitude longitude country_arg capital id w self w',
        registry_ok w ->
        City__init__ name latitude longitude country_arg capital id w
        = Returned (self, w') ->
        registry_ok w').
Proof.
  split; [|split].
  - apply empty_world_registry_ok.
  - apply Country__init___registry_ok.
  - intros. eapply City__init___registry_ok; eauto.
Qed.

End RegistryProperties.

(** X8 at the registration of Australia in the empty registries. *)
Lemma registry_ok_kept_witness :
  registry_ok (Country__init__ "Australia" "AUS" empty_world).2.
Proof.
  apply (proj1 (proj2 (@registry_ok_kept example_lib))).
  apply (proj1 (@registry_ok_kept example_lib)).
Defined.

Lemma dict_set_keys {V} (k : string) (v v0 : V) (d : pydict V) :
  dict_get k d = Some v0 -> map fst (dict_set k v d) = map fst d.
Proof.
  induction d as [|[k' v'] d IH]; simpl; [discriminate|].
  destruct (decide (k = k')) as [->|Hne]; simpl; [reflexivity|].
  intros Hget. now rewrite IH.
Qed.

Lemma head_filter_app {A} (P : A -> Prop) `{forall x, Decision (P x)}
    (l k : list A) :
  head (filter P (l ++ k))
  = match head (filter P l) with
    | Some x => Some x
    | None => head (filter P k)
    end.
Proof.
  rewrite filter_app. destruct (filter P l); reflexivity.
Qed.

Section CityProperties.
Context {lib : FloatLib}.

(** X9. When [City(...)] returns, the new city holds the given name,
    identifier and capital type, is the entry of [City.cities] for its
    identifier, and is the last city of the country registered under the given
    country name; [get_city] with its name then finds it in that country,
    unless the country already had a city of that name, which is still the
    one found. *)
Theorem City__init___registers
    (name latitude longitude country_arg capital id : string) (w w' : World)
    (self : City) :
  registry_ok w ->
  City__init__ name latitude longitude country_arg capital id w
  = Returned (self, w') ->
  dict_get id (City_cities w') = Some self
  /\ city_name self = name
  /\ city_id self = id
  /\ capital_type self = CapitalType_of_name capital
  /\ countries_subscript country_arg w' = Returned (country self)
  /\ exists C,
       instances w !! country self = Some C
       /\ country_name C = country_arg
       /\ instances w' !! country self = Some (_add_city self C)
       /\ cities (_add_city self C) = (cities C ++ [self])%list
       /\ get_city (_add_city self C) name
          = match get_city C name with
            | Some earlier => Some earlier
            | None => Some self
            end.
Proof.
  intros (Hnames & _ & _ & _) Hinit.
  destruct (City__init___returned _ _ _ _ _ _ _ _ _ Hinit)
    as (lat & lng & _ & _ & Hreg & Hself & ->).
  assert (Hname : city_name self = name) by (rewrite Hself; reflexivity).
  split; [simpl; apply dict_get_set_eq|].
  split; [exact Hname|].
  split; [rewrite Hself; reflexivity|].
  split; [rewrite Hself; reflexivity|].
  split; [unfold countries_subscript; simpl; rewrite Hreg; reflexivity|].
  destruct (Hnames _ _ Hreg) as (C & HC & HCname).
  unfold country_ref in *.
  exists C. split; [exact HC|]. split; [exact HCname|].
  split; [simpl; rewrite list_lookup_alter_eq, HC; reflexivity|].
  split; [reflexivity|].
  unfold get_city. simpl. rewrite head_filter_app.
  destruct (head (filter (fun city => city_name city = name) (cities C)));
    [reflexivity|].
  rewrite filter_cons_True by exact Hname. reflexivity.
Qed.

(** X10. [City(...)] raises [ValueError] when the latitude or the longitude is
    not the text of a float, whatever the country; otherwise it raises
    [KeyError] when no country is registered under the given name; and it
    returns in every other case. *)
Theorem City__init___errors
    (name latitude longitude country_arg capital id : string) (w : World) :
  let result := City__init__ name latitude longitude country_arg capital id w in
  (py_float latitude = None \/ py_float longitude = None ->
   result = Raised ValueError)
  /\ (is_Some (py_float latitude) -> is_Some (py_float longitude) ->
      Country_countries w !! country_arg = None ->
      result = Raised KeyError)
  /\ (is_Some (py_float latitude) -> is_Some (py_float longitude) ->
      is_Some (Country_countries w !! country_arg) ->
      exists self w', result = Returned (self, w')).
Proof.
  cbv zeta. unfold City__init__, float_of, countries_subscript.
  destruct (py_float latitude) as [lat|], (py_float longitude) as [lng|];
    simpl.
  - split; [intros [H|H]; discriminate H|].
    split.
    + intros _ _ ->. reflexivity.
    + intros _ _ [r ->]. simpl. eexists _, _. reflexivity.
  - split; [reflexivity|].
    split; intros _ [x Hx]; discriminate Hx.
  - split; [reflexivity|].
    split; intros [x Hx]; discriminate Hx.
  - split; [reflexivity|].
    split; intros [x Hx]; discriminate Hx.
Qed.

(** X11. A city created under an identifier that is already in use takes the
    place of the earlier city in [City.cities], at the same position, while
    the earlier city stays in the list of its country. *)
Theorem City__init___same_id
    (name latitude longitude country_arg capital id : string) (w w' : World)
    (self old : City) :
  registry_ok w ->
  dict_get id (City_cities w) = Some old ->
  City__init__ name latitude longitude country_arg capital id w
  = Returned (self, w') ->
  dict_get id (City_cities w') = Some self
  /\ map fst (City_cities w') = map fst (City_cities w)
  /\ exists C, instances w' !! country old = Some C /\ old ∈ cities C.
Proof.
  intros (Hnames & _ & Hcities & _) Hold Hinit.
  destruct (City__init___returned _ _ _ _ _ _ _ _ _ Hinit)
    as (lat & lng & _ & _ & Hreg & Hself & ->).
  simpl. split; [apply dict_get_set_eq|].
  split; [exact (dict_set_keys _ _ _ _ Hold)|].
  destruct (Hcities _ _ (dict_get_elem_of _ _ _ Hold)) as (_ & C & HC & Hin).
  unfold country_ref in *.
  destruct (decide (country old = country self)) as [Heq|Hne].
  - exists (_add_city self C). split.
    + rewrite <- Heq, list_lookup_alter_eq, HC. reflexivity.
    + simpl. apply elem_of_app. left. exact Hin.
  - exists C. split; [|exact Hin].
    rewrite list_lookup_alter_ne by congruence. exact HC.
Qed.

End CityProperties.

(** X9 at the registration of Melbourne after that of Australia. *)
Lemma City__init___registers_witness :
  match
    @City__init__ example_lib "Melbourne" "-37.8136" "144.9631" "Australia"
      "admin" "1036533631" (Country__init__ "Australia" "AUS" empty_world).2
  with
  | Returned (self, w') =>
      dict_get "1036533631" (City_cities w') = Some self
      /\ self = melbourne
      /\ countries_subscript "Australia" w' = Returned (country self)
  | Raised _ => False
  end.
Proof.
  destruct (@City__init__ example_lib "Melbourne" "-37.8136" "144.9631"
              "Australia" "admin" "1036533631"
              (Country__init__ "Australia" "AUS" empty_world).2)
    as [[self w']|e] eqn:Hinit.
  - destruct (@City__init___registers example_lib _ _ _ _ _ _ _ _ _
                (@Country__init___registry_ok "Australia" "AUS" empty_world
                   (@empty_world_registry_ok)) Hinit)
      as (Hget & _ & _ & _ & Hcountry & _).
    split; [exact Hget|]. split; [|exact Hcountry].
    vm_compute in Hinit. injection Hinit as <- _. reflexivity.
  - vm_compute in Hinit. discriminate Hinit.
Defined.

(** X10 at a latitude that is no number, at a country that is not registered,
    and at Melbourne in the registered Australia. *)
Lemma City__init___errors_witness :
  @City__init__ example_lib "Melbourne" "south" "144.9631" "Australia" "admin"
    "1036533631" empty_world = Raised ValueError
  /\ @City__init__ example_lib "Melbourne" "-37.8136" "144.9631" "Australia"
       "admin" "1036533631" empty_world = Raised KeyError
  /\ exists self w',
       @City__init__ example_lib "Melbourne" "-37.8136" "144.9631" "Australia"
         "admin" "1036533631" (Country__init__ "Australia" "AUS" empty_world).2
       = Returned (self, w').
Proof.
  split; [|split].
  - apply (proj1 (@City__init___errors example_lib "Melbourne" "south"
                    "144.9631" "Australia" "admin" "1036533631" empty_world)).
    left. reflexivity.
  - apply (proj1 (proj2 (@City__init___errors example_lib "Melbourne" "-37.8136"
                    "144.9631" "Australia" "admin" "1036533631" empty_world))).
    + eexists. reflexivity.
    + eexists. reflexivity.
    + reflexivity.
  - apply (proj2 (proj2 (@City__init___errors example_lib "Melbourne" "-37.8136"
                    "144.9631" "Australia" "admin" "1036533631"
                    (Country__init__ "Australia" "AUS" empty_world).2))).
    + eexists. reflexivity.
    + eexists. reflexivity.
    + eexists. reflexivity.
Defined.

(** The example registries are consistent. *)
Ltac registry_step :=
  match goal with
  | Hok : registry_ok ?w |- context [Country__init__ ?n ?i ?w] =>
      let H := fresh "Hok" in
      pose proof (Country__init___registry_ok n i w Hok) as H;
      destruct (Country__init__ n i w) as [? ?]; simpl in H; clear Hok
  | Hok : registry_ok ?w |- context [City__init__ ?a ?b ?c ?d ?e ?f ?w] =>
      let H := fresh "Hok" in
      let E := fresh "Hinit" in
      destruct (City__init__ a b c d e f w) as [[? ?]|?] eqn:E;
        [|discriminate];
      pose proof (City__init___registry_ok _ _ _ _ _ _ _ _ _ Hok E) as H;
      clear Hok E; cbn [mbind outcome_bind]
  end.

Lemma example_world_registry_ok : registry_ok example_world.
Proof.
  pose proof example_world_created as Hcreated.
  pose proof (@empty_world_registry_ok) as Hok.
  revert Hcreated. unfold create_example_countries_and_cities.
  repeat registry_step.
  intros [= <-]. assumption.
Qed.

Lemma southern_africa_registry_ok : registry_ok southern_africa.
Proof.
  pose proof southern_africa_created as Hcreated.
  pose proof (@empty_world_registry_ok) as Hok.
  revert Hcreated. unfold create_southern_africa.
  repeat registry_step.
  intros [= <-]. assumption.
Qed.

(** X11 at a second city registered under the identifier of Melbourne, in the
    registries of the example. *)
Lemma City__init___same_id_witness :
  match
    @City__init__ example_lib "Geelong" "-38.15" "144.35" "Australia" ""
      "1036533631" example_world
  with
  | Returned (self, w') =>
      dict_get "1036533631" (City_cities w') = Some self
      /\ map fst (City_cities w') = map fst (City_cities example_world)
      /\ exists C, instances w' !! country melbourne = Some C
                   /\ melbourne ∈ cities C
  | Raised _ => False
  end.
Proof.
  destruct (@City__init__ example_lib "Geelong" "-38.15" "144.35" "Australia" ""
              "1036533631" example_world) as [[self w']|e] eqn:Hinit.
  - exact (@City__init___same_id example_lib "Geelong" "-38.15" "144.35"
             "Australia" "" "1036533631" example_world w' self melbourne
             example_world_registry_ok eq_refl Hinit).
  - vm_compute in Hinit. discriminate Hinit.
Defined.

(** ** Dictionaries and graphs *)

Lemma dict_get_keys {V} (k : string) (d : pydict V) :
  k ∈ map fst d <-> exists v, dict_get k d = Some v.
Proof.
  induction d as [|[k' v'] d IH]; simpl.
  - split; [intros H; apply elem_of_nil in H as [] | intros [v H]; discriminate H].
  - destruct (decide (k = k')) as [->|Hne].
    + split; [intros _; eexists; reflexivity | intros _; left].
    + rewrite elem_of_cons, IH. split; [intros [?|?]; [contradiction|assumption]|].
      intros H. right. exact H.
Qed.

Lemma dict_mem_keys {V} (k : string) (d : pydict V) :
  dict_mem k d = true <-> k ∈ map fst d.
Proof.
  rewrite dict_get_keys. unfold dict_mem.
  destruct (dict_get k d) as [v|].
  - split; [intros _; eexists; reflexivity | reflexivity].
  - split; [discriminate | intros [v Hv]; discriminate Hv].
Qed.

Lemma dict_mem_false_keys {V} (k : string) (d : pydict V) :
  dict_mem k d = false <-> k ∉ map fst d.
Proof.
  rewrite <- dict_mem_keys. destruct (dict_mem k d); split; intros H;
    try discriminate H; try reflexivity; try (intros H'; discriminate H').
  exfalso. apply H. reflexivity.
Qed.

Lemma dict_set_keys_iff {V} (k y : string) (v : V) (d : pydict V) :
  y ∈ map fst (dict_set k v d) <-> y = k \/ y ∈ map fst d.
Proof.
  rewrite !dict_get_keys. destruct (decide (y = k)) as [->|Hne].
  - rewrite dict_get_set_eq. split; [intros _; left; reflexivity|].
    intros _. eexists; reflexivity.
  - rewrite dict_get_set_ne by exact Hne.
    split; [intros H; right; exact H | intros [?|H]; [contradiction | exact H]].
Qed.

Lemma edge_unchanged (G G' : Graph) (x y : string) :
  dict_get x G' = dict_get x G -> edge G' x y <-> edge G x y.
Proof. intros Heq. unfold edge. rewrite Heq. reflexivity. Qed.

Lemma add_node_get (n x : string) (G : Graph) :
  dict_get x (add_node n G)
  = match dict_get x G with
    | Some nbrs => Some nbrs
    | None => if decide (x = n) then Some [] else None
    end.
Proof.
  unfold add_node, dict_mem.
  destruct (dict_get n G) as [nn|] eqn:Hn.
  - destruct (dict_get x G) eqn:Hx; [reflexivity|].
    destruct (decide (x = n)) as [->|]; [congruence | reflexivity].
  - destruct (decide (x = n)) as [->|Hne].
    + rewrite dict_get_set_eq, Hn. reflexivity.
    + rewrite dict_get_set_ne by exact Hne. destruct (dict_get x G); reflexivity.
Qed.

Lemma add_node_edge (n x y : string) (G : Graph) :
  edge (add_node n G) x y <-> edge G x y.
Proof.
  unfold edge. rewrite add_node_get.
  destruct (dict_get x G) as [nbrs|]; [reflexivity|].
  destruct (decide (x = n)).
  - split; [intros (nbrs & [= <-] & Hin); apply elem_of_nil in Hin as []|].
    intros (nbrs & H & _). discriminate H.
  - reflexivity.
Qed.

Lemma add_node_keys (n x : string) (G : Graph) :
  x ∈ map fst (add_node n G) <-> x = n \/ x ∈ map fst G.
Proof.
  rewrite !dict_get_keys, add_node_get.
  destruct (dict_get x G) as [nbrs|].
  - split; [intros _; right; eexists; reflexivity | intros _; eexists; reflexivity].
  - destruct (decide (x = n)).
    + split; [intros _; left; assumption | intros _; eexists; reflexivity].
    + split; [intros [v H]; discriminate H|].
      intros [?|[v H]]; [contradiction | discriminate H].
Qed.

Lemma adj_set_keys (u v x : string) (weight : bool) (G : Graph) :
  x ∈ map fst (adj_set u v weight G) <-> x ∈ map fst G.
Proof.
  unfold adj_set. destruct (dict_get u G) as [nbrs|] eqn:Hu; [|reflexivity].
  rewrite dict_set_keys_iff. split; [|intros H; right; exact H].
  intros [->|H]; [|exact H]. apply dict_get_keys. eexists; exact Hu.
Qed.

Lemma adj_set_edge (u v x y : string) (weight : bool) (G : Graph) :
  u ∈ map fst G ->
  edge (adj_set u v weight G) x y <-> edge G x y \/ (x = u /\ y = v).
Proof.
  intros Hu. apply dict_get_keys in Hu as [nbrs Hu].
  unfold adj_set. rewrite Hu. unfold edge.
  destruct (decide (x = u)) as [->|Hne].
  - rewrite dict_get_set_eq, Hu. split.
    + intros (nbrs' & [= <-] & Hin). apply dict_set_keys_iff in Hin as [->|Hin].
      * right. auto.
      * left. exists nbrs. auto.
    + intros [(nbrs' & [= <-] & Hin)|[_ ->]].
      * eexists. split; [reflexivity|]. apply dict_set_keys_iff. right. exact Hin.
      * eexists. split; [reflexivity|]. apply dict_set_keys_iff. left. reflexivity.
  - rewrite dict_get_set_ne by exact Hne.
    split; [intros H; left; exact H | intros [H|[? _]]; [exact H | contradiction]].
Qed.

(** [add_edge] adds the two nodes and the edge, in both directions. *)
Lemma add_edge_keys (u v x : string) (weight : bool) (G : Graph) :
  x ∈ map fst (add_edge u v weight G) <-> x = u \/ x = v \/ x ∈ map fst G.
Proof.
  unfold add_edge. rewrite !adj_set_keys, !add_node_keys. tauto.
Qed.

Lemma add_edge_edge (u v x y : string) (weight : bool) (G : Graph) :
  edge (add_edge u v weight G) x y
  <-> edge G x y \/ (x = u /\ y = v) \/ (x = v /\ y = u).
Proof.
  unfold add_edge.
  rewrite adj_set_edge by (rewrite adj_set_keys, !add_node_keys; tauto).
  rewrite adj_set_edge by (rewrite !add_node_keys; tauto).
  rewrite !add_node_edge. tauto.
Qed.

(** ** The graph of [plot_graph_for_vehicle] *)

Section PlottedGraph.
Context {lib : FloatLib}.

Lemma possible_weight (vehicle : Vehicle) (a b : City) (time : hours) :
  compute_travel_time vehicle a b = Returned time ->
  hours_eqb time Inf = false <-> possible vehicle a b.
Proof.
  intros Htime. unfold possible. rewrite Htime.
  destruct time as [t|]; simpl.
  - split; [intros _; exists t; reflexivity | reflexivity].
  - split; [discriminate | intros [t Ht]; discriminate Ht].
Qed.

(** The inner loop adds the edges from [source] to the later cities that it
    can reach directly. *)
Lemma plot_edges_from_spec (vehicle : Vehicle) (source : City) (later : list City) :
  forall graph graph',
    plot_edges_from vehicle source later graph = Returned graph' ->
    city_id source ∈ map fst graph ->
    (forall b, b ∈ later -> city_id b ∈ map fst graph) ->
    (forall x, x ∈ map fst graph' <-> x ∈ map fst graph)
    /\ (forall x y,
          edge graph' x y
          <-> edge graph x y
              \/ exists b,
                   b ∈ later /\ possible vehicle source b
                   /\ ((x = city_id source /\ y = city_id b)
                       \/ (x = city_id b /\ y = city_id source))).
Proof.
  induction later as [|destination later IH]; intros graph graph' Hplot Hs Hl;
    simpl in Hplot.
  - injection Hplot as <-. split; [reflexivity|].
    intros x y. split; [intros H; left; exact H|].
    intros [H|(b & Hb & _)]; [exact H | apply elem_of_nil in Hb as []].
  - destruct (compute_travel_time vehicle source destination) as [time|e] eqn:Ht;
      [|discriminate Hplot].
    cbn [mbind outcome_bind] in Hplot.
    pose proof (possible_weight _ _ _ _ Ht) as Hposs.
    destruct (hours_eqb time Inf) eqn:Hw.
    + destruct (IH _ _ Hplot Hs) as [Hkeys Hedges].
      { intros b Hb. apply Hl. right. exact Hb. }
      split; [exact Hkeys|]. intros x y. rewrite Hedges.
      split; [intros [H|(b & Hb & Hp & Hxy)]; [left; exact H|] |].
      * right. exists b. split; [right; exact Hb | auto].
      * intros [H|(b & Hb & Hp & Hxy)]; [left; exact H|].
        apply elem_of_cons in Hb as [->|Hb].
        -- apply Hposs in Hp. discriminate Hp.
        -- right. exists b. auto.
    + assert (Hd : city_id destination ∈ map fst graph) by (apply Hl; left).
      destruct (IH _ _ Hplot) as [Hkeys Hedges].
      { apply add_edge_keys. auto. }
      { intros b Hb. apply add_edge_keys. right. right. apply Hl. right. exact Hb. }
      split.
      * intros x. rewrite Hkeys, add_edge_keys.
        split; [intros [->|[->|H]]; assumption | auto].
      * intros x y. rewrite Hedges, add_edge_edge.
        assert (Hp : possible vehicle source destination)
          by (apply Hposs; reflexivity).
        split.
        -- intros [[H|H]|(b & Hb & Hpb & Hxy)].
           ++ left. exact H.
           ++ right. exists destination. split; [left|]. split; [exact Hp | exact H].
           ++ right. exists b. split; [right; exact Hb | auto].
        -- intros [H|(b & Hb & Hpb & Hxy)]; [left; left; exact H|].
           apply elem_of_cons in Hb as [->|Hb].
           ++ left. right. exact Hxy.
           ++ right. exists b. auto.
Qed.

(** The two loops add an edge for every pair of cities, the first before the
    second in the list, between which the vehicle can travel directly. *)
Lemma plot_edges_spec (vehicle : Vehicle) (cities_from_i : list City) :
  forall graph graph',
    plot_edges vehicle cities_from_i graph = Returned graph' ->
    (forall b, b ∈ cities_from_i -> city_id b ∈ map fst graph) ->
    (forall x, x ∈ map fst graph' <-> x ∈ map fst graph)
    /\ (forall x y,
          edge graph' x y
          <-> edge graph x y
              \/ exists i j a b,
                   (i < j)%nat /\ cities_from_i !! i = Some a
                   /\ cities_from_i !! j = Some b
                   /\ possible vehicle a b
                   /\ ((x = city_id a /\ y = city_id b)
                       \/ (x = city_id b /\ y = city_id a))).
Proof.
  induction cities_from_i as [|source later IH]; intros graph graph' Hplot Hl;
    simpl in Hplot.
  - injection Hplot as <-. split; [reflexivity|].
    intros x y. split; [intros H; left; exact H|].
    intros [H|(i & j & a & b & _ & Hi & _)]; [exact H | discriminate Hi].
  - destruct (plot_edges_from vehicle source later graph) as [graph1|e] eqn:Hfrom;
      [|discriminate Hplot].
    cbn [mbind outcome_bind] in Hplot.
    destruct (plot_edges_from_spec _ _ _ _ _ Hfrom) as [Hkeys1 Hedges1].
    { apply Hl. left. }
    { intros b Hb. apply Hl. right. exact Hb. }
    destruct (IH _ _ Hplot) as [Hkeys Hedges].
    { intros b Hb. apply Hkeys1, Hl. right. exact Hb. }
    split; [intros x; rewrite Hkeys; apply Hkeys1|].
    intros x y. rewrite Hedges, Hedges1. split.
    + intros [[H|(b & Hb & Hp & Hxy)]|(i & j & a & b & Hij & Hi & Hj & Hp & Hxy)].
      * left. exact H.
      * right. apply list_elem_of_lookup in Hb as [j Hj].
        exists 0%nat, (S j), source, b. split; [lia|]. auto.
      * right. exists (S i), (S j), a, b. split; [lia|]. auto.
    + intros [H|(i & j & a & b & Hij & Hi & Hj & Hp & Hxy)]; [left; left; exact H|].
      destruct j as [|j]; [lia|]. simpl in Hj.
      destruct i as [|i]; simpl in Hi.
      * injection Hi as <-. left. right. exists b. split; [|auto].
        apply list_elem_of_lookup. exists j. exact Hj.
      * right. exists i, j, a, b. split; [lia|]. auto.
Qed.

Lemma foldl_add_node_spec (l : list City) :
  forall graph,
    (forall x, x ∈ map fst (foldl (fun graph city => add_node (city_id city) graph)
                              graph l)
               <-> x ∈ map fst graph \/ x ∈ map city_id l)
    /\ (forall x y,
          edge (foldl (fun graph city => add_node (city_id city) graph) graph l)
            x y <-> edge graph x y).
Proof.
  induction l as [|city l IH]; intros graph; simpl.
  - split; [|reflexivity]. intros x. split; [auto|].
    intros [H|H]; [exact H | apply elem_of_nil in H as []].
  - destruct (IH (add_node (city_id city) graph)) as [Hkeys Hedges]. split.
    + intros x. rewrite Hkeys, add_node_keys, elem_of_cons. tauto.
    + intros x y. rewrite Hedges. apply add_node_edge.
Qed.

(** The nodes of the graph are the identifiers of the registered cities, and
    its edges join the pairs of registered cities, the first registered before
    the second, between which the vehicle can travel directly. *)
Lemma plot_graph_spec (vehicle : Vehicle) (w : World) (graph : Graph) :
  plot_graph_for_vehicle vehicle w = Returned graph ->
  (forall x, x ∈ map fst graph <-> x ∈ map city_id (dict_values (City_cities w)))
  /\ (forall x y,
        edge graph x y
        <-> exists i j a b,
              (i < j)%nat /\ dict_values (City_cities w) !! i = Some a
              /\ dict_values (City_cities w) !! j = Some b
              /\ possible vehicle a b
              /\ ((x = city_id a /\ y = city_id b)
                  \/ (x = city_id b /\ y = city_id a))).
Proof.
  unfold plot_graph_for_vehicle. intros Hplot.
  destruct (foldl_add_node_spec (dict_values (City_cities w)) []) as [Hkeys0 Hedges0].
  destruct (plot_edges_spec _ _ _ _ Hplot) as [Hkeys Hedges].
  { intros b Hb. apply Hkeys0. right. apply list_elem_of_fmap. exists b. auto. }
  split.
  - intros x. rewrite Hkeys, Hkeys0. split; [|auto].
    intros [H|H]; [apply elem_of_nil in H as [] | exact H].
  - intros x y. rewrite Hedges, Hedges0. split; [|auto].
    intros [(nbrs & H & _)|H]; [discriminate H | exact H].
Qed.

(** The graph is built when the travel time can be computed from every
    registered city to every city registered after it. *)
Lemma plot_edges_from_returns (vehicle : Vehicle) (source : City)
    (later : list City) :
  (forall destination,
     destination ∈ later ->
     exists h, compute_travel_time vehicle source destination = Returned h) ->
  forall graph, exists graph', plot_edges_from vehicle source later graph = Returned graph'.
Proof.
  induction later as [|destination later IH]; intros Hlater graph; simpl.
  - eexists; reflexivity.
  - destruct (Hlater destination) as [h ->]; [left|].
    cbn [mbind outcome_bind].
    destruct (hours_eqb h Inf); apply IH; intros d Hd; apply Hlater; right; exact Hd.
Qed.

Lemma plot_graph_returns (vehicle : Vehicle) (w : World) :
  (forall i j a b,
     (i < j)%nat ->
     dict_values (City_cities w) !! i = Some a ->
     dict_values (City_cities w) !! j = Some b ->
     exists h, compute_travel_time vehicle a b = Returned h) ->
  exists graph, plot_graph_for_vehicle vehicle w = Returned graph.
Proof.
  unfold plot_graph_for_vehicle.
  generalize (foldl (fun graph city => add_node (city_id city) graph) []
                (dict_values (City_cities w))).
  induction (dict_values (City_cities w)) as [|source later IH];
    intros graph Hpairs; simpl; [eexists; reflexivity|].
  destruct (plot_edges_from_returns vehicle source later) with (graph := graph)
    as [graph1 ->].
  { intros destination Hd. apply list_elem_of_lookup in Hd as [j Hj].
    apply (Hpairs 0%nat (S j)); [lia | reflexivity | exact Hj]. }
  cbn [mbind outcome_bind]. apply IH.
  intros i j a b Hij Ha Hb. apply (Hpairs (S i) (S j)); [lia | exact Ha | exact Hb].
Qed.

End PlottedGraph.

(** ** The search of networkx on a graph of [False] weights *)

Lemma heappush_nodes (e : entry) (l : list entry) (x : string) :
  x ∈ map snd (heappush e l) <-> x = e.2 \/ x ∈ map snd l.
Proof.
  induction l as [|y l IH]; simpl.
  - rewrite list_elem_of_singleton. split; [auto|].
    intros [H|H]; [exact H | apply elem_of_nil in H as []].
  - destruct (entry_ltb e y); simpl; rewrite !elem_of_cons; [tauto|].
    rewrite IH. tauto.
Qed.

Lemma heappush_Forall (P : entry -> Prop) (e : entry) (l : list entry) :
  P e -> Forall P l -> Forall P (heappush e l).
Proof.
  intros He Hl. induction Hl as [|y l Hy Hl IH]; simpl.
  - repeat constructor. exact He.
  - destruct (entry_ltb e y); repeat constructor; assumption.
Qed.

Lemma relax_inv (G : Graph) (source v : string) (items : pydict bool) :
  forall s,
    Forall (fun item : string * bool => item.2 = false) items ->
    (forall u, u ∈ map fst items -> edge G v u /\ u ∈ map fst G) ->
    v ∈ map fst (paths s) ->
    search_inv G source s ->
    exists s',
      relax v 0 items s = Returned s'
      /\ search_inv G source s'
      /\ dist s' = dist s
      /\ (forall x, x ∈ map fst (seen s) -> x ∈ map fst (seen s'))
      /\ (forall u, u ∈ map fst items -> u ∈ map fst (seen s')).
Proof.
  induction items as [|[u e] items IH]; intros s Hfalse Hitems Hv Hinv.
  - exists s. split; [reflexivity|]. split; [exact Hinv|].
    split; [reflexivity|]. split; [auto|].
    intros u Hu. apply elem_of_nil in Hu as [].
  - apply Forall_cons in Hfalse as [He Hfalse]. simpl in He. subst e.
    assert (Hitems' : forall u0, u0 ∈ map fst items ->
                        edge G v u0 /\ u0 ∈ map fst G).
    { intros u0 Hu0. apply Hitems. right. exact Hu0. }
    destruct (Hitems u) as [Hedge HuG]; [left|].
    pose proof Hinv as (Hd0 & Hs0 & Hf0 & HFS & HDS & HSDF & HSG & Hwalk & Hsrc).
    cbn [relax]. change (0 + Z.b2z false) with 0.
    destruct (dict_get u (dist s)) as [u_dist|] eqn:Hud.
    + pose proof (Forall_dict_get (fun d : Z => d = 0) _ _ _ Hd0 Hud) as Hz.
      simpl in Hz. subst u_dist. change (0 <? 0) with false. cbv iota.
      destruct (IH s Hfalse Hitems' Hv Hinv) as (s' & Hr & Hinv' & Hd & Hmono & Hseen).
      exists s'. split; [exact Hr|]. split; [exact Hinv'|].
      split; [exact Hd|]. split; [exact Hmono|].
      intros u0 Hu0. apply elem_of_cons in Hu0 as [->|Hu0]; [|auto].
      apply Hmono, HDS. apply dict_get_keys. eexists; exact Hud.
    + destruct (dict_get u (seen s)) as [seen_u|] eqn:Hus.
      * pose proof (Forall_dict_get (fun d : Z => d = 0) _ _ _ Hs0 Hus) as Hz.
        simpl in Hz. subst seen_u. change (0 <? 0) with false. cbv iota.
        destruct (IH s Hfalse Hitems' Hv Hinv)
          as (s' & Hr & Hinv' & Hd & Hmono & Hseen).
        exists s'. split; [exact Hr|]. split; [exact Hinv'|].
        split; [exact Hd|]. split; [exact Hmono|].
        intros u0 Hu0. apply elem_of_cons in Hu0 as [->|Hu0]; [|auto].
        apply Hmono. apply dict_get_keys. eexists; exact Hus.
      * cbv iota. apply dict_get_keys in Hv as [paths_v Hpv].
        rewrite Hpv. cbn [subscript mbind outcome_bind].
        set (s1 := {| dist := dist s; seen := dict_set u 0 (seen s);
                      paths := dict_set u (paths_v ++ [u]) (paths s);
                      fringe := heappush (0, c s, u) (fringe s);
                      c := S (c s) |}).
        assert (Hinv1 : search_inv G source s1).
        { unfold search_inv, s1; simpl. repeat split.
          - exact Hd0.
          - apply (Forall_dict_set (fun d : Z => d = 0)); [reflexivity | exact Hs0].
          - apply heappush_Forall; [reflexivity | exact Hf0].
          - intros x Hx. apply heappush_nodes in Hx. apply dict_set_keys_iff.
            simpl in Hx. destruct Hx as [->|Hx]; [left; reflexivity | right; auto].
          - intros x Hx. apply dict_set_keys_iff. right. auto.
          - intros x Hx. apply dict_set_keys_iff in Hx as [->|Hx].
            + right. apply heappush_nodes. left. reflexivity.
            + destruct (HSDF x Hx) as [H|H]; [left; exact H|].
              right. apply heappush_nodes. right. exact H.
          - apply dict_set_keys_iff in H as [->|Hx]; [exact HuG | apply HSG, Hx].
          - apply dict_set_keys_iff. apply dict_set_keys_iff in H as [->|Hx];
              [left; reflexivity | right; apply HSG, Hx].
          - intros x p. destruct (decide (x = u)) as [->|Hne].
            + rewrite dict_get_set_eq. intros [= <-].
              apply (walk_step G source v u); [apply Hwalk, Hpv | exact Hedge].
            + rewrite dict_get_set_ne by exact Hne. apply Hwalk.
          - apply dict_set_keys_iff. right. exact Hsrc. }
        destruct (IH s1 Hfalse Hitems') as (s' & Hr & Hinv' & Hd & Hmono & Hseen);
          [|exact Hinv1|].
        { unfold s1; simpl. apply dict_set_keys_iff. right.
          apply dict_get_keys. eexists; exact Hpv. }
        exists s'. split; [exact Hr|]. split; [exact Hinv'|].
        split; [exact Hd|]. split.
        -- intros x Hx. apply Hmono. unfold s1; simpl.
           apply dict_set_keys_iff. right. exact Hx.
        -- intros u0 Hu0. apply elem_of_cons in Hu0 as [->|Hu0]; [|auto].
           apply Hmono. unfold s1; simpl. apply dict_set_keys_iff. left.
           reflexivity.
Qed.

Lemma dijkstra_loop_inv (G : Graph) (source target : string) (budget : nat) :
  graph_ok G ->
  forall s,
    search_inv G source s ->
    closed G s ->
    match dijkstra_loop budget G target s with
    | Returned s' =>
        search_inv G source s'
        /\ (target ∈ map fst (dist s') \/ (fringe s' = [] /\ closed G s'))
    | Raised e => e = LoopBudget
    end.
Proof.
  intros [Hweights Hnodes].
  induction budget as [|budget IH]; intros s Hinv Hclosed;
    destruct s as [dist_s seen_s paths_s fringe_s c_s];
    destruct fringe_s as [|[[d c0] v] fringe'];
    cbn [dijkstra_loop fringe dist seen paths c];
    try (split; [exact Hinv | right; split; [reflexivity | exact Hclosed]]);
    [reflexivity|].
  destruct Hinv as (Hd0 & Hs0 & Hf0 & HFS & HDS & HSDF & HSG & Hwalk & Hsrc).
  simpl in Hd0, Hs0, Hf0, HFS, HDS, HSDF, HSG, Hwalk, Hsrc.
  apply Forall_cons in Hf0 as [Hd Hf0]. simpl in Hd. subst d.
  assert (HvS : v ∈ map fst seen_s) by (apply HFS; left).
  destruct (dict_mem v dist_s) eqn:Hv.
  - apply dict_mem_keys in Hv. apply IH.
    + repeat split; simpl; try assumption.
      * intros x Hx. apply HFS. right. exact Hx.
      * intros x Hx. destruct (HSDF x Hx) as [H|H]; [left; exact H|].
        apply elem_of_cons in H as [->|H]; [left; exact Hv | right; exact H].
      * apply HSG, H.
      * apply HSG, H.
    + exact Hclosed.
  - apply dict_mem_false_keys in Hv.
    set (s2 := {| dist := dict_set v 0 dist_s; seen := seen_s; paths := paths_s;
                  fringe := fringe'; c := c_s |}).
    assert (Hinv2 : search_inv G source s2).
    { unfold search_inv, s2; simpl. repeat split; try assumption.
      - apply (Forall_dict_set (fun d : Z => d = 0)); [reflexivity | exact Hd0].
      - intros x Hx. apply HFS. right. exact Hx.
      - intros x Hx. apply dict_set_keys_iff in Hx as [->|Hx]; [exact HvS | auto].
      - intros x Hx. destruct (HSDF x Hx) as [H|H].
        + left. apply dict_set_keys_iff. right. exact H.
        + apply elem_of_cons in H as [->|H]; [|right; exact H].
          left. apply dict_set_keys_iff. left. reflexivity.
      - apply HSG, H.
      - apply HSG, H. }
    destruct (decide (v = target)) as [->|Hne].
    + split; [exact Hinv2|]. left. simpl. apply dict_set_keys_iff. left.
      reflexivity.
    + destruct (HSG v HvS) as [HvG HvP].
      apply dict_get_keys in HvG as [items Hitems]. rewrite Hitems.
      cbn [subscript mbind outcome_bind].
      destruct (relax_inv G source v items s2)
        as (s3 & Hrelax & Hinv3 & Hdist3 & Hmono & Hseen3).
      * exact (Forall_dict_get
                 (Forall (fun edge : string * bool => edge.2 = false))
                 _ _ _ Hweights Hitems).
      * intros u Hu. assert (Hedge : edge G v u) by (exists items; auto).
        split; [exact Hedge | exact (Hnodes _ _ Hedge)].
      * exact HvP.
      * exact Hinv2.
      * fold s2. rewrite Hrelax. cbn [mbind outcome_bind]. apply IH; [exact Hinv3|].
        intros x y Hx Hedge. rewrite Hdist3 in Hx. simpl in Hx.
        apply dict_set_keys_iff in Hx as [->|Hx].
        -- apply Hseen3. destruct Hedge as (nbrs & Hn & Hy).
           rewrite Hitems in Hn. injection Hn as <-. exact Hy.
        -- apply Hmono. exact (Hclosed x y Hx Hedge).
Qed.

(** When the fringe is empty, every node to which a walk leads from the source
    has a final distance. *)
Lemma closed_walk (G : Graph) (source : string) (s : search) :
  search_inv G source s ->
  closed G s ->
  fringe s = [] ->
  forall x p, walk G source x p -> x ∈ map fst (dist s).
Proof.
  intros (_ & _ & _ & _ & _ & HSDF & _ & _ & Hsrc) Hclosed Hfringe x p Hwalk.
  assert (HSD : forall y, y ∈ map fst (seen s) -> y ∈ map fst (dist s)).
  { intros y Hy. destruct (HSDF y Hy) as [H|H]; [exact H|].
    rewrite Hfringe in H. apply elem_of_nil in H as []. }
  induction Hwalk as [|b c0 p Hwalk IH Hedge].
  - apply HSD, Hsrc.
  - apply HSD. exact (Hclosed b c0 IH Hedge).
Qed.

(** On such a graph [dijkstra_path] returns a walk from the source to the
    target when there is one, raises [NetworkXNoPath] when there is none, and
    raises [NodeNotFound] when the source is not a node. *)
Lemma dijkstra_path_spec (G : Graph) (source target : string) :
  graph_ok G ->
  match dijkstra_path G source target with
  | Returned p => walk G source target p
  | Raised e =>
      (e = NodeNotFound /\ source ∉ map fst G)
      \/ (e = NetworkXNoPath /\ forall p, ~ walk G source target p)
  end.
Proof.
  intros HG. pose proof (dijkstra_budget_enough G source target) as Hbudget.
  revert Hbudget. unfold dijkstra_path.
  destruct (dict_mem source G) eqn:Hsrc; cbn [negb].
  2: { intros _. left. split; [reflexivity|]. apply dict_mem_false_keys, Hsrc. }
  apply dict_mem_keys in Hsrc.
  destruct (decide (target = source)) as [->|Hne]; [intros _; constructor|].
  set (s0 := {| dist := []; seen := [(source, 0)]; paths := [(source, [source])];
                fringe := [(0, 0%nat, source)]; c := 1%nat |}).
  assert (Hinv0 : search_inv G source s0).
  { unfold search_inv, s0; simpl. repeat split.
    - constructor.
    - repeat constructor.
    - repeat constructor.
    - auto.
    - intros x Hx. apply elem_of_nil in Hx as [].
    - intros x Hx. right. exact Hx.
    - apply list_elem_of_singleton in H as ->. exact Hsrc.
    - exact H.
    - intros x p. destruct (decide (x = source)) as [->|Hx]; [|discriminate].
      intros [= <-]. constructor.
    - left. }
  assert (Hclosed0 : closed G s0).
  { intros x y Hx. apply elem_of_nil in Hx as []. }
  pose proof (dijkstra_loop_inv G source target (dijkstra_budget G) HG s0
                Hinv0 Hclosed0) as Hloop.
  destruct (dijkstra_loop (dijkstra_budget G) G target s0) as [s'|e].
  - cbn [mbind outcome_bind]. intros _.
    destruct Hloop as [Hinv' Hend].
    pose proof Hinv' as (_ & _ & _ & _ & HDS & _ & HSG & Hwalk & _).
    destruct (dict_get target (dist s')) as [dt|] eqn:Hdt.
    + assert (HtP : target ∈ map fst (paths s')).
      { apply HSG, HDS. apply dict_get_keys. eexists; exact Hdt. }
      apply dict_get_keys in HtP as [p Hp]. rewrite Hp. apply Hwalk, Hp.
    + right. split; [reflexivity|]. intros p Hp.
      assert (Hnot : target ∉ map fst (dist s')).
      { intros Hin. apply dict_get_keys in Hin as [v Hv]. congruence. }
      destruct Hend as [Hin|[Hfringe Hclosed]]; [contradiction|].
      apply Hnot. exact (closed_walk G source s' Hinv' Hclosed Hfringe target p Hp).
  - cbn [mbind outcome_bind]. subst e. intros H. contradiction.
Qed.

(** ** Routes *)

Lemma legs_snoc (cs : list City) (c : City) :
  legs (cs ++ [c])
  = legs cs ++ match last cs with
               | Some l => [(l, c)]
               | None => []
               end.
Proof.
  induction cs as [|a cs IH]; [reflexivity|].
  destruct cs as [|b cs]; [reflexivity|].
  change (legs ((a :: b :: cs) ++ [c])) with ((a, b) :: legs ((b :: cs) ++ [c])).
  rewrite IH. reflexivity.
Qed.

Lemma Forall_exists_Forall2 {A B} (R : A -> B -> Prop) (l : list A) :
  Forall (fun x => exists y, R x y) l -> exists k, Forall2 R l k.
Proof.
  induction 1 as [|x l [y Hy] _ [k Hk]].
  - exists []. constructor.
  - exists (y :: k). constructor; assumption.
Qed.

Section RouteProperties.
Context {lib : FloatLib}.

Lemma possible_both_ways_car (speed : Z) :
  possible_both_ways (CrappyCrepeCar speed).
Proof.
  intros a b [t Ht]. unfold possible. simpl in *. unfold py_ceil_truediv in *.
  destruct (speed =? 0); [discriminate Ht|]. eexists; reflexivity.
Qed.

Lemma possible_both_ways_dinghy (in_country_speed between_primary_speed : Z) :
  possible_both_ways (DiplomacyDonutDinghy in_country_speed between_primary_speed).
Proof.
  intros a b [t Ht]. unfold possible. simpl in *.
  destruct (decide (country a = country b)) as [Heq|Hne].
  - rewrite (bool_decide_eq_true_2 _ Heq) in Ht.
    rewrite (bool_decide_eq_true_2 (country b = country a)) by congruence.
    cbn [negb andb] in *. unfold py_ceil_truediv in *.
    destruct (in_country_speed =? 0); [discriminate Ht|]. eexists; reflexivity.
  - rewrite (bool_decide_eq_false_2 _ Hne) in Ht.
    rewrite (bool_decide_eq_false_2 (country b = country a)) by congruence.
    cbn [negb andb] in *.
    rewrite (orb_comm (bool_decide (capital_type b <> primary))).
    destruct (bool_decide (capital_type a <> primary)
              || bool_decide (capital_type b <> primary)); [discriminate Ht|].
    unfold py_ceil_truediv in *.
    destruct (between_primary_speed =? 0); [discriminate Ht|].
    eexists; reflexivity.
Qed.

Lemma possible_both_ways_trolley (travel_time max_distance : Z) :
  (forall a b, distance a b = distance b a) ->
  possible_both_ways (TeleportingTarteTrolley travel_time max_distance).
Proof.
  intros Hsym a b [t Ht]. unfold possible. simpl in *.
  rewrite (Hsym b a). destruct (max_distance <=? distance a b);
    [discriminate Ht | eexists; reflexivity].
Qed.

(** When every leg is possible, the trip takes a finite time. *)
Lemma total_travel_time_possible (vehicle : Vehicle) (seq : list City) :
  Forall (fun leg => possible vehicle leg.1 leg.2) (legs seq) ->
  exists t, total_travel_time {| sequence := seq |} vehicle = Returned (Finite t).
Proof.
  intros Hlegs.
  destruct (Forall_exists_Forall2
              (fun leg t => compute_travel_time vehicle leg.1 leg.2
                            = Returned (Finite t)) _ Hlegs) as [times Htimes].
  exists (0 + foldr Z.add 0 times). unfold total_travel_time. simpl.
  apply total_travel_time_from_finite, Htimes.
Qed.

Section Registry.
Variable w : World.
Hypothesis Hok : registry_ok w.

Lemma registered_values (k : string) (c : City) :
  dict_get k (City_cities w) = Some c ->
  c ∈ dict_values (City_cities w) /\ city_id c = k.
Proof.
  intros Hget. apply dict_get_elem_of in Hget.
  destruct Hok as (_ & _ & Hcities & _).
  split; [|apply (Hcities _ _ Hget)].
  apply list_elem_of_fmap. exists (k, c). auto.
Qed.

Lemma values_registered (c : City) :
  c ∈ dict_values (City_cities w) ->
  dict_get (city_id c) (City_cities w) = Some c.
Proof.
  intros Hin. apply list_elem_of_fmap in Hin as ([k c'] & -> & Hin). simpl.
  destruct Hok as (_ & Hnodup & Hcities & _).
  destruct (Hcities _ _ Hin) as [-> _].
  apply elem_of_dict_get; assumption.
Qed.

Variable vehicle : Vehicle.
Variable graph : Graph.
Hypothesis Hplot : plot_graph_for_vehicle vehicle w = Returned graph.
Hypothesis Hways : possible_both_ways vehicle.

Lemma plotted_graph_ok : graph_ok graph.
Proof.
  split.
  - revert Hplot. unfold plot_graph_for_vehicle. apply plot_edges_weights_false.
    generalize (dict_values (City_cities w)). intros l.
    assert (Hgen : forall G, all_weights_false G ->
              all_weights_false
                (foldl (fun graph city => add_node (city_id city) graph) G l)).
    { induction l as [|city l IH]; intros G HG; simpl; [exact HG|].
      apply IH, add_node_weights_false, HG. }
    apply Hgen. constructor.
  - destruct (plot_graph_spec _ _ _ Hplot) as [Hkeys Hedges].
    intros x y Hedge. apply Hedges in Hedge
      as (i & j & a & b & _ & Hi & Hj & _ & [[_ ->]|[_ ->]]);
      apply Hkeys, list_elem_of_fmap; eexists; (split; [reflexivity|]);
      apply list_elem_of_lookup; eexists; eassumption.
Qed.

(** An edge of the graph is a possible leg between the registered cities of
    its two nodes. *)
Lemma edge_linked (x y : string) (cx cy : City) :
  edge graph x y ->
  dict_get x (City_cities w) = Some cx ->
  dict_get y (City_cities w) = Some cy ->
  linked vehicle w cx cy.
Proof.
  intros Hedge Hx Hy.
  destruct (plot_graph_spec _ _ _ Hplot) as [_ Hedges].
  apply Hedges in Hedge as (i & j & a & b & _ & Hi & Hj & Hp & Hxy).
  assert (Ha : a ∈ dict_values (City_cities w))
    by (apply list_elem_of_lookup; eexists; eassumption).
  assert (Hb : b ∈ dict_values (City_cities w))
    by (apply list_elem_of_lookup; eexists; eassumption).
  pose proof (values_registered a Ha) as Hga.
  pose proof (values_registered b Hb) as Hgb.
  destruct Hxy as [[-> ->]|[-> ->]].
  - assert (cx = a) by congruence. assert (cy = b) by congruence. subst.
    repeat split; assumption.
  - assert (cx = b) by congruence. assert (cy = a) by congruence. subst.
    repeat split; try assumption. apply Hways, Hp.
Qed.

Lemma linked_edge (a b : City) :
  linked vehicle w a b -> a = b \/ edge graph (city_id a) (city_id b).
Proof.
  intros (Ha & Hb & Hp).
  destruct (plot_graph_spec _ _ _ Hplot) as [_ Hedges].
  apply list_elem_of_lookup in Ha as [i Hi].
  apply list_elem_of_lookup in Hb as [j Hj].
  destruct (lt_eq_lt_dec i j) as [[Hlt|Heq]|Hgt].
  - right. apply Hedges. exists i, j, a, b.
    split; [exact Hlt|]. split; [exact Hi|]. split; [exact Hj|].
    split; [exact Hp | left; auto].
  - left. subst j. congruence.
  - right. apply Hedges. exists j, i, b, a.
    split; [exact Hgt|]. split; [exact Hj|]. split; [exact Hi|].
    split; [apply Hways, Hp | right; auto].
Qed.

(** A walk in the graph, read as cities, is a chain of possible legs. *)
Lemma walk_legs (source x : string) (p : list string) :
  walk graph source x p ->
  forall cs,
    Forall2 (fun k c => dict_get k (City_cities w) = Some c) p cs ->
    Forall (fun leg => linked vehicle w leg.1 leg.2) (legs cs)
    /\ exists cx, last cs = Some cx /\ dict_get x (City_cities w) = Some cx.
Proof.
  induction 1 as [|b c0 p Hwalk IH Hedge]; intros cs Hcs.
  - inversion Hcs as [|k c1 p' cs' Hc1 Hrest]; subst.
    inversion Hrest; subst. split; [constructor|].
    exists c1. split; [reflexivity | exact Hc1].
  - apply Forall2_app_inv_l in Hcs as (cs1 & cs2 & Hcs1 & Hcs2 & ->).
    inversion Hcs2 as [|k c1 p' cs' Hc1 Hrest]; subst.
    inversion Hrest; subst.
    destruct (IH _ Hcs1) as [Hlegs (cb & Hlast & Hcb)].
    split.
    + rewrite legs_snoc, Hlast. apply Forall_app. split; [exact Hlegs|].
      constructor; [|constructor]. simpl.
      exact (edge_linked b c0 cb c1 Hedge Hcb Hc1).
    + exists c1. split; [apply last_snoc | exact Hc1].
Qed.

(** A chain of possible legs between registered cities is a walk in the
    graph. *)
Lemma route_walk (from_city to_city : City) :
  rtc (linked vehicle w) from_city to_city ->
  city_id from_city ∈ map fst graph ->
  exists p, walk graph (city_id from_city) (city_id to_city) p.
Proof.
  intros Hroute Hfrom. revert to_city Hroute.
  apply (rtc_ind_r (fun c => exists p,
                      walk graph (city_id from_city) (city_id c) p)).
  - exists [city_id from_city]. constructor.
  - intros y z Hrtc Hlinked [p Hp].
    destruct (linked_edge _ _ Hlinked) as [<-|Hedge].
    + exists p. exact Hp.
    + exists (p ++ [city_id z]). econstructor; eassumption.
Qed.

Lemma legs_route (cs : list City) :
  Forall (fun leg => linked vehicle w leg.1 leg.2) (legs cs) ->
  forall a b, head cs = Some a -> last cs = Some b ->
  rtc (linked vehicle w) a b.
Proof.
  induction cs as [|c cs IH]; intros Hlegs a b Ha Hb; [discriminate Ha|].
  injection Ha as ->.
  destruct cs as [|c' cs].
  - injection Hb as ->. constructor.
  - rewrite legs_cons in Hlegs. apply Forall_cons in Hlegs as [Hleg Hlegs].
    simpl in Hleg. apply (rtc_l _ _ c'); [exact Hleg|].
    apply IH; [exact Hlegs | reflexivity | exact Hb].
Qed.

End Registry.
End RouteProperties.

(** ** path_finding.py: the trip that is returned *)

Lemma walk_head (G : Graph) (a x : string) (p : list string) :
  walk G a x p -> exists p', p = a :: p'.
Proof.
  induction 1 as [|b c0 p Hwalk [p' ->] Hedge].
  - exists []. reflexivity.
  - exists (p' ++ [c0]). reflexivity.
Qed.

Lemma walk_nodes (G : Graph) (a x : string) (p : list string) :
  graph_ok G -> a ∈ map fst G -> walk G a x p -> Forall (fun k => k ∈ map fst G) p.
Proof.
  intros [_ Hnodes] Ha. induction 1 as [|b c0 p Hwalk IH Hedge].
  - repeat constructor. exact Ha.
  - apply Forall_app. split; [exact IH|].
    repeat constructor. exact (Hnodes _ _ Hedge).
Qed.

Lemma add_path_returned (w : World) (path : list string) (cs : list City) :
  Forall2 (fun k c => dict_get k (City_cities w) = Some c) path cs ->
  forall trip,
    add_path path w trip = Returned {| sequence := sequence trip ++ cs |}.
Proof.
  induction 1 as [|k c path cs Hk _ IH]; intros trip; simpl.
  - rewrite app_nil_r. destruct trip. reflexivity.
  - rewrite Hk. cbn [subscript mbind outcome_bind]. rewrite IH. simpl.
    rewrite <- app_assoc. reflexivity.
Qed.

Section ShortestPathProperties.
Context {lib : FloatLib}.

(** On consistent registries, for a vehicle whose possible legs are possible
    both ways, and between two registered cities: when the graph is built,
    [find_shortest_path] returns a trip from the one to the other made of
    possible legs if a chain of possible legs joins them, and [None] if
    not. *)
Lemma find_shortest_path_core (vehicle : Vehicle) (w : World) (graph : Graph)
    (from_city to_city : City) :
  registry_ok w ->
  plot_graph_for_vehicle vehicle w = Returned graph ->
  possible_both_ways vehicle ->
  dict_get (city_id from_city) (City_cities w) = Some from_city ->
  dict_get (city_id to_city) (City_cities w) = Some to_city ->
  (rtc (linked vehicle w) from_city to_city
   /\ exists cs,
        find_shortest_path vehicle from_city to_city w
        = Returned (Some {| sequence := cs |})
        /\ head cs = Some from_city
        /\ last cs = Some to_city
        /\ Forall (fun leg => linked vehicle w leg.1 leg.2) (legs cs))
  \/ (~ rtc (linked vehicle w) from_city to_city
      /\ find_shortest_path vehicle from_city to_city w = Returned None).
Proof.
  intros Hok Hplot Hways Hfrom Hto.
  pose proof (plotted_graph_ok w vehicle graph Hplot) as HG.
  destruct (plot_graph_spec _ _ _ Hplot) as [Hkeys _].
  assert (HfromG : city_id from_city ∈ map fst graph).
  { apply Hkeys, list_elem_of_fmap. exists from_city. split; [reflexivity|].
    apply (registered_values w Hok _ _ Hfrom). }
  unfold find_shortest_path. rewrite Hplot. cbn [mbind outcome_bind].
  pose proof (dijkstra_path_spec graph (city_id from_city) (city_id to_city) HG)
    as Hpath.
  destruct (dijkstra_path graph (city_id from_city) (city_id to_city)) as [p|e].
  - left.
    destruct (walk_head _ _ _ _ Hpath) as [p' ->].
    pose proof (walk_nodes _ _ _ _ HG HfromG Hpath) as Hnodes.
    assert (Hcs : exists cs,
               Forall2 (fun k c => dict_get k (City_cities w) = Some c)
                 (city_id from_city :: p') cs).
    { apply Forall_exists_Forall2. eapply Forall_impl; [exact Hnodes|].
      intros k Hk. apply Hkeys, list_elem_of_fmap in Hk as (c & -> & Hc).
      exists c. apply (values_registered w Hok), Hc. }
    destruct Hcs as [cs Hcs].
    destruct (walk_legs w Hok vehicle graph Hplot Hways _ _ _ Hpath cs Hcs)
      as [Hlegs (cx & Hlast & Hcx)].
    assert (cx = to_city) by congruence. subst cx.
    inversion Hcs as [|k c0 p0 cs' Hc0 Hrest]; subst.
    assert (c0 = from_city) by congruence. subst c0.
    split; [exact (legs_route w vehicle _ Hlegs _ _ eq_refl Hlast)|].
    exists (from_city :: cs'). split; [|auto].
    simpl. rewrite (add_path_returned w p' cs' Hrest). reflexivity.
  - destruct Hpath as [[-> Hnot]|[-> Hnone]]; [contradiction|].
    right. split; [|reflexivity].
    intros Hroute.
    destruct (route_walk w vehicle graph Hplot Hways _ _ Hroute HfromG) as [p Hp].
    exact (Hnone p Hp).
Qed.

(** X12. On consistent registries, for a vehicle whose possible legs are
    possible both ways, a trip that [find_shortest_path] returns between two
    registered cities starts at the one, ends at the other, joins registered
    cities by legs that the vehicle can travel, and so takes a finite
    time. *)
Theorem find_shortest_path_possible (vehicle : Vehicle) (w : World)
    (from_city to_city : City) (trip : Trip) :
  registry_ok w ->
  possible_both_ways vehicle ->
  dict_get (city_id from_city) (City_cities w) = Some from_city ->
  dict_get (city_id to_city) (City_cities w) = Some to_city ->
  find_shortest_path vehicle from_city to_city w = Returned (Some trip) ->
  head (sequence trip) = Some from_city
  /\ last (sequence trip) = Some to_city
  /\ Forall (fun leg => linked vehicle w leg.1 leg.2) (legs (sequence trip))
  /\ exists t, total_travel_time trip vehicle = Returned (Finite t).
Proof.
  intros Hok Hways Hfrom Hto Hfound.
  destruct (plot_graph_for_vehicle vehicle w) as [graph|e] eqn:Hplot.
  2: { unfold find_shortest_path in Hfound. rewrite Hplot in Hfound.
       discriminate Hfound. }
  destruct (find_shortest_path_core vehicle w graph from_city to_city
              Hok Hplot Hways Hfrom Hto)
    as [[_ (cs & Hcs & Hhead & Hlast & Hlegs)]|[_ Hnone]];
    [|congruence].
  rewrite Hcs in Hfound. injection Hfound as <-. simpl.
  split; [exact Hhead|]. split; [exact Hlast|]. split; [exact Hlegs|].
  apply total_travel_time_possible.
  eapply Forall_impl; [exact Hlegs|]. intros leg (_ & _ & Hp). exact Hp.
Qed.

(** X13. On consistent registries, once [plot_graph_for_vehicle] has built
    the graph, which it does when the travel times between the registered
    cities can be computed, and for a vehicle whose possible legs are possible
    both ways, [find_shortest_path] between two registered cities returns a
    trip when a chain of possible legs between registered cities joins them,
    and [None] when none does; the search does not raise. *)
Theorem find_shortest_path_finds (vehicle : Vehicle) (w : World) (graph : Graph)
    (from_city to_city : City) :
  registry_ok w ->
  plot_graph_for_vehicle vehicle w = Returned graph ->
  possible_both_ways vehicle ->
  dict_get (city_id from_city) (City_cities w) = Some from_city ->
  dict_get (city_id to_city) (City_cities w) = Some to_city ->
  (rtc (linked vehicle w) from_city to_city ->
   exists trip,
     find_shortest_path vehicle from_city to_city w = Returned (Some trip))
  /\ (~ rtc (linked vehicle w) from_city to_city ->
      find_shortest_path vehicle from_city to_city w = Returned None).
Proof.
  intros Hok Hplot Hways Hfrom Hto.
  destruct (find_shortest_path_core vehicle w graph from_city to_city
              Hok Hplot Hways Hfrom Hto)
    as [[Hroute (cs & Hcs & _)]|[Hnot Hnone]].
  - split; [intros _; eexists; exact Hcs | contradiction].
  - split; [contradiction | intros _; exact Hnone].
Qed.

(** X14. A city that is not registered, and whose identifier is not that of a
    registered city, cannot be the departure: once [plot_graph_for_vehicle]
    has built the graph of the registered cities, the search raises
    [NodeNotFound], which [find_shortest_path] does not catch. *)
Theorem find_shortest_path_unregistered (vehicle : Vehicle) (w : World)
    (graph : Graph) (from_city to_city : City) :
  plot_graph_for_vehicle vehicle w = Returned graph ->
  city_id from_city ∉ map city_id (dict_values (City_cities w)) ->
  find_shortest_path vehicle from_city to_city w = Raised NodeNotFound.
Proof.
  intros Hplot Hnot.
  destruct (plot_graph_spec _ _ _ Hplot) as [Hkeys _].
  unfold find_shortest_path. rewrite Hplot. cbn [mbind outcome_bind].
  unfold dijkstra_path.
  assert (Hmem : dict_mem (city_id from_city) graph = false).
  { apply dict_mem_false_keys. intros Hin. apply Hnot, Hkeys, Hin. }
  rewrite Hmem. reflexivity.
Qed.

End ShortestPathProperties.

(** The distances of the example table do not depend on the direction. *)
Lemma table_kilometres_sym (table : list (coordinates * coordinates * Q))
    (a b : coordinates) :
  table_kilometres table a b = table_kilometres table b a.
Proof.
  induction table as [|[[x y] km] table IH]; simpl; [reflexivity|].
  rewrite IH, (orb_comm (same_coordinates a x && same_coordinates b y)),
    (andb_comm (same_coordinates a y)), (andb_comm (same_coordinates a x)).
  reflexivity.
Qed.

Lemma example_distance_sym (a b : City) :
  @distance example_lib a b = @distance example_lib b a.
Proof.
  unfold distance. cbn [great_circle_km example_lib].
  rewrite (table_kilometres_sym example_kilometres (coordinate a)).
  reflexivity.
Qed.

(** X12 at the trip that the dinghy of the example vehicles gets from Pretoria
    to Cape Town. *)
Lemma find_shortest_path_possible_witness :
  let trip := add_next_city cape_town (Trip__init__ pretoria) in
  head (sequence trip) = Some pretoria
  /\ last (sequence trip) = Some cape_town
  /\ Forall (fun leg => @linked example_lib (DiplomacyDonutDinghy 100 500)
                          southern_africa leg.1 leg.2)
       (legs (sequence trip))
  /\ exists t,
       @total_travel_time example_lib trip (DiplomacyDonutDinghy 100 500)
       = Returned (Finite t).
Proof.
  apply (@find_shortest_path_possible example_lib (DiplomacyDonutDinghy 100 500)
           southern_africa pretoria cape_town).
  - exact southern_africa_registry_ok.
  - apply possible_both_ways_dinghy.
  - reflexivity.
  - reflexivity.
  - vm_compute. reflexivity.
Defined.

(** X13 at Pretoria and Cape Town for the dinghy of the example vehicles, and
    at Melbourne and Tokyo for the trolley: Tokyo is 500 km or more from the
    three other cities of the example. *)
Lemma find_shortest_path_finds_witness :
  (exists trip,
     @find_shortest_path example_lib (DiplomacyDonutDinghy 100 500)
       pretoria cape_town southern_africa = Returned (Some trip))
  /\ @find_shortest_path example_lib (TeleportingTarteTrolley 1 500)
       melbourne tokyo example_world = Returned None.
Proof.
  split.
  - apply (proj1 (@find_shortest_path_finds example_lib
                    (DiplomacyDonutDinghy 100 500) southern_africa
                    [("1", [("2", false); ("3", false)]);
                     ("2", [("1", false); ("3", false)]);
                     ("3", [("1", false); ("2", false)])]
                    pretoria cape_town southern_africa_registry_ok
                    eq_refl (possible_both_ways_dinghy 100 500)
                    eq_refl eq_refl)).
    apply rtc_once. split; [left|]. split; [right; left|].
    exists 14. reflexivity.
  - apply (proj2 (@find_shortest_path_finds example_lib
                    (TeleportingTarteTrolley 1 500) example_world
                    [("1036533631", [("1036142029", false)]);
                     ("1036142029", [("1036533631", false);
                                     ("1036074917", false)]);
                     ("1036074917", [("1036142029", false)]);
                     ("1392685764", [])]
                    melbourne tokyo example_world_registry_ok eq_refl
                    (possible_both_ways_trolley 1 500 example_distance_sym)
                    eq_refl eq_refl)).
    assert (Hstep : forall a b,
              @linked example_lib (TeleportingTarteTrolley 1 500) example_world a b ->
              a <> tokyo -> b <> tokyo).
    { intros a b (Ha & _ & [t Hp]) Hne ->. simpl in Ha.
      repeat (apply elem_of_cons in Ha as [->|Ha]);
        try (vm_compute in Hp; discriminate Hp).
      - apply Hne. reflexivity.
      - apply elem_of_nil in Ha as []. }
    assert (Hrtc : forall a b,
              rtc (@linked example_lib (TeleportingTarteTrolley 1 500)
                     example_world) a b ->
              a <> tokyo -> b <> tokyo).
    { induction 1 as [|a b c0 Hab _ IH]; [auto|].
      intros Ha. apply IH. exact (Hstep a b Hab Ha). }
    intros Hroute. apply (Hrtc _ _ Hroute); [discriminate | reflexivity].
Defined.

(** X14 at Gaborone, which the registries of the example do not hold. *)
Lemma find_shortest_path_unregistered_witness :
  @find_shortest_path example_lib (CrappyCrepeCar 200) gaborone tokyo
    example_world = Raised NodeNotFound.
Proof.
  eapply (@find_shortest_path_unregistered example_lib).
  - vm_compute. reflexivity.
  - simpl. intros H.
    repeat (apply elem_of_cons in H as [H|H]; [discriminate H|]).
    apply elem_of_nil in H as [].
Defined.

Section MorePathFindingProperties.
Context {lib : FloatLib}.

(** X15. For a car and for a dinghy, a leg that is possible in one direction
    is possible in the other, whatever the distances; for a trolley it is so
    when the distance between two cities does not depend on the direction.
    [plot_graph_for_vehicle] relies on it: it evaluates each pair of cities in
    one direction only and adds the edge for both. *)
Theorem possible_in_both_directions (vehicle : Vehicle) :
  match vehicle with
  | TeleportingTarteTrolley _ _ =>
      (forall a b, distance a b = distance b a) -> possible_both_ways vehicle
  | _ => possible_both_ways vehicle
  end.
Proof.
  destruct vehicle as [speed|ics bps|t m].
  - apply possible_both_ways_car.
  - apply possible_both_ways_dinghy.
  - apply possible_both_ways_trolley.
Qed.


(** X17. The graph of [plot_graph_for_vehicle] has the registered identifiers
    for nodes and joins two of them exactly when the vehicle can travel
    directly from the city registered first to the one registered later; and
    the weight of every edge is [False], never a travel time. *)
Theorem plot_graph_for_vehicle_graph (vehicle : Vehicle) (w : World)
    (graph : Graph) :
  plot_graph_for_vehicle vehicle w = Returned graph ->
  (forall x, x ∈ map fst graph <-> x ∈ map city_id (dict_values (City_cities w)))
  /\ (forall x y,
        edge graph x y
        <-> exists i j a b,
              (i < j)%nat /\ dict_values (City_cities w) !! i = Some a
              /\ dict_values (City_cities w) !! j = Some b
              /\ possible vehicle a b
              /\ ((x = city_id a /\ y = city_id b)
                  \/ (x = city_id b /\ y = city_id a)))
  /\ all_weights_false graph.
Proof.
  intros Hplot. destruct (plot_graph_spec _ _ _ Hplot) as [Hkeys Hedges].
  split; [exact Hkeys|]. split; [exact Hedges|].
  exact (proj1 (plotted_graph_ok w vehicle graph Hplot)).
Qed.

(** X18. The trip that [find_shortest_path] returns depends on the vehicle
    only through which legs are impossible: two vehicles that agree on that
    get the same result, whatever their travel times. *)
Theorem find_shortest_path_ignores_times (v1 v2 : Vehicle)
    (from_city to_city : City) (w : World) :
  (forall a b,
     (fun time => hours_eqb time Inf) <$> compute_travel_time v1 a b
     = (fun time => hours_eqb time Inf) <$> compute_travel_time v2 a b) ->
  find_shortest_path v1 from_city to_city w
  = find_shortest_path v2 from_city to_city w.
Proof. apply find_shortest_path_same. Qed.

(** X19. [find_shortest_path] terminates: the loop of the search makes at
    most one iteration per node and per end of an edge, so that the call
    returns or raises an error of the program. *)
Theorem find_shortest_path_terminates (vehicle : Vehicle)
    (from_city to_city : City) (w : World) :
  find_shortest_path vehicle from_city to_city w <> Raised LoopBudget.
Proof. apply find_shortest_path_within_budget. Qed.

End MorePathFindingProperties.

(** X15 at the trolley of the example vehicles. *)
Lemma possible_in_both_directions_witness :
  @possible_both_ways example_lib (TeleportingTarteTrolley 1 500).
Proof.
  apply (@possible_in_both_directions example_lib (TeleportingTarteTrolley 1 500)).
  apply example_distance_sym.
Defined.


(** X17 at the graph of the dinghy of the example vehicles on Pretoria, Cape
    Town and Gaborone. *)
Lemma plot_graph_for_vehicle_graph_witness :
  all_weights_false
    [("1", [("2", false); ("3", false)]); ("2", [("1", false); ("3", false)]);
     ("3", [("1", false); ("2", false)])].
Proof.
  apply (@plot_graph_for_vehicle_graph example_lib (DiplomacyDonutDinghy 100 500)
           southern_africa).
  reflexivity.
Defined.

(** X18 at two dinghies of different speeds. *)
Lemma find_shortest_path_ignores_times_witness :
  @find_shortest_path example_lib (DiplomacyDonutDinghy 100 500)
    pretoria cape_town southern_africa
  = @find_shortest_path example_lib (DiplomacyDonutDinghy 1 1000)
      pretoria cape_town southern_africa.
Proof.
  apply (@find_shortest_path_ignores_times example_lib).
  intros a b. simpl.
  destruct (negb (bool_decide (country a = country b))
            && (bool_decide (capital_type a <> primary)
                || bool_decide (capital_type b <> primary))); [reflexivity|].
  destruct (bool_decide (country a = country b)); reflexivity.
Defined.

(** ** city_country_csv_reader.py *)

Lemma is_quote_false (char : ascii) : char <> quote -> is_quote char = false.
Proof. intros H. unfold is_quote. apply Ascii.eqb_neq, H. Qed.

Lemma is_deliminater_char (dc char : ascii) :
  is_deliminater (String dc EmptyString) char = true <-> char = dc.
Proof.
  unfold is_deliminater. rewrite String.eqb_eq. split; [intros [= ->] | intros ->];
    reflexivity.
Qed.

(** A character other than the quote, and other than the delimiter unless
    within quotes, goes to the current cell. *)
Lemma parse_row_from_char (d : string) (char : ascii) (rest1 : string)
    (in_quote : bool) (cell_item : string) (cells : list string) :
  char <> quote ->
  in_quote = true \/ is_deliminater d char = false ->
  parse_row_from d (String char rest1) in_quote cell_item cells
  = parse_row_from d rest1 in_quote (add_char cell_item char) cells.
Proof.
  intros Hq Hd. apply is_quote_false in Hq.
  assert (Hf : negb in_quote && is_deliminater d char = false)
    by (destruct Hd as [-> | ->]; [reflexivity | apply andb_false_r]).
  cbn [parse_row_from]. rewrite Hq, Hf.
  cbn [andb]. rewrite !andb_false_r. cbn [andb].
  destruct rest1 as [|char2 [|char3 rest3]]; reflexivity.
Qed.

(** Outside quotes the delimiter closes the current cell. *)
Lemma parse_row_from_deliminater (dc : ascii) (rest1 : string)
    (cell_item : string) (cells : list string) :
  dc <> quote ->
  parse_row_from (String dc EmptyString) (String dc rest1) false cell_item cells
  = parse_row_from (String dc EmptyString) rest1 false EmptyString
      (cells ++ [cell_item]).
Proof.
  intros Hq. apply is_quote_false in Hq.
  cbn [parse_row_from]. rewrite Hq, (proj2 (is_deliminater_char dc dc) eq_refl).
  cbn [andb negb]. rewrite !andb_false_r.
  destruct rest1 as [|char2 [|char3 rest3]]; reflexivity.
Qed.

Lemma string_app_assoc (a b c : string) :
  ((a ++ b) ++ c)%string = (a ++ b ++ c)%string.
Proof.
  induction a as [|x a IH]; [reflexivity|].
  change (String x ((a ++ b) ++ c)%string = String x (a ++ b ++ c)%string).
  f_equal. exact IH.
Qed.

Lemma string_app_nil_r (a : string) : (a ++ EmptyString)%string = a.
Proof.
  induction a as [|x a IH]; [reflexivity|].
  change (String x (a ++ EmptyString)%string = String x a).
  f_equal. exact IH.
Qed.

(** A run of such characters goes to the current cell. *)
Lemma parse_row_from_run (dc : ascii) (in_quote : bool) (s : string) :
  free_of quote s ->
  in_quote = true \/ free_of dc s ->
  forall rest cell_item cells,
    parse_row_from (String dc EmptyString) (s ++ rest)%string in_quote
      cell_item cells
    = parse_row_from (String dc EmptyString) rest in_quote
        (cell_item ++ s)%string cells.
Proof.
  induction s as [|char s IH]; intros Hq Hd rest cell_item cells.
  - change (EmptyString ++ rest)%string with rest.
    now rewrite string_app_nil_r.
  - destruct Hq as [Hchar Hq].
    change (String char s ++ rest)%string with (String char (s ++ rest)%string).
    rewrite parse_row_from_char; [|exact Hchar|].
    + rewrite IH; [|exact Hq|].
      * unfold add_char. rewrite string_app_assoc. reflexivity.
      * destruct Hd as [->|[_ Hd]]; [left; reflexivity | right; exact Hd].
    + destruct Hd as [->|[Hne _]]; [left; reflexivity | right].
      destruct (is_deliminater (String dc EmptyString) char) eqn:His;
        [|reflexivity].
      apply is_deliminater_char in His. contradiction.
Qed.

Lemma join_cons (d cell : string) (cells : list string) :
  cells <> [] -> join d (cell :: cells) = (cell ++ d ++ join d cells)%string.
Proof. destruct cells; [contradiction | reflexivity]. Qed.

Lemma parse_row_from_join (dc : ascii) (more : list string) :
  dc <> quote ->
  forall (last_cell cell_item : string) (cells : list string),
    Forall (fun cell => free_of quote cell /\ free_of dc cell)
      (more ++ [last_cell]) ->
    parse_row_from (String dc EmptyString)
      (join (String dc EmptyString) (more ++ [last_cell])) false cell_item cells
    = let last_item :=
        match more with
        | [] => (cell_item ++ last_cell)%string
        | _ => last_cell
        end in
      let before :=
        match more with
        | [] => []
        | first :: more' => (cell_item ++ first)%string :: more'
        end in
      if is_empty last_item then cells ++ before
      else cells ++ before ++ [last_item].
Proof.
  intros Hdc. induction more as [|first more IH];
    intros last_cell cell_item cells Hclean.
  - apply Forall_cons in Hclean as [[Hq Hd] _]. simpl.
    rewrite <- (string_app_nil_r last_cell) at 1.
    rewrite parse_row_from_run by auto. simpl.
    rewrite app_nil_r. reflexivity.
  - apply Forall_cons in Hclean as [[Hq Hd] Hclean].
    change ((first :: more) ++ [last_cell]) with (first :: (more ++ [last_cell])).
    rewrite join_cons by (destruct more; discriminate).
    rewrite parse_row_from_run by auto.
    change (String dc EmptyString ++ join (String dc EmptyString) (more ++ [last_cell]))%string
      with (String dc (join (String dc EmptyString) (more ++ [last_cell]))).
    rewrite parse_row_from_deliminater by exact Hdc.
    rewrite (IH last_cell EmptyString _ Hclean). cbv zeta.
    destruct more as [|second more];
      change (EmptyString ++ ?x)%string with x;
      destruct (is_empty last_cell);
      rewrite <- ?app_assoc, ?app_nil_r; reflexivity.
Qed.

(** X20. A row without quotes is split at the delimiters: [parse_row] gives
    back the cells that were joined by the delimiter, when they hold neither
    quotes nor the delimiter; only, a last cell that is empty is dropped. *)
Theorem parse_row_join (dc : ascii) (cells : list string) :
  dc <> quote ->
  Forall (fun cell => free_of quote cell /\ free_of dc cell) cells ->
  parse_row (join (String dc EmptyString) cells) (String dc EmptyString)
  = match last cells with
    | Some EmptyString => removelast cells
    | _ => cells
    end.
Proof.
  intros Hdc Hclean. unfold parse_row.
  destruct (decide (cells = [])) as [->|Hne]; [reflexivity|].
  destruct (exists_last Hne) as (more & last_cell & ->).
  rewrite (parse_row_from_join dc more Hdc last_cell EmptyString [] Hclean).
  rewrite last_snoc, removelast_last. cbv zeta.
  destruct more as [|first more]; simpl; destruct last_cell; reflexivity.
Qed.

(** The cells found so far stay in front of those found later. *)
Lemma parse_row_from_cells (d : string) (n : nat) :
  forall rest,
    (String.length rest <= n)%nat ->
    forall in_quote cell_item cells,
      parse_row_from d rest in_quote cell_item cells
      = cells ++ parse_row_from d rest in_quote cell_item [].
Proof.
  induction n as [|n IH]; intros rest Hlen in_quote cell_item cells.
  - destruct rest; [|simpl in Hlen; lia]. simpl.
    destruct (is_empty cell_item); [now rewrite app_nil_r | reflexivity].
  - destruct rest as [|char rest1].
    + simpl. destruct (is_empty cell_item); [now rewrite app_nil_r | reflexivity].
    + simpl in Hlen.
      assert (H1 : forall iq ci cs,
                parse_row_from d rest1 iq ci cs
                = cs ++ parse_row_from d rest1 iq ci [])
        by (intros; apply IH; lia).
      cbn [parse_row_from].
      destruct rest1 as [|char2 rest2].
      * repeat match goal with
               | |- context [if ?b then _ else _] => destruct b
               end;
          rewrite H1; try reflexivity;
          rewrite (H1 _ _ ([] ++ [cell_item])), <- app_assoc; reflexivity.
      * simpl in Hlen.
        assert (H2 : forall iq ci cs,
                  parse_row_from d rest2 iq ci cs
                  = cs ++ parse_row_from d rest2 iq ci [])
          by (intros; apply IH; lia).
        destruct rest2 as [|char3 rest3].
        -- repeat match goal with
                  | |- context [if ?b then _ else _] => destruct b
                  end;
             first [ rewrite H1 | rewrite H2 ]; try reflexivity;
             first [ rewrite (H1 _ _ ([] ++ [cell_item]))
                   | rewrite (H2 _ _ ([] ++ [cell_item])) ];
             rewrite <- app_assoc; reflexivity.
        -- simpl in Hlen.
           assert (H3 : forall iq ci cs,
                     parse_row_from d rest3 iq ci cs
                     = cs ++ parse_row_from d rest3 iq ci [])
             by (intros; apply IH; lia).
           repeat match goal with
                  | |- context [if ?b then _ else _] => destruct b
                  end;
             first [ rewrite H3 | rewrite H1 | rewrite H2 ]; try reflexivity;
             first [ rewrite (H1 _ _ ([] ++ [cell_item]))
                   | rewrite (H2 _ _ ([] ++ [cell_item])) ];
             rewrite <- app_assoc; reflexivity.
Qed.

(** X20 at three cells of which the second is empty, and at a row that ends
    with the delimiter. *)
Lemma parse_row_join_witness :
  parse_row "Melbourne,,AUS" "," = ["Melbourne"; ""; "AUS"]
  /\ parse_row "Melbourne,AUS," "," = ["Melbourne"; "AUS"].
Proof.
  split.
  - apply (parse_row_join ","%char ["Melbourne"; ""; "AUS"]);
      [discriminate|]. repeat constructor; discriminate.
  - apply (parse_row_join ","%char ["Melbourne"; "AUS"; ""]);
      [discriminate|]. repeat constructor; discriminate.
Defined.

(** Within quotes, the quote that ends the row or comes before a delimiter
    closes the cell. *)
Lemma parse_row_from_closing_quote (dc : ascii) (cell_item : string)
    (cells : list string) :
  dc <> quote ->
  cell_item <> EmptyString ->
  parse_row_from (String dc EmptyString) (String quote EmptyString) true
    cell_item cells = cells ++ [cell_item]
  /\ forall row,
       parse_row_from (String dc EmptyString) (String quote (String dc row)) true
         cell_item cells
       = parse_row_from (String dc EmptyString) row false EmptyString
           (cells ++ [cell_item]).
Proof.
  intros Hdc Hcell.
  assert (Hempty : is_empty cell_item = false)
    by (destruct cell_item; [contradiction | reflexivity]).
  apply is_quote_false in Hdc.
  assert (Hq : is_quote quote = true) by reflexivity.
  assert (Hd : is_deliminater (String dc EmptyString) dc = true)
    by (apply is_deliminater_char; reflexivity).
  split.
  - cbn [parse_row_from]. rewrite Hq, Hempty. reflexivity.
  - intros row. cbn [parse_row_from]. rewrite Hq, Hdc, Hd, Hempty.
    destruct row; reflexivity.
Qed.

(** X21. A cell between quotes keeps its delimiters: a row made of one quoted
    cell, not empty and without quotes inside, is that cell, and such a quoted
    cell followed by the delimiter is the first cell of the row, the others
    being those of the rest of the row. *)
Theorem parse_row_quoted (dc : ascii) (cell row : string) :
  dc <> quote ->
  cell <> EmptyString ->
  free_of quote cell ->
  parse_row (String quote (cell ++ String quote EmptyString)%string)
    (String dc EmptyString) = [cell]
  /\ parse_row (String quote (cell ++ String quote (String dc row))%string)
       (String dc EmptyString)
     = cell :: parse_row row (String dc EmptyString).
Proof.
  intros Hdc Hcell Hfree.
  assert (Hopen : forall rest,
            parse_row (String quote (cell ++ rest)%string) (String dc EmptyString)
            = parse_row_from (String dc EmptyString) rest true cell []).
  { intros rest. unfold parse_row.
    destruct cell as [|char cell]; [contradiction|].
    destruct Hfree as [Hchar Hfree].
    change (String char cell ++ rest)%string with (String char (cell ++ rest)%string).
    assert (Hstart :
              parse_row_from (String dc EmptyString)
                (String quote (String char (cell ++ rest)%string)) false
                EmptyString []
              = parse_row_from (String dc EmptyString)
                  (String char (cell ++ rest)%string) true EmptyString []).
    { cbn [parse_row_from]. rewrite (is_quote_false char Hchar).
      change (is_quote quote) with true. cbn [andb is_empty].
      destruct (cell ++ rest)%string; reflexivity. }
    rewrite Hstart.
    change (String char (cell ++ rest)%string)
      with (String char cell ++ rest)%string.
    rewrite parse_row_from_run; [reflexivity | split; assumption | left; reflexivity]. }
  destruct (parse_row_from_closing_quote dc cell [] Hdc Hcell) as [Hend Hnext].
  split.
  - rewrite Hopen. exact Hend.
  - rewrite Hopen, Hnext. unfold parse_row.
    rewrite (parse_row_from_cells _ (String.length row) row (le_n _)).
    reflexivity.
Qed.

(** X21 at a quoted cell that holds a comma. *)
Lemma parse_row_quoted_witness :
  parse_row (String quote ("Washington, D.C." ++ String quote EmptyString)%string)
    "," = ["Washington, D.C."]
  /\ parse_row
       (String quote ("Washington, D.C." ++ String quote ",USA,primary")%string)
       "," = ["Washington, D.C."; "USA"; "primary"].
Proof.
  destruct (parse_row_quoted ","%char "Washington, D.C." "USA,primary")
    as [Hone Hmore].
  - discriminate.
  - discriminate.
  - repeat split; discriminate.
  - split; [exact Hone | exact Hmore].
Defined.

Lemma make_record_None (row : list string) :
  forall column_names record,
    make_record column_names row record = None
    <-> (length column_names < length row)%nat.
Proof.
  induction row as [|cell row IH]; intros [|column column_names] record; simpl.
  - split; [intros H; discriminate H | lia].
  - split; [intros H; discriminate H | lia].
  - split; [lia | reflexivity].
  - rewrite IH. lia.
Qed.

Lemma make_record_get (row : list string) :
  forall column_names record0 record,
    make_record column_names row record0 = Some record ->
    NoDup column_names ->
    (forall i column,
       column_names !! i = Some column ->
       dict_get column record
       = match row !! i with
         | Some cell => Some cell
         | None => dict_get column record0
         end)
    /\ (forall k, k ∉ column_names -> dict_get k record = dict_get k record0).
Proof.
  induction row as [|cell row IH]; intros column_names record0 record Hmake Hnodup.
  - assert (record = record0) as ->
      by (destruct column_names; simpl in Hmake; congruence).
    split; [intros i column _; reflexivity | reflexivity].
  - destruct column_names as [|column0 column_names]; [discriminate Hmake|].
    simpl in Hmake. apply NoDup_cons in Hnodup as [Hfresh Hnodup].
    destruct (IH _ _ _ Hmake Hnodup) as [Hgets Hothers]. split.
    + intros [|i] column Hi; simpl in Hi.
      * injection Hi as <-. simpl.
        rewrite (Hothers _ Hfresh). apply dict_get_set_eq.
      * simpl. rewrite (Hgets i column Hi).
        destruct (row !! i); [reflexivity|].
        apply dict_get_set_ne. intros ->. apply Hfresh.
        apply list_elem_of_lookup. eexists; exact Hi.
    + intros k Hk. apply not_elem_of_cons in Hk as [Hne Hk].
      rewrite (Hothers k Hk). apply dict_get_set_ne. exact Hne.
Qed.

Lemma make_records_None (column_names : list string)
    (data_cells : list (list string)) :
  make_records column_names data_cells = None
  <-> Exists (fun row => (length column_names < length row)%nat) data_cells.
Proof.
  induction data_cells as [|row data_cells IH]; simpl.
  - split; [discriminate | intros H; inversion H].
  - rewrite Exists_cons, <- IH, <- (make_record_None row column_names []).
    destruct (make_record column_names row []);
      [|split; [left; reflexivity | reflexivity]].
    destruct (make_records column_names data_cells).
    + split; [discriminate | intros [H|H]; discriminate H].
    + split; [right; reflexivity | reflexivity].
Qed.

Lemma make_records_Some (column_names : list string)
    (data_cells : list (list string)) (records : list (pydict string)) :
  make_records column_names data_cells = Some records ->
  Forall2 (fun row record => make_record column_names row [] = Some record)
    data_cells records.
Proof.
  revert records. induction data_cells as [|row data_cells IH]; intros records;
    simpl.
  - intros [= <-]. constructor.
  - destruct (make_record column_names row []) as [record|] eqn:Hrow;
      [|discriminate].
    destruct (make_records column_names data_cells) as [records'|];
      [|discriminate].
    intros [= <-]. constructor; [exact Hrow | apply IH; reflexivity].
Qed.

(** X22. [parse_raw_csv] returns [{}] for a text without lines.  Otherwise the
    first line gives the column names: it raises [IndexError] when a later
    line has more cells than there are column names, and else returns one
    record per later line, in which, the column names being distinct, each
    column name holds the cell of the line at the position of the column, and
    is missing when the line has no cell there. *)
Theorem parse_raw_csv_records (raw_csv : string) :
  (splitlines raw_csv = [] -> parse_raw_csv raw_csv = Done EmptyDict)
  /\ forall first_row data_rows,
       splitlines raw_csv = first_row :: data_rows ->
       let column_names := parse_row first_row "," in
       (Exists (fun data_row =>
                  (length column_names < length (parse_row data_row ","))%nat)
               data_rows ->
        parse_raw_csv raw_csv = FailedIndexError)
       /\ (Forall (fun data_row =>
                     (length (parse_row data_row ",") <= length column_names)%nat)
                  data_rows ->
           NoDup column_names ->
           exists records,
             parse_raw_csv raw_csv = Done (Table column_names records)
             /\ Forall2 (fun data_row record =>
                           forall i column,
                             column_names !! i = Some column ->
                             dict_get column record
                             = parse_row data_row "," !! i)
                  data_rows records).
Proof.
  unfold parse_raw_csv. split; [intros ->; reflexivity|].
  intros first_row data_rows ->. cbv zeta. split.
  - intros Hlong.
    rewrite (proj2 (make_records_None (parse_row first_row ",")
                      (map (fun data_row => parse_row data_row ",") data_rows)));
      [reflexivity|].
    apply Exists_fmap. exact Hlong.
  - intros Hshort Hnodup.
    destruct (make_records (parse_row first_row ",")
                (map (fun data_row => parse_row data_row ",") data_rows))
      as [records|] eqn:Hrecords.
    + exists records. split; [reflexivity|].
      apply make_records_Some in Hrecords.
      apply Forall2_fmap_l in Hrecords.
      eapply Forall2_impl; [exact Hrecords|].
      intros data_row record Hmake i column Hi. simpl in Hmake.
      destruct (make_record_get _ _ _ _ Hmake Hnodup) as [Hgets _].
      rewrite (Hgets i column Hi).
      destruct (parse_row data_row "," !! i); reflexivity.
    + apply make_records_None in Hrecords.
      apply Exists_exists in Hrecords as (row & Hin & Hlong).
      apply list_elem_of_fmap in Hin as (data_row & -> & Hin).
      rewrite Forall_forall in Hshort. specialize (Hshort data_row Hin).
      lia.
Qed.

(** X22 at a text without lines, at a file with a row that is too long and at
    a file of two cities. *)
Lemma parse_raw_csv_records_witness :
  parse_raw_csv "" = Done EmptyDict
  /\ parse_raw_csv example_csv_long_row = FailedIndexError
  /\ exists records,
       parse_raw_csv example_csv
       = Done (Table ["city_ascii"; "lat"; "lng"; "country"; "iso3"; "capital"; "id"]
                 records)
       /\ Forall2 (fun data_row record =>
                     forall i column,
                       ["city_ascii"; "lat"; "lng"; "country"; "iso3"; "capital"; "id"]
                         !! i = Some column ->
                       dict_get column record = parse_row data_row "," !! i)
            ["Tokyo,35.6897,139.6922,Japan,JPN,primary,1392685764";
             "Kyoto,35.0117,135.7683,Japan,JPN,,1392622735"]
            records.
Proof.
  split; [|split].
  - apply (proj1 (parse_raw_csv_records "")). reflexivity.
  - apply (proj1 (proj2 (parse_raw_csv_records example_csv_long_row)
                    "city_ascii,id" ["Tokyo,1392685764,Japan"] eq_refl)).
    apply Exists_cons_hd. vm_compute. lia.
  - apply (proj2 (proj2 (parse_raw_csv_records example_csv)
                    "city_ascii,lat,lng,country,iso3,capital,id"
                    ["Tokyo,35.6897,139.6922,Japan,JPN,primary,1392685764";
                     "Kyoto,35.0117,135.7683,Japan,JPN,,1392622735"] eq_refl)).
    + repeat constructor; vm_compute; lia.
    + apply (bool_decide_unpack _). vm_compute. reflexivity.
Defined.

Section ReaderProperties.
Context {lib : FloatLib}.

Lemma empty_world_one_instance : one_instance_per_name empty_world.
Proof. intros r C HC. simpl in HC. rewrite lookup_nil in HC. discriminate HC. Qed.

Lemma Country__init___one_instance (name iso3_code : string) (w : World) :
  one_instance_per_name w ->
  Country_countries w !! name = None ->
  one_instance_per_name (Country__init__ name iso3_code w).2.
Proof.
  intros Hone Hfresh r C HC. unfold Country__init__ in *. simpl in *.
  destruct (decide (r < length (instances w))%nat) as [Hlt|Hge].
  - rewrite lookup_app_l in HC by exact Hlt.
    specialize (Hone r C HC).
    rewrite lookup_insert_ne; [exact Hone|].
    intros ->. unfold country_ref in *. congruence.
  - rewrite lookup_app_r in HC by lia.
    destruct (r - length (instances w))%nat eqn:Hr; simpl in HC;
      [|discriminate HC].
    injection HC as <-. simpl.
    rewrite lookup_insert_eq. f_equal. lia.
Qed.

Lemma City__init___one_instance
    (name latitude longitude country_arg capital id : string) (w w' : World)
    (self : City) :
  one_instance_per_name w ->
  City__init__ name latitude longitude country_arg capital id w
  = Returned (self, w') ->
  one_instance_per_name w'.
Proof.
  intros Hone Hinit.
  destruct (City__init___returned _ _ _ _ _ _ _ _ _ Hinit)
    as (lat & lng & _ & _ & _ & _ & ->).
  intros r C HC. simpl in *. unfold country_ref in *.
  destruct (decide (r = country self)) as [->|Hne].
  - rewrite list_lookup_alter_eq in HC.
    apply fmap_Some in HC as (C0 & HC0 & ->). simpl. exact (Hone _ _ HC0).
  - rewrite list_lookup_alter_ne in HC by congruence. exact (Hone _ _ HC).
Qed.

Lemma register_record_ok (record : pydict string) (w w' : World) :
  registry_ok w ->
  one_instance_per_name w ->
  register_record record w = Returned w' ->
  registry_ok w' /\ one_instance_per_name w'.
Proof.
  intros Hok Hone. unfold register_record.
  destruct (dict_get "country" record) as [country_arg|]; [|discriminate].
  cbn [subscript mbind outcome_bind].
  assert (Hcountry :
            forall w1,
              (if bool_decide (is_Some (Country_countries w !! country_arg))
               then Returned w
               else
                 iso3_code ← subscript (dict_get "iso3" record);
                 Returned (Country__init__ country_arg iso3_code w).2)
              = Returned w1 ->
              registry_ok w1 /\ one_instance_per_name w1).
  { intros w1. case_bool_decide as Hreg.
    - intros [= <-]. split; assumption.
    - destruct (dict_get "iso3" record) as [iso3_code|]; [|discriminate].
      cbn [subscript mbind outcome_bind]. intros [= <-]. split.
      + apply Country__init___registry_ok, Hok.
      + apply Country__init___one_instance; [exact Hone|].
        destruct (Country_countries w !! country_arg) eqn:E; [|reflexivity].
        exfalso. apply Hreg. eexists; reflexivity. }
  destruct (if bool_decide (is_Some (Country_countries w !! country_arg))
            then Returned w
            else
              iso3_code ← subscript (dict_get "iso3" record);
              Returned (Country__init__ country_arg iso3_code w).2)
    as [w1|e]; [|discriminate].
  destruct (Hcountry w1 eq_refl) as [Hok1 Hone1].
  cbn [mbind outcome_bind].
  destruct (dict_get "city_ascii" record) as [city_ascii|]; [|discriminate].
  destruct (dict_get "lat" record) as [lat|]; [|discriminate].
  destruct (dict_get "lng" record) as [lng|]; [|discriminate].
  destruct (dict_get "capital" record) as [capital|]; [|discriminate].
  destruct (dict_get "id" record) as [id|]; [|discriminate].
  cbn [subscript mbind outcome_bind].
  destruct (City__init__ city_ascii lat lng country_arg capital id w1)
    as [[self w2]|e] eqn:Hinit; [|discriminate].
  cbn [mret outcome_ret]. intros [= <-]. split.
  - eapply City__init___registry_ok; eauto.
  - eapply City__init___one_instance; eauto.
Qed.

Lemma register_records_ok (records : list (pydict string)) :
  forall w w',
    registry_ok w ->
    one_instance_per_name w ->
    register_records records w = Returned w' ->
    registry_ok w' /\ one_instance_per_name w'.
Proof.
  induction records as [|record records IH]; intros w w' Hok Hone; simpl.
  - intros [= <-]. split; assumption.
  - destruct (register_record record w) as [w1|e] eqn:Hrecord; [|discriminate].
    cbn [mbind outcome_bind].
    destruct (register_record_ok _ _ _ Hok Hone Hrecord) as [Hok1 Hone1].
    apply IH; assumption.
Qed.

(** X23. Where [Country.countries] and [City.cities] are consistent and every
    [Country] instance is the one registered under its name, a run of
    [create_cities_countries_from_CSV] that returns keeps both: it creates a
    country only for a name that is not registered, so that no two instances
    have the same name. *)
Theorem create_cities_countries_from_CSV_one_instance
    (raw : string) (w w' : World) :
  registry_ok w ->
  one_instance_per_name w ->
  create_cities_countries_from_CSV raw w = Done w' ->
  registry_ok w'
  /\ one_instance_per_name w'
  /\ forall r1 r2 C1 C2,
       instances w' !! r1 = Some C1 ->
       instances w' !! r2 = Some C2 ->
       country_name C1 = country_name C2 ->
       r1 = r2.
Proof.
  intros Hok Hone. unfold create_cities_countries_from_CSV.
  destruct (parse_raw_csv raw) as [[|column_names records]|e|]; try discriminate.
  destruct (register_records records w) as [w1|e] eqn:Hrecords; [|discriminate].
  intros [= <-].
  destruct (register_records_ok _ _ _ Hok Hone Hrecords) as [Hok1 Hone1].
  split; [exact Hok1|]. split; [exact Hone1|].
  intros r1 r2 C1 C2 H1 H2 Hname.
  apply Hone1 in H1. apply Hone1 in H2. rewrite Hname in H1. congruence.
Qed.

(** X24. [create_cities_countries_from_CSV] raises [KeyError] on a text
    without lines, [parse_raw_csv] returning [{}] then, and [IndexError] when
    a line after the first has more cells than the first. *)
Theorem create_cities_countries_from_CSV_errors (raw : string) (w : World) :
  (splitlines raw = [] ->
   create_cities_countries_from_CSV raw w = Failed KeyError)
  /\ (forall first_row data_rows,
        splitlines raw = first_row :: data_rows ->
        Exists (fun data_row =>
                  (length (parse_row first_row ",")
                   < length (parse_row data_row ","))%nat) data_rows ->
        create_cities_countries_from_CSV raw w = FailedIndexError).
Proof.
  unfold create_cities_countries_from_CSV, parse_raw_csv. split.
  - intros ->. reflexivity.
  - intros first_row data_rows -> Hlong. cbv zeta.
    rewrite (proj2 (make_records_None (parse_row first_row ",")
                      (map (fun data_row => parse_row data_row ",") data_rows)));
      [reflexivity|].
    apply Exists_fmap. exact Hlong.
Qed.

End ReaderProperties.

(** X23 at the file of two cities of Japan, read into empty registries. *)
Lemma create_cities_countries_from_CSV_one_instance_witness :
  @create_cities_countries_from_CSV example_lib example_csv empty_world
  = Done example_csv_world
  /\ length (instances example_csv_world) = 1%nat
  /\ registry_ok example_csv_world
  /\ one_instance_per_name example_csv_world
  /\ forall r1 r2 C1 C2,
       instances example_csv_world !! r1 = Some C1 ->
       instances example_csv_world !! r2 = Some C2 ->
       country_name C1 = country_name C2 ->
       r1 = r2.
Proof.
  assert (Hread :
            @create_cities_countries_from_CSV example_lib example_csv empty_world
            = Done example_csv_world) by (vm_compute; reflexivity).
  split; [exact Hread|]. split; [reflexivity|].
  exact (@create_cities_countries_from_CSV_one_instance example_lib
           example_csv empty_world example_csv_world
           empty_world_registry_ok empty_world_one_instance Hread).
Defined.

(** X24 at the empty text and at a file with a row that is too long. *)
Lemma create_cities_countries_from_CSV_errors_witness :
  @create_cities_countries_from_CSV example_lib "" empty_world = Failed KeyError
  /\ @create_cities_countries_from_CSV example_lib example_csv_long_row
       empty_world = FailedIndexError.
Proof.
  split.
  - apply (proj1 (@create_cities_countries_from_CSV_errors example_lib
                    "" empty_world)).
    reflexivity.
  - apply (proj2 (@create_cities_countries_from_CSV_errors example_lib
                    example_csv_long_row empty_world)
             "city_ascii,id" ["Tokyo,1392685764,Japan"] eq_refl).
    apply Exists_cons_hd. vm_compute. lia.
Defined.

Section VehicleInputProperties.
Context {ints : IntLib}.

Lemma validate_positive_integer_true (raw : string) :
  (validate_positive_integer raw).1 = true
  <-> exists n, py_int raw = Some n /\ 0 < n.
Proof.
  unfold validate_positive_integer.
  destruct (py_int raw) as [n|].
  - destruct (0 <? n) eqn:Hn; simpl.
    + apply Z.ltb_lt in Hn. split; [intros _; exists n; auto | reflexivity].
    + apply Z.ltb_ge in Hn. split; [discriminate|].
      intros (m & [= <-] & Hm). lia.
  - simpl. split; [discriminate | intros (m & Hm & _); discriminate Hm].
Qed.

Lemma ValueInputBox_wait_for_interact_spec
    (validate : string -> bool * string) (allow_undo : bool)
    (keys : list keyboard) :
  match ValueInputBox_wait_for_interact (Some validate) allow_undo keys with
  | Answer result rest =>
      exists before key,
        keys = before ++ key :: rest
        /\ Forall (passed_over validate allow_undo) before
        /\ match result with
           | Some raw => key = Typed raw /\ (validate raw).1 = true
           | None => key = CtrlC /\ allow_undo = true
           end
  | EOFError => Forall (passed_over validate allow_undo) keys
  | _ => False
  end.
Proof.
  induction keys as [|[raw|] keys IH]; simpl.
  - constructor.
  - destruct (validate raw) as [valid err_msg] eqn:Hvalid. destruct valid.
    + exists [], (Typed raw). split; [reflexivity|]. split; [constructor|].
      split; [reflexivity | rewrite Hvalid; reflexivity].
    + assert (Hraw : passed_over validate allow_undo (Typed raw))
        by (simpl; rewrite Hvalid; reflexivity).
      destruct (ValueInputBox_wait_for_interact (Some validate) allow_undo keys)
        as [result rest| | | |]; try exact IH.
      * destruct IH as (before & key & -> & Hbefore & Hkey).
        exists (Typed raw :: before), key.
        split; [reflexivity|]. split; [constructor; assumption | exact Hkey].
      * constructor; assumption.
  - destruct allow_undo eqn:Hundo.
    + exists [], CtrlC. split; [reflexivity|]. split; [constructor|].
      split; reflexivity.
    + destruct (ValueInputBox_wait_for_interact (Some validate) false keys)
        as [result rest| | | |]; try exact IH.
      * destruct IH as (before & key & -> & Hbefore & Hkey).
        exists (CtrlC :: before), key.
        split; [reflexivity|]. split; [constructor; [reflexivity|assumption]|].
        exact Hkey.
      * constructor; [reflexivity | assumption].
Qed.

Lemma ProgressedMenu_wait_for_interact_spec (options : list Z)
    (allow_undo : bool) (keys : list keyboard) :
  match ProgressedMenu_wait_for_interact options allow_undo keys with
  | Answer result rest =>
      (length rest < length keys)%nat
      /\ forall val, result = Some val -> val ∈ options
  | EOFError => True
  | _ => False
  end.
Proof.
  induction keys as [|[raw|] keys IH]; simpl; [exact I| |].
  - assert (Hnext :
              match ProgressedMenu_wait_for_interact options allow_undo keys with
              | Answer result rest =>
                  (length rest < S (length keys))%nat
                  /\ forall val, result = Some val -> val ∈ options
              | EOFError => True
              | _ => False
              end).
    { destruct (ProgressedMenu_wait_for_interact options allow_undo keys)
        as [result rest| | | |]; try exact IH.
      destruct IH as [Hlen Hval]. split; [lia | exact Hval]. }
    destruct (py_int raw) as [val|]; [|exact Hnext].
    case_bool_decide as Hin; [|exact Hnext].
    split; [lia|]. intros val' [= <-]. exact Hin.
  - destruct allow_undo.
    + split; [lia | discriminate].
    + destruct (ProgressedMenu_wait_for_interact options false keys)
        as [result rest| | | |]; try exact IH.
      destruct IH as [Hlen Hval]. split; [lia | exact Hval].
Qed.

(** X25. An input box with the validator [validate_positive_integer] returns
    the first line typed that [int] reads as an integer above zero, and
    [None] at a Ctrl-C before such a line when [allow_undo] is set; it passes
    over every other key. *)
Theorem ValueInputBox_positive_integer (allow_undo : bool)
    (keys rest : list keyboard) (result : option string) :
  ValueInputBox_wait_for_interact (Some validate_positive_integer) allow_undo keys
  = Answer result rest ->
  exists before,
    Forall (fun key =>
              match key with
              | Typed raw => forall n, py_int raw = Some n -> n <= 0
              | CtrlC => allow_undo = false
              end) before
    /\ match result with
       | Some raw =>
           keys = before ++ Typed raw :: rest
           /\ exists n, py_int raw = Some n /\ 0 < n
       | None => keys = before ++ CtrlC :: rest /\ allow_undo = true
       end.
Proof.
  intros Hwait.
  pose proof (ValueInputBox_wait_for_interact_spec validate_positive_integer
                allow_undo keys) as Hspec.
  rewrite Hwait in Hspec. destruct Hspec as (before & key & -> & Hbefore & Hkey).
  exists before. split.
  - eapply Forall_impl; [exact Hbefore|].
    intros [raw|]; simpl; [|auto].
    intros Hraw n Hn.
    destruct (Z_lt_le_dec 0 n) as [Hpos|Hle]; [|exact Hle].
    assert (Htrue : (validate_positive_integer raw).1 = true)
      by (apply validate_positive_integer_true; exists n; auto).
    congruence.
  - destruct result as [raw|]; destruct Hkey as [-> Hkey].
    + split; [reflexivity|]. apply validate_positive_integer_true, Hkey.
    + split; [reflexivity | exact Hkey].
Qed.

Lemma parameters_ok_set (names : list string) (parameters : pydict Z)
    (name : string) (value : Z) :
  parameters_ok names parameters ->
  name ∈ names ->
  0 < value ->
  parameters_ok names (dict_set name value parameters).
Proof.
  intros [Hnodup Hall] Hname Hvalue. split; [apply dict_set_NoDup, Hnodup|].
  apply Forall_forall. intros [k v] Hin. simpl.
  apply (elem_of_dict_set _ _ _ _ _ Hnodup) in Hin as [[-> ->]|[_ Hin]].
  - split; assumption.
  - rewrite Forall_forall in Hall. exact (Hall _ Hin).
Qed.

Lemma parameters_ok_complete (names : list string) (parameters : pydict Z) :
  parameters_ok names parameters ->
  NoDup names ->
  length parameters = length names ->
  forall name, name ∈ names ->
    exists value, dict_get name parameters = Some value /\ 0 < value.
Proof.
  intros [Hnodup Hall] Hnames Hlen name Hname.
  rewrite Forall_forall in Hall.
  assert (Hsub : map fst parameters ⊆+ names).
  { apply NoDup_submseteq; [exact Hnodup|].
    intros k Hk. apply list_elem_of_fmap in Hk as ([k' v] & -> & Hin).
    exact (proj1 (Hall _ Hin)). }
  assert (Hperm : map fst parameters ≡ₚ names).
  { apply submseteq_length_Permutation; [exact Hsub|].
    rewrite length_map. lia. }
  rewrite <- Hperm in Hname.
  apply dict_get_keys in Hname as [value Hget].
  exists value. split; [exact Hget|].
  exact (proj2 (Hall _ (dict_get_elem_of _ _ _ Hget))).
Qed.

Lemma list_subscript_in_range {A} (l : list A) (i : Z) :
  0 <= i < Z.of_nat (length l) ->
  exists x, list_subscript l i = Some x /\ x ∈ l.
Proof.
  intros Hi. unfold list_subscript.
  destruct (0 <=? i) eqn:H0; [|apply Z.leb_gt in H0; lia].
  destruct (lookup_lt_is_Some_2 l (Z.to_nat i)) as [x Hx]; [lia|].
  exists x. split; [exact Hx|]. apply list_elem_of_lookup. eexists; exact Hx.
Qed.

Lemma execute_loop_spec (self : AddVehicleAttributeMenu) (names : list string) :
  NoDup names ->
  length (menu_options self) = (length names + 2)%nat ->
  (forall option, option ∈ menu_options self ->
                  1 <= option <= Z.of_nat (length names) + 2) ->
  (exists options,
     dict_get (vehicle_type self) AddVehicleAttributeMenu_options = Some options
     /\ forall option, 1 <= option <= Z.of_nat (length names) ->
                       option ∈ options) ->
  (forall parameters,
     (forall name, name ∈ names ->
                   exists value, dict_get name parameters = Some value /\ 0 < value) ->
     exists vehicle,
       create_vehicle (vehicle_type self) parameters = Returned vehicle
       /\ positive_parameters vehicle
       /\ vehicle_of_type (vehicle_type self) vehicle) ->
  forall steps parameters vehicles keys,
    (length keys < steps)%nat ->
    parameters_ok names parameters ->
    match execute_loop steps self names parameters vehicles keys with
    | Answer (confirmed, vehicles') rest =>
        if confirmed
        then exists vehicle,
               vehicles' = vehicles ++ [vehicle]
               /\ positive_parameters vehicle
               /\ vehicle_of_type (vehicle_type self) vehicle
        else vehicles' = vehicles
    | EOFError => True
    | _ => False
    end.
Proof.
  intros Hnames Hlen Hoptions (options & Hclass & Htexts) Hcreate.
  induction steps as [|steps IH]; intros parameters vehicles keys Hsteps Hok;
    [lia|].
  cbn [execute_loop].
  pose proof (ProgressedMenu_wait_for_interact_spec (menu_options self) true keys)
    as Hmenu.
  destruct (ProgressedMenu_wait_for_interact (menu_options self) true keys)
    as [[option|] keys1| | | |]; try exact Hmenu; [|reflexivity].
  destruct Hmenu as [Hkeys1 Hoption].
  specialize (Hoptions option (Hoption option eq_refl)).
  rewrite Hlen.
  destruct ((option =? 0) || (option =? Z.of_nat (length names + 2))) eqn:Hback;
    [reflexivity|].
  apply orb_false_iff in Hback as [_ Hback]. apply Z.eqb_neq in Hback.
  destruct (option =? Z.of_nat (length names + 2) - 1) eqn:Hconfirm.
  - destruct (length parameters =? length names)%nat eqn:Hall; cbn [negb].
    + apply Nat.eqb_eq in Hall.
      destruct (Hcreate parameters
                  (parameters_ok_complete _ _ Hok Hnames Hall))
        as (vehicle & -> & Hpositive & Htype).
      destruct keys1 as [|[raw|] keys1]; simpl; [exact I| |];
        exists vehicle; auto.
    + apply IH; [lia | exact Hok].
  - apply Z.eqb_neq in Hconfirm.
    pose proof (ValueInputBox_wait_for_interact_spec validate_positive_integer
                  true keys1) as Hbox.
    destruct (ValueInputBox_wait_for_interact (Some validate_positive_integer)
                true keys1) as [[result|] keys2| | | |]; try exact Hbox;
      [| |exact I].
    + destruct Hbox as (before & key & -> & _ & -> & Hvalid).
      assert (Hkeys2 : (length keys2 < steps)%nat).
      { rewrite length_app in Hkeys1. simpl in Hkeys1. lia. }
      destruct (is_empty result); [apply IH; assumption|].
      apply validate_positive_integer_true in Hvalid as (value & -> & Hvalue).
      destruct (list_subscript_in_range names (option - 1)) as (name & -> & Hname);
        [lia|].
      cbv zeta. rewrite Hclass, bool_decide_eq_true_2 by (apply Htexts; lia).
      apply IH; [exact Hkeys2|]. apply parameters_ok_set; assumption.
    + destruct Hbox as (before & key & -> & _ & _).
      apply IH; [|exact Hok].
      rewrite length_app in Hkeys1. simpl in Hkeys1. lia.
Qed.

Lemma AddVehicleAttributeMenu__init___returned
    (type : string) (self : AddVehicleAttributeMenu) :
  AddVehicleAttributeMenu__init__ type = Returned self ->
  exists names,
    dict_get (vehicle_type self) vehicle_parameters = Some names
    /\ vehicle_type self = type
    /\ NoDup names
    /\ length (menu_options self) = (length names + 2)%nat
    /\ (forall option, option ∈ menu_options self ->
                       1 <= option <= Z.of_nat (length names) + 2)
    /\ (exists options,
          dict_get (vehicle_type self) AddVehicleAttributeMenu_options
          = Some options
          /\ forall option, 1 <= option <= Z.of_nat (length names) ->
                            option ∈ options)
    /\ (forall parameters,
          (forall name, name ∈ names ->
             exists value, dict_get name parameters = Some value /\ 0 < value) ->
          exists vehicle,
            create_vehicle (vehicle_type self) parameters = Returned vehicle
            /\ positive_parameters vehicle
            /\ vehicle_of_type (vehicle_type self) vehicle).
Proof.
  unfold AddVehicleAttributeMenu__init__, AddVehicleAttributeMenu_options.
  cbn [dict_get].
  destruct (decide (type = "CrappyCrepeCar")) as [->|Hcar];
    [|destruct (decide (type = "DiplomacyDonutDinghy")) as [->|Hdinghy];
      [|destruct (decide (type = "TeleportingTarteTrolley")) as [->|Htrolley];
        [|discriminate]]];
    cbn; intros [= <-]; cbn.
  - exists ["speed"]. split; [reflexivity|]. split; [reflexivity|].
    split; [apply (bool_decide_unpack _); reflexivity|].
    split; [reflexivity|]. split; [|split].
    + intros option Hin. cbn in Hin. cbn [length].
      repeat (apply elem_of_cons in Hin as [->|Hin]; [lia|]).
      apply elem_of_nil in Hin as [].
    + eexists. split; [reflexivity|]. cbn [length]. intros option Hoption.
      assert (Hcases : option = 1 \/ option = 2) by lia.
      destruct Hcases as [Heq|Heq]; subst option;
        first [lia | apply (bool_decide_unpack _); reflexivity].
    + intros parameters Hall.
      destruct (Hall "speed") as (speed & Hspeed & Hpos); [set_solver|].
      exists (CrappyCrepeCar speed). unfold create_vehicle. cbn.
      rewrite Hspeed. cbn. auto.
  - exists ["speed_internal"; "speed_external"].
    split; [reflexivity|]. split; [reflexivity|].
    split; [apply (bool_decide_unpack _); reflexivity|].
    split; [reflexivity|]. split; [|split].
    + intros option Hin. cbn in Hin. cbn [length].
      repeat (apply elem_of_cons in Hin as [->|Hin]; [lia|]).
      apply elem_of_nil in Hin as [].
    + eexists. split; [reflexivity|]. cbn [length]. intros option Hoption.
      assert (Hcases : option = 1 \/ option = 2) by lia.
      destruct Hcases as [Heq|Heq]; subst option;
        first [lia | apply (bool_decide_unpack _); reflexivity].
    + intros parameters Hall.
      destruct (Hall "speed_internal") as (a & Ha & Hapos); [set_solver|].
      destruct (Hall "speed_external") as (b & Hb & Hbpos); [set_solver|].
      exists (DiplomacyDonutDinghy a b). unfold create_vehicle. cbn.
      rewrite Ha. cbn. rewrite Hb. cbn. auto.
  - exists ["timeout"; "distance_limit"].
    split; [reflexivity|]. split; [reflexivity|].
    split; [apply (bool_decide_unpack _); reflexivity|].
    split; [reflexivity|]. split; [|split].
    + intros option Hin. cbn in Hin. cbn [length].
      repeat (apply elem_of_cons in Hin as [->|Hin]; [lia|]).
      apply elem_of_nil in Hin as [].
    + eexists. split; [reflexivity|]. cbn [length]. intros option Hoption.
      assert (Hcases : option = 1 \/ option = 2) by lia.
      destruct Hcases as [Heq|Heq]; subst option;
        first [lia | apply (bool_decide_unpack _); reflexivity].
    + intros parameters Hall.
      destruct (Hall "timeout") as (a & Ha & Hapos); [set_solver|].
      destruct (Hall "distance_limit") as (b & Hb & Hbpos); [set_solver|].
      exists (TeleportingTarteTrolley a b). unfold create_vehicle. cbn.
      rewrite Ha. cbn. rewrite Hb. cbn. auto.
Qed.

End VehicleInputProperties.

Section VehicleEntryProperties.
Context {lib : FloatLib} {ints : IntLib}.

(** X26. When [AddVehicleAttributeMenu.execute] returns [True] it has
    appended one vehicle to the vehicles of the navigation system, of the
    type of the menu and with parameters above zero, for which
    [compute_travel_time] raises no [ZeroDivisionError] between any two
    cities; when it returns [False] the vehicles are unchanged. *)
Theorem AddVehicleAttributeMenu_adds_valid_vehicle
    (type : string) (self : AddVehicleAttributeMenu)
    (vehicles vehicles' : list Vehicle) (keys rest : list keyboard)
    (confirmed : bool) :
  AddVehicleAttributeMenu__init__ type = Returned self ->
  AddVehicleAttributeMenu_execute self vehicles keys
  = Answer (confirmed, vehicles') rest ->
  if confirmed
  then exists vehicle,
         vehicles' = vehicles ++ [vehicle]
         /\ vehicle_of_type type vehicle
         /\ positive_parameters vehicle
         /\ forall departure arrival,
              compute_travel_time vehicle departure arrival
              <> Raised ZeroDivisionError
  else vehicles' = vehicles.
Proof.
  intros Hinit Hexecute.
  destruct (AddVehicleAttributeMenu__init___returned _ _ Hinit)
    as (names & Hparameters & Htype & Hnames & Hlen & Hoptions & Hclass
        & Hcreate).
  unfold AddVehicleAttributeMenu_execute in Hexecute.
  rewrite Hparameters in Hexecute.
  pose proof (execute_loop_spec self names Hnames Hlen Hoptions Hclass Hcreate
                (S (length keys)) [] vehicles keys (Nat.lt_succ_diag_r _)
                (conj (NoDup_nil_2 : NoDup (map fst (@nil (string * Z))))
                      (Forall_nil_2 _))) as Hloop.
  rewrite Hexecute in Hloop. destruct confirmed; [|exact Hloop].
  destruct Hloop as (vehicle & -> & Hpositive & Hkind).
  exists vehicle. split; [reflexivity|]. split; [rewrite <- Htype; exact Hkind|].
  split; [exact Hpositive|].
  intros departure arrival. apply speeds_nonzero_no_zero_division.
  destruct vehicle as [speed|a b|t d]; simpl in *; lia.
Qed.

(** X27. [AddVehicleAttributeMenu.execute] ends with a return, or with the
    [EOFError] of [input] at the end of the input: [int(result)] does not
    raise, the parameters that the creation of the vehicle reads are there,
    and the loop makes no more iterations than keys are typed. *)
Theorem AddVehicleAttributeMenu_execute_ends
    (type : string) (self : AddVehicleAttributeMenu)
    (vehicles : list Vehicle) (keys : list keyboard) :
  AddVehicleAttributeMenu__init__ type = Returned self ->
  (exists confirmed vehicles' rest,
     AddVehicleAttributeMenu_execute self vehicles keys
     = Answer (confirmed, vehicles') rest)
  \/ AddVehicleAttributeMenu_execute self vehicles keys = EOFError.
Proof.
  intros Hinit.
  destruct (AddVehicleAttributeMenu__init___returned _ _ Hinit)
    as (names & Hparameters & Htype & Hnames & Hlen & Hoptions & Hclass
        & Hcreate).
  unfold AddVehicleAttributeMenu_execute. rewrite Hparameters.
  pose proof (execute_loop_spec self names Hnames Hlen Hoptions Hclass Hcreate
                (S (length keys)) [] vehicles keys (Nat.lt_succ_diag_r _)
                (conj (NoDup_nil_2 : NoDup (map fst (@nil (string * Z))))
                      (Forall_nil_2 _))) as Hloop.
  destruct (execute_loop (S (length keys)) self names [] vehicles keys)
    as [[confirmed vehicles'] rest| | | |]; try contradiction.
  - left. exists confirmed, vehicles', rest. reflexivity.
  - right. reflexivity.
Qed.

End VehicleEntryProperties.

(** X25 at a box where [0] and [abc] are typed before [80]. *)
Lemma ValueInputBox_positive_integer_witness :
  exists before,
    Forall (fun key =>
              match key with
              | Typed raw =>
                  forall n, @py_int example_ints raw = Some n -> n <= 0
              | CtrlC => true = false
              end) before
    /\ [Typed "0"; Typed "abc"; Typed "80"; Typed "2"]
       = before ++ Typed "80" :: [Typed "2"]
    /\ exists n, @py_int example_ints "80" = Some n /\ 0 < n.
Proof.
  exact (@ValueInputBox_positive_integer example_ints true
           [Typed "0"; Typed "abc"; Typed "80"; Typed "2"] [Typed "2"]
           (Some "80") eq_refl).
Defined.

(** X26 at the menu of a [CrappyCrepeCar] and the keys of [example_keys]. *)
Lemma AddVehicleAttributeMenu_adds_valid_vehicle_witness :
  exists vehicle,
    [CrappyCrepeCar 80] = [] ++ [vehicle]
    /\ vehicle_of_type "CrappyCrepeCar" vehicle
    /\ positive_parameters vehicle
    /\ forall departure arrival,
         @compute_travel_time example_lib vehicle departure arrival
         <> Raised ZeroDivisionError.
Proof.
  exact (@AddVehicleAttributeMenu_adds_valid_vehicle example_lib example_ints
           "CrappyCrepeCar" example_menu [] [CrappyCrepeCar 80] example_keys []
           true eq_refl eq_refl).
Defined.

(** X27 at the same menu and keys. *)
Lemma AddVehicleAttributeMenu_execute_ends_witness :
  (exists confirmed vehicles' rest,
     @AddVehicleAttributeMenu_execute example_ints example_menu [] example_keys
     = Answer (confirmed, vehicles') rest)
  \/ @AddVehicleAttributeMenu_execute example_ints example_menu [] example_keys
     = EOFError.
Proof.
  exact (@AddVehicleAttributeMenu_execute_ends example_ints
           "CrappyCrepeCar" example_menu [] example_keys eq_refl).
Defined.

(** ** The great-circle distance *)

Section SphericalModelProperties.
Import Reals Qreals ROrderedType Lra.
Local Open Scope R_scope.





End SphericalModelProperties.
